(** * The hooks engine of the React fiber reconciler

    A shallow embedding of [ReactFiberHooks] (hook list, update queue,
    effect list, render-phase loop, mutable source reader) as state-passing
    functions over an explicit object store.  JavaScript objects live in
    per-type finite maps from references to records, so that aliasing
    between the committed ("current") and the work-in-progress hook lists
    is visible; module-level [let] variables are fields of the state. *)

From Stdlib Require Import ZArith NArith Lia.
From stdpp Require Import gmap strings list fin_maps.


(** ** Values *)

(** Object references.  Every kind of object has its own store, so a
    reference is meaningful together with the store it indexes. *)
Abbreviation loc := positive.

(** References to user functions (reducers, snapshot getters, ...).
    JavaScript compares functions by identity, which is all the engine
    ever does with them besides calling them. *)
Abbreviation fnref := positive.

(** JavaScript values as far as the engine looks at them.  Numbers are the
    integers, NaN and the negative zero ([VNum 0] is the positive zero). *)
Inductive Val : Type :=
  | VUndefined
  | VNull
  | VBool (b : bool)
  | VNaN
  | VNegZero
  | VNum (z : Z)
  | VStr (s : string)
  | VObj (l : loc)
  | VFun (f : fnref).

#[global] Instance Val_eq_dec : EqDecision Val.
Proof. solve_decision. Defined.

(** The [===] operator: NaN differs from itself, the two zeros are equal. *)
Definition strictEquals (x y : Val) : bool :=
  match x, y with
  | VNaN, _ => false
  | _, VNaN => false
  | VNegZero, VNum 0 => true
  | VNum 0, VNegZero => true
  | _, _ => bool_decide (x = y)
  end.

(** Modelled from the spec: [shared/objectIs] is imported as [is] but is not
    among the sources.  The spec calls it a strict identity-with-NaN-equal
    comparison, never deep equality: two values are the same when they are
    the same primitive or the same reference, NaN being the same as NaN and
    the two zeros being different. *)
Definition objectIs (x y : Val) : bool := bool_decide (x = y).

(** ** Lanes *)

(** Modelled from the spec: [ReactFiberLane] is not among the sources.  A
    lane is an opaque priority bitmask, with the bitmask algebra
    [isSubsetOfLanes]/[mergeLanes]/[removeLanes]; the comment in
    [updateReducer] fixes [NoLane] as 0, "a subset of all bitmasks". *)
Abbreviation Lane := N.
Abbreviation Lanes := N.

Definition NoLane : Lane := 0%N.
Definition NoLanes : Lanes := 0%N.

Definition isSubsetOfLanes (set subset : Lanes) : bool :=
  N.eqb (N.land set subset) subset.

Definition mergeLanes (a b : Lanes) : Lanes := N.lor a b.


(** ** Objects *)

Module Update.
Record t : Type := mk {
  lane : Lane;
  action : Val;
  eagerReducer : option fnref;
  eagerState : Val;
  next : option loc;
}.
Definition set_next (n : option loc) (u : t) : t :=
  mk (lane u) (action u) (eagerReducer u) (eagerState u) n.
Definition set_eager (r : option fnref) (s : Val) (u : t) : t :=
  mk (lane u) (action u) r s (next u).
End Update.

Module UpdateQueue.
Record t : Type := mk {
  pending : option loc;
  (* [dispatchAction.bind(null, fiber, queue)]: the bound arguments *)
  dispatch : option (option loc * loc);
  lastRenderedReducer : option fnref;
  lastRenderedState : Val;
}.
Definition set_pending (p : option loc) (q : t) : t :=
  mk p (dispatch q) (lastRenderedReducer q) (lastRenderedState q).
Definition set_dispatch (d : option (option loc * loc)) (q : t) : t :=
  mk (pending q) d (lastRenderedReducer q) (lastRenderedState q).
Definition set_lastRenderedReducer (r : option fnref) (q : t) : t :=
  mk (pending q) (dispatch q) r (lastRenderedState q).
Definition set_lastRenderedState (s : Val) (q : t) : t :=
  mk (pending q) (dispatch q) (lastRenderedReducer q) s.
End UpdateQueue.

Module Hook.
Record t : Type := mk {
  memoizedState : Val;
  baseState : Val;
  baseQueue : option loc;
  queue : option loc;
  next : option loc;
}.
Definition set_memoizedState (v : Val) (h : t) : t :=
  mk v (baseState h) (baseQueue h) (queue h) (next h).
Definition set_baseState (v : Val) (h : t) : t :=
  mk (memoizedState h) v (baseQueue h) (queue h) (next h).
Definition set_baseQueue (b : option loc) (h : t) : t :=
  mk (memoizedState h) (baseState h) b (queue h) (next h).
Definition set_queue (q : option loc) (h : t) : t :=
  mk (memoizedState h) (baseState h) (baseQueue h) q (next h).
Definition set_next (n : option loc) (h : t) : t :=
  mk (memoizedState h) (baseState h) (baseQueue h) (queue h) n.
End Hook.

Module Effect.
Record t : Type := mk {
  tag : N;
  create : Val;
  destroy : Val;
  deps : option (list Val);
  next : option loc;
}.
Definition set_next (n : option loc) (e : t) : t :=
  mk (tag e) (create e) (destroy e) (deps e) n.
End Effect.

Module FunctionComponentUpdateQueue.
Record t : Type := mk { lastEffect : option loc }.
End FunctionComponentUpdateQueue.

(** The fields of a fiber that the hooks engine reads or writes. *)
Module Fiber.
Record t : Type := mk {
  memoizedState : option loc;
  updateQueue : option loc;
  lanes : Lanes;
  flags : N;
  alternate : option loc;
}.
Definition set_memoizedState (h : option loc) (f : t) : t :=
  mk h (updateQueue f) (lanes f) (flags f) (alternate f).
Definition set_updateQueue (q : option loc) (f : t) : t :=
  mk (memoizedState f) q (lanes f) (flags f) (alternate f).
Definition set_lanes (l : Lanes) (f : t) : t :=
  mk (memoizedState f) (updateQueue f) l (flags f) (alternate f).
Definition set_flags (fl : N) (f : t) : t :=
  mk (memoizedState f) (updateQueue f) (lanes f) fl (alternate f).
End Fiber.

(** [createMutableSource] of [ReactMutableSource.js]. *)
Module MutableSource.
Record t : Type := mk {
  _getVersion : fnref;
  _source : Val;
  _workInProgressVersionPrimary : Val;
  _workInProgressVersionSecondary : Val;
}.
End MutableSource.

Module FiberRoot.
Record t : Type := mk { mutableReadLanes : Lanes }.
End FiberRoot.

Definition createMutableSource (source : Val) (getVersion : fnref)
  : MutableSource.t :=
  MutableSource.mk getVersion source VNull VNull.

(** ** The state of the module

    The object stores, the module-level variables of [ReactFiberHooks], the
    dispatcher slot of [ReactSharedInternals], and what the collaborators
    that are called through (scheduler, work loop, mutable source registry)
    have been told so far. *)

(** The dispatcher tables, by name; [useReducer] and [useEffect] below give
    the entries of each table. *)
Inductive Dispatcher : Type :=
  | ContextOnlyDispatcher
  | HooksDispatcherOnMount
  | HooksDispatcherOnUpdate
  | HooksDispatcherOnRerender.

#[global] Instance Dispatcher_eq_dec : EqDecision Dispatcher.
Proof. solve_decision. Defined.

Record State : Type := mkState {
  (* object stores *)
  updates : gmap loc Update.t;
  queues : gmap loc UpdateQueue.t;
  hooks : gmap loc Hook.t;
  effects : gmap loc Effect.t;
  componentUpdateQueues : gmap loc FunctionComponentUpdateQueue.t;
  fibers : gmap loc Fiber.t;
  sources : gmap loc MutableSource.t;
  roots : gmap loc FiberRoot.t;
  (* module-level variables *)
  renderLanes : Lanes;
  currentlyRenderingFiber : option loc;
  currentHook : option loc;
  workInProgressHook : option loc;
  didScheduleRenderPhaseUpdate : bool;
  didScheduleRenderPhaseUpdateDuringThisPass : bool;
  (* ReactCurrentDispatcher.current *)
  currentDispatcher : Dispatcher;
  (* calls received by the collaborators: scheduleUpdateOnFiber,
     markSkippedUpdateLanes, markWorkInProgressReceivedUpdate,
     markSourceAsDirty *)
  scheduledUpdates : list (loc * Lane * N);
  skippedLanes : Lanes;
  didReceiveUpdate : bool;
  dirtySources : list loc;
}.

Definition set_updates (v : gmap loc Update.t) (st : State) : State :=
  mkState v (queues st) (hooks st) (effects st) (componentUpdateQueues st)
    (fibers st) (sources st) (roots st) (renderLanes st)
    (currentlyRenderingFiber st) (currentHook st) (workInProgressHook st)
    (didScheduleRenderPhaseUpdate st)
    (didScheduleRenderPhaseUpdateDuringThisPass st) (currentDispatcher st)
    (scheduledUpdates st) (skippedLanes st) (didReceiveUpdate st)
    (dirtySources st).
Definition set_queues (v : gmap loc UpdateQueue.t) (st : State) : State :=
  mkState (updates st) v (hooks st) (effects st) (componentUpdateQueues st)
    (fibers st) (sources st) (roots st) (renderLanes st)
    (currentlyRenderingFiber st) (currentHook st) (workInProgressHook st)
    (didScheduleRenderPhaseUpdate st)
    (didScheduleRenderPhaseUpdateDuringThisPass st) (currentDispatcher st)
    (scheduledUpdates st) (skippedLanes st) (didReceiveUpdate st)
    (dirtySources st).
Definition set_hooks (v : gmap loc Hook.t) (st : State) : State :=
  mkState (updates st) (queues st) v (effects st) (componentUpdateQueues st)
    (fibers st) (sources st) (roots st) (renderLanes st)
    (currentlyRenderingFiber st) (currentHook st) (workInProgressHook st)
    (didScheduleRenderPhaseUpdate st)
    (didScheduleRenderPhaseUpdateDuringThisPass st) (currentDispatcher st)
    (scheduledUpdates st) (skippedLanes st) (didReceiveUpdate st)
    (dirtySources st).
Definition set_effects (v : gmap loc Effect.t) (st : State) : State :=
  mkState (updates st) (queues st) (hooks st) v (componentUpdateQueues st)
    (fibers st) (sources st) (roots st) (renderLanes st)
    (currentlyRenderingFiber st) (currentHook st) (workInProgressHook st)
    (didScheduleRenderPhaseUpdate st)
    (didScheduleRenderPhaseUpdateDuringThisPass st) (currentDispatcher st)
    (scheduledUpdates st) (skippedLanes st) (didReceiveUpdate st)
    (dirtySources st).
Definition set_componentUpdateQueues (v : gmap loc FunctionComponentUpdateQueue.t) (st : State) : State :=
  mkState (updates st) (queues st) (hooks st) (effects st) v (fibers st)
    (sources st) (roots st) (renderLanes st) (currentlyRenderingFiber st)
    (currentHook st) (workInProgressHook st) (didScheduleRenderPhaseUpdate
    st) (didScheduleRenderPhaseUpdateDuringThisPass st) (currentDispatcher
    st) (scheduledUpdates st) (skippedLanes st) (didReceiveUpdate st)
    (dirtySources st).
Definition set_fibers (v : gmap loc Fiber.t) (st : State) : State :=
  mkState (updates st) (queues st) (hooks st) (effects st)
    (componentUpdateQueues st) v (sources st) (roots st) (renderLanes st)
    (currentlyRenderingFiber st) (currentHook st) (workInProgressHook st)
    (didScheduleRenderPhaseUpdate st)
    (didScheduleRenderPhaseUpdateDuringThisPass st) (currentDispatcher st)
    (scheduledUpdates st) (skippedLanes st) (didReceiveUpdate st)
    (dirtySources st).
Definition set_sources (v : gmap loc MutableSource.t) (st : State) : State :=
  mkState (updates st) (queues st) (hooks st) (effects st)
    (componentUpdateQueues st) (fibers st) v (roots st) (renderLanes st)
    (currentlyRenderingFiber st) (currentHook st) (workInProgressHook st)
    (didScheduleRenderPhaseUpdate st)
    (didScheduleRenderPhaseUpdateDuringThisPass st) (currentDispatcher st)
    (scheduledUpdates st) (skippedLanes st) (didReceiveUpdate st)
    (dirtySources st).
Definition set_roots (v : gmap loc FiberRoot.t) (st : State) : State :=
  mkState (updates st) (queues st) (hooks st) (effects st)
    (componentUpdateQueues st) (fibers st) (sources st) v (renderLanes st)
    (currentlyRenderingFiber st) (currentHook st) (workInProgressHook st)
    (didScheduleRenderPhaseUpdate st)
    (didScheduleRenderPhaseUpdateDuringThisPass st) (currentDispatcher st)
    (scheduledUpdates st) (skippedLanes st) (didReceiveUpdate st)
    (dirtySources st).
Definition set_renderLanes (v : Lanes) (st : State) : State :=
  mkState (updates st) (queues st) (hooks st) (effects st)
    (componentUpdateQueues st) (fibers st) (sources st) (roots st) v
    (currentlyRenderingFiber st) (currentHook st) (workInProgressHook st)
    (didScheduleRenderPhaseUpdate st)
    (didScheduleRenderPhaseUpdateDuringThisPass st) (currentDispatcher st)
    (scheduledUpdates st) (skippedLanes st) (didReceiveUpdate st)
    (dirtySources st).
Definition set_currentlyRenderingFiber (v : option loc) (st : State) : State :=
  mkState (updates st) (queues st) (hooks st) (effects st)
    (componentUpdateQueues st) (fibers st) (sources st) (roots st)
    (renderLanes st) v (currentHook st) (workInProgressHook st)
    (didScheduleRenderPhaseUpdate st)
    (didScheduleRenderPhaseUpdateDuringThisPass st) (currentDispatcher st)
    (scheduledUpdates st) (skippedLanes st) (didReceiveUpdate st)
    (dirtySources st).
Definition set_currentHook (v : option loc) (st : State) : State :=
  mkState (updates st) (queues st) (hooks st) (effects st)
    (componentUpdateQueues st) (fibers st) (sources st) (roots st)
    (renderLanes st) (currentlyRenderingFiber st) v (workInProgressHook st)
    (didScheduleRenderPhaseUpdate st)
    (didScheduleRenderPhaseUpdateDuringThisPass st) (currentDispatcher st)
    (scheduledUpdates st) (skippedLanes st) (didReceiveUpdate st)
    (dirtySources st).
Definition set_workInProgressHook (v : option loc) (st : State) : State :=
  mkState (updates st) (queues st) (hooks st) (effects st)
    (componentUpdateQueues st) (fibers st) (sources st) (roots st)
    (renderLanes st) (currentlyRenderingFiber st) (currentHook st) v
    (didScheduleRenderPhaseUpdate st)
    (didScheduleRenderPhaseUpdateDuringThisPass st) (currentDispatcher st)
    (scheduledUpdates st) (skippedLanes st) (didReceiveUpdate st)
    (dirtySources st).
Definition set_didScheduleRenderPhaseUpdate (v : bool) (st : State) : State :=
  mkState (updates st) (queues st) (hooks st) (effects st)
    (componentUpdateQueues st) (fibers st) (sources st) (roots st)
    (renderLanes st) (currentlyRenderingFiber st) (currentHook st)
    (workInProgressHook st) v (didScheduleRenderPhaseUpdateDuringThisPass
    st) (currentDispatcher st) (scheduledUpdates st) (skippedLanes st)
    (didReceiveUpdate st) (dirtySources st).
Definition set_didScheduleRenderPhaseUpdateDuringThisPass (v : bool) (st : State) : State :=
  mkState (updates st) (queues st) (hooks st) (effects st)
    (componentUpdateQueues st) (fibers st) (sources st) (roots st)
    (renderLanes st) (currentlyRenderingFiber st) (currentHook st)
    (workInProgressHook st) (didScheduleRenderPhaseUpdate st) v
    (currentDispatcher st) (scheduledUpdates st) (skippedLanes st)
    (didReceiveUpdate st) (dirtySources st).
Definition set_currentDispatcher (v : Dispatcher) (st : State) : State :=
  mkState (updates st) (queues st) (hooks st) (effects st)
    (componentUpdateQueues st) (fibers st) (sources st) (roots st)
    (renderLanes st) (currentlyRenderingFiber st) (currentHook st)
    (workInProgressHook st) (didScheduleRenderPhaseUpdate st)
    (didScheduleRenderPhaseUpdateDuringThisPass st) v (scheduledUpdates st)
    (skippedLanes st) (didReceiveUpdate st) (dirtySources st).
Definition set_scheduledUpdates (v : list (loc * Lane * N)) (st : State) : State :=
  mkState (updates st) (queues st) (hooks st) (effects st)
    (componentUpdateQueues st) (fibers st) (sources st) (roots st)
    (renderLanes st) (currentlyRenderingFiber st) (currentHook st)
    (workInProgressHook st) (didScheduleRenderPhaseUpdate st)
    (didScheduleRenderPhaseUpdateDuringThisPass st) (currentDispatcher st) v
    (skippedLanes st) (didReceiveUpdate st) (dirtySources st).
Definition set_skippedLanes (v : Lanes) (st : State) : State :=
  mkState (updates st) (queues st) (hooks st) (effects st)
    (componentUpdateQueues st) (fibers st) (sources st) (roots st)
    (renderLanes st) (currentlyRenderingFiber st) (currentHook st)
    (workInProgressHook st) (didScheduleRenderPhaseUpdate st)
    (didScheduleRenderPhaseUpdateDuringThisPass st) (currentDispatcher st)
    (scheduledUpdates st) v (didReceiveUpdate st) (dirtySources st).
Definition set_didReceiveUpdate (v : bool) (st : State) : State :=
  mkState (updates st) (queues st) (hooks st) (effects st)
    (componentUpdateQueues st) (fibers st) (sources st) (roots st)
    (renderLanes st) (currentlyRenderingFiber st) (currentHook st)
    (workInProgressHook st) (didScheduleRenderPhaseUpdate st)
    (didScheduleRenderPhaseUpdateDuringThisPass st) (currentDispatcher st)
    (scheduledUpdates st) (skippedLanes st) v (dirtySources st).
Definition set_dirtySources (v : list loc) (st : State) : State :=
  mkState (updates st) (queues st) (hooks st) (effects st)
    (componentUpdateQueues st) (fibers st) (sources st) (roots st)
    (renderLanes st) (currentlyRenderingFiber st) (currentHook st)
    (workInProgressHook st) (didScheduleRenderPhaseUpdate st)
    (didScheduleRenderPhaseUpdateDuringThisPass st) (currentDispatcher st)
    (scheduledUpdates st) (skippedLanes st) (didReceiveUpdate st) v.

(** ** Control: exceptions and state *)

(** What a JavaScript [throw] can carry out of the engine: a failed
    [invariant] with its message, the TypeError of a property access on
    [null] or [undefined], or whatever user code threw. *)
Inductive Error : Type :=
  | Invariant (msg : string)
  | TypeError
  | UserError.

#[global] Instance Error_eq_dec : EqDecision Error.
Proof. solve_decision. Defined.

(** A call returns, throws, or is still running when the fuel that bounds
    the model's loops is used up. *)
Inductive Outcome (A : Type) : Type :=
  | Returns (a : A)
  | Throws (e : Error)
  | OutOfFuel.
Arguments Returns {A} a.
Arguments Throws {A} e.
Arguments OutOfFuel {A}.

(** State is kept when an exception is thrown: writes made before a
    [throw] stay visible to whoever catches it. *)
Definition M (A : Type) : Type := State -> Outcome A * State.

Definition ret {A : Type} (a : A) : M A := fun st => (Returns a, st).

Definition bind {A B : Type} (m : M A) (k : A -> M B) : M B :=
  fun st =>
    match m st with
    | (Returns a, st') => k a st'
    | (Throws e, st') => (Throws e, st')
    | (OutOfFuel, st') => (OutOfFuel, st')
    end.

Notation "'let*' x ':=' m 'in' k" := (bind m (fun x => k))
  (at level 10, x binder, m at level 100, k at level 200).

Definition throw {A : Type} (e : Error) : M A := fun st => (Throws e, st).

Definition outOfFuel {A : Type} : M A := fun st => (OutOfFuel, st).

Definition gets {A : Type} (f : State -> A) : M A :=
  fun st => (Returns (f st), st).

Definition modify (f : State -> State) : M unit :=
  fun st => (Returns tt, f st).

(** [invariant(condition, message)] of [shared/invariant]. *)
Definition invariant (condition : bool) (msg : string) : M unit :=
  if condition then ret tt else throw (Invariant msg).

(** Reading a property of the object a nullable reference points to. *)
Definition deref {A : Type} (store : State -> gmap loc A) (p : option loc)
  : M A :=
  fun st =>
    match p with
    | Some l =>
        match store st !! l with
        | Some x => (Returns x, st)
        | None => (Throws TypeError, st)
        end
    | None => (Throws TypeError, st)
    end.

(** Assigning to properties of the object a nullable reference points to. *)
Definition assign {A : Type} (store : State -> gmap loc A)
    (set_store : gmap loc A -> State -> State)
    (p : option loc) (f : A -> A) : M unit :=
  let* x := deref store p in
  match p with
  | Some l => modify (fun st => set_store (<[l := f x]> (store st)) st)
  | None => throw TypeError
  end.

(** A reference that no object of the store has. *)
Definition freshLoc {A : Type} (store : gmap loc A) : loc := fresh (dom store).

(** An object literal: a new object with an identity of its own. *)
Definition alloc {A : Type} (store : State -> gmap loc A)
    (set_store : gmap loc A -> State -> State) (x : A) : M loc :=
  fun st =>
    let l := freshLoc (store st) in
    (Returns l, set_store (<[l := x]> (store st)) st).

Definition getUpdate := deref updates.
Definition setUpdate := assign updates set_updates.
Definition newUpdate := alloc updates set_updates.
Definition getQueue := deref queues.
Definition setQueue := assign queues set_queues.
Definition newQueue := alloc queues set_queues.
Definition getHook := deref hooks.
Definition setHook := assign hooks set_hooks.
Definition newHook := alloc hooks set_hooks.
Definition getEffect := deref effects.
Definition setEffect := assign effects set_effects.
Definition newEffect := alloc effects set_effects.
Definition getComponentUpdateQueue := deref componentUpdateQueues.
Definition setComponentUpdateQueue :=
  assign componentUpdateQueues set_componentUpdateQueues.
Definition newComponentUpdateQueue :=
  alloc componentUpdateQueues set_componentUpdateQueues.
Definition getFiber := deref fibers.
Definition setFiber := assign fibers set_fibers.
Definition getSource := deref sources.
Definition setSource := assign sources set_sources.
Definition getRoot := deref roots.

(** The effect object a hook of an effect call site keeps in its
    [memoizedState]. *)
Definition effectOf (v : Val) : option loc :=
  match v with
  | VObj l => Some l
  | _ => None
  end.

(** ** Constants *)

Definition RE_RENDER_LIMIT : nat := 25.

Definition msgTooManyReRenders : string :=
  "Too many re-renders. React limits the number of renders to prevent an infinite loop.".

Definition msgRenderedMoreHooks : string :=
  "Rendered more hooks than during the previous render.".

Definition msgShouldHaveQueue : string :=
  "Should have a queue. This is likely a bug in React. Please file an issue.".

Definition msgTearing : string :=
  "Cannot read from mutable source during the current render without tearing. This is a bug in React. Please file an issue.".

(** The first two sentences of the message of [throwInvalidHookError]. *)
Definition msgInvalidHookCall : string :=
  "Invalid hook call. Hooks can only be called inside of the body of a function component.".

(** ** The engine *)

Section ReactFiberHooks.

(** User code.  [call f args] is the result of calling the user function
    [f] on [args], or [None] when the call throws.  Reducers, initialisers,
    version and snapshot getters are taken to be pure: they neither read nor
    write the stores of the engine. *)
Variable call : fnref -> list Val -> option Val.

(** [HasEffect] of [ReactHookEffectTags], which is not among the sources. *)
Variable HookHasEffect : N.

(** [isPrimaryRenderer] of the host configuration. *)
Variable isPrimaryRenderer : bool.

Definition callUser (f : fnref) (args : list Val) : M Val :=
  match call f args with
  | Some v => ret v
  | None => throw UserError
  end.

(** *** Collaborators *)

(** Modelled from the spec: [scheduleUpdateOnFiber] belongs to the work loop,
    which is not among the sources.  It is the scheduling request issued to
    the scheduler for an update at [lane] on a component; the request is
    recorded, and the lane becomes pending on the component and on its
    alternate, which is what the eager path of [dispatchAction] tests with
    "no other pending lanes on the component or its alternate". *)
Definition scheduleUpdateOnFiber (fiber : loc) (lane : Lane) (eventTime : N)
  : M unit :=
  let* _ := modify (fun st =>
    set_scheduledUpdates (scheduledUpdates st ++ [(fiber, lane, eventTime)]) st) in
  let* f := getFiber (Some fiber) in
  let* _ := setFiber (Some fiber) (Fiber.set_lanes (mergeLanes (Fiber.lanes f) lane)) in
  match Fiber.alternate f with
  | Some a =>
      setFiber (Some a) (fun af => Fiber.set_lanes (mergeLanes (Fiber.lanes af) lane) af)
  | None => ret tt
  end.

(** Modelled from the spec: [markSkippedUpdateLanes] of the work loop
    notifies the scheduler of a skipped lane. *)
Definition markSkippedUpdateLanes (lane : Lane) : M unit :=
  modify (fun st => set_skippedLanes (mergeLanes lane (skippedLanes st)) st).

(** Modelled from the spec: [markWorkInProgressReceivedUpdate] of the begin
    phase records that the fiber performed work. *)
Definition markWorkInProgressReceivedUpdate : M unit :=
  modify (set_didReceiveUpdate true).

(** Modelled from the spec: [ReactMutableSource.old] is not among the
    sources.  The work-in-progress version of a source is kept in the slot
    of the renderer, the primary or the secondary one; marking a source as
    dirty tells the registry that its version must be reset. *)
Definition getWorkInProgressVersion (source : loc) : M Val :=
  let* s := getSource (Some source) in
  ret (if isPrimaryRenderer
       then MutableSource._workInProgressVersionPrimary s
       else MutableSource._workInProgressVersionSecondary s).

Definition setWorkInProgressVersion (source : loc) (version : Val) : M unit :=
  setSource (Some source) (fun s =>
    if isPrimaryRenderer
    then MutableSource.mk (MutableSource._getVersion s) (MutableSource._source s)
           version (MutableSource._workInProgressVersionSecondary s)
    else MutableSource.mk (MutableSource._getVersion s) (MutableSource._source s)
           (MutableSource._workInProgressVersionPrimary s) version).

Definition markSourceAsDirty (source : loc) : M unit :=
  modify (fun st => set_dirtySources (dirtySources st ++ [source]) st).

(** *** Hook list *)

Definition throwInvalidHookError {A : Type} : M A :=
  throw (Invariant msgInvalidHookCall).

Definition mountWorkInProgressHook : M loc :=
  let* hook := newHook (Hook.mk VNull VNull None None None) in
  let* wip := gets workInProgressHook in
  let* _ :=
    match wip with
    | None =>
        (* This is the first hook in the list *)
        let* _ := modify (set_workInProgressHook (Some hook)) in
        let* fiber := gets currentlyRenderingFiber in
        setFiber fiber (Fiber.set_memoizedState (Some hook))
    | Some _ =>
        (* Append to the end of the list *)
        let* _ := setHook wip (Hook.set_next (Some hook)) in
        modify (set_workInProgressHook (Some hook))
    end in
  let* wip := gets workInProgressHook in
  match wip with
  | Some h => ret h
  | None => throw TypeError
  end.

(** The committed hook of the position about to be rendered. *)
Definition nextCurrentHook : M (option loc) :=
  let* ch := gets currentHook in
  match ch with
  | None =>
      let* fiber := gets currentlyRenderingFiber in
      let* f := getFiber fiber in
      match Fiber.alternate f with
      | Some _ =>
          let* current := getFiber (Fiber.alternate f) in
          ret (Fiber.memoizedState current)
      | None => ret None
      end
  | Some _ =>
      let* h := getHook ch in
      ret (Hook.next h)
  end.

(** The work-in-progress hook of that position, when an earlier pass of
    this render built one. *)
Definition nextWorkInProgressHook : M (option loc) :=
  let* wip := gets workInProgressHook in
  match wip with
  | None =>
      let* fiber := gets currentlyRenderingFiber in
      let* f := getFiber fiber in
      ret (Fiber.memoizedState f)
  | Some _ =>
      let* h := getHook wip in
      ret (Hook.next h)
  end.

Definition updateWorkInProgressHook : M loc :=
  let* nextCurrent := nextCurrentHook in
  let* nextWorkInProgress := nextWorkInProgressHook in
  match nextWorkInProgress with
  | Some w =>
      (* There's already a work-in-progress. Reuse it. *)
      let* _ := modify (set_workInProgressHook nextWorkInProgress) in
      let* _ := getHook nextWorkInProgress in
      let* _ := modify (set_currentHook nextCurrent) in
      ret w
  | None =>
      (* Clone from the current hook. *)
      let* _ := invariant (bool_decide (nextCurrent <> None)) msgRenderedMoreHooks in
      let* _ := modify (set_currentHook nextCurrent) in
      let* c := getHook nextCurrent in
      let* hook := newHook (Hook.mk (Hook.memoizedState c) (Hook.baseState c)
                              (Hook.baseQueue c) (Hook.queue c) None) in
      let* wip := gets workInProgressHook in
      let* _ :=
        match wip with
        | None =>
            (* This is the first hook in the list. *)
            let* _ := modify (set_workInProgressHook (Some hook)) in
            let* fiber := gets currentlyRenderingFiber in
            setFiber fiber (Fiber.set_memoizedState (Some hook))
        | Some _ =>
            (* Append to the end of the list. *)
            let* _ := setHook wip (Hook.set_next (Some hook)) in
            modify (set_workInProgressHook (Some hook))
        end in
      ret hook
  end.

(** *** Update queue *)

(** [basicStateReducer]: an action that is a function is an updater. *)
Definition basicStateReducer (state action : Val) : M Val :=
  match action with
  | VFun f => callUser f [state]
  | _ => ret action
  end.

Definition mountReducer (reducer : fnref) (initialArg : Val)
    (init : option fnref)
  : M (Val * option (option loc * loc)) :=
  let* hook := mountWorkInProgressHook in
  let* initialState :=
    match init with
    | Some i => callUser i [initialArg]
    | None => ret initialArg
    end in
  let* _ := setHook (Some hook) (fun h =>
    Hook.set_memoizedState initialState (Hook.set_baseState initialState h)) in
  let* queue := newQueue (UpdateQueue.mk None None (Some reducer) initialState) in
  let* _ := setHook (Some hook) (Hook.set_queue (Some queue)) in
  let* fiber := gets currentlyRenderingFiber in
  let dispatch := Some (fiber, queue) in
  let* _ := setQueue (Some queue) (UpdateQueue.set_dispatch dispatch) in
  let* h := getHook (Some hook) in
  ret (Hook.memoizedState h, dispatch).

(** The variables of the walk of [updateReducer] over the combined queue. *)
Record Walk : Type := mkWalk {
  newState : Val;
  newBaseState : Val;
  newBaseQueueFirst : option loc;
  newBaseQueueLast : option loc;
}.

(** Appending [clone] to the new base queue; [stateBefore] becomes the new
    base state when the clone is the first one. *)
Definition appendClone (clone : Update.t) (w : Walk) : M Walk :=
  let* c := newUpdate clone in
  match newBaseQueueLast w with
  | None => ret (mkWalk (newState w) (newState w) (Some c) (Some c))
  | Some _ =>
      let* _ := setUpdate (newBaseQueueLast w) (Update.set_next (Some c)) in
      ret (mkWalk (newState w) (newBaseState w) (newBaseQueueFirst w) (Some c))
  end.

(** One turn of the [do ... while] of [updateReducer]. *)
Definition updateReducer_step (reducer : fnref) (update : option loc) (w : Walk)
  : M Walk :=
  let* u := getUpdate update in
  let updateLane := Update.lane u in
  let* lanes := gets renderLanes in
  if negb (isSubsetOfLanes lanes updateLane) then
    (* Priority is insufficient. Skip this update. *)
    let* w := appendClone (Update.mk updateLane (Update.action u)
                (Update.eagerReducer u) (Update.eagerState u) None) w in
    let* fiber := gets currentlyRenderingFiber in
    let* _ := setFiber fiber (fun f =>
      Fiber.set_lanes (mergeLanes (Fiber.lanes f) updateLane) f) in
    let* _ := markSkippedUpdateLanes updateLane in
    ret w
  else
    (* This update does have sufficient priority. *)
    let* w :=
      match newBaseQueueLast w with
      | Some _ =>
          appendClone (Update.mk NoLane (Update.action u)
            (Update.eagerReducer u) (Update.eagerState u) None) w
      | None => ret w
      end in
    (* Process this update. *)
    if bool_decide (Update.eagerReducer u = Some reducer) then
      ret (mkWalk (Update.eagerState u) (newBaseState w)
             (newBaseQueueFirst w) (newBaseQueueLast w))
    else
      let* s := callUser reducer [newState w; Update.action u] in
      ret (mkWalk s (newBaseState w) (newBaseQueueFirst w) (newBaseQueueLast w)).

Fixpoint updateReducer_loop (fuel : nat) (reducer : fnref)
    (first update : option loc) (w : Walk) : M Walk :=
  match fuel with
  | O => outOfFuel
  | S fuel' =>
      let* w := updateReducer_step reducer update w in
      let* u := getUpdate update in
      let update := Update.next u in
      if bool_decide (update <> None) && bool_decide (update <> first)
      then updateReducer_loop fuel' reducer first update w
      else ret w
  end.

Definition updateReducer (fuel : nat) (reducer : fnref)
    (initialArg : Val) (init : option fnref)
  : M (Val * option (option loc * loc)) :=
  let* hook := updateWorkInProgressHook in
  let* h := getHook (Some hook) in
  let queue := Hook.queue h in
  let* _ := invariant (bool_decide (queue <> None)) msgShouldHaveQueue in
  let* _ := setQueue queue (UpdateQueue.set_lastRenderedReducer (Some reducer)) in
  let* current := gets currentHook in
  (* The last rebase update that is NOT part of the base state. *)
  let* c := getHook current in
  let baseQueue := Hook.baseQueue c in
  (* The last pending update that hasn't been processed yet. *)
  let* q := getQueue queue in
  let pendingQueue := UpdateQueue.pending q in
  let* baseQueue :=
    match pendingQueue with
    | Some _ =>
        let* _ :=
          match baseQueue with
          | Some _ =>
              (* Merge the pending queue and the base queue. *)
              let* b := getUpdate baseQueue in
              let baseFirst := Update.next b in
              let* p := getUpdate pendingQueue in
              let pendingFirst := Update.next p in
              let* _ := setUpdate baseQueue (Update.set_next pendingFirst) in
              setUpdate pendingQueue (Update.set_next baseFirst)
          | None => ret tt
          end in
        let* _ := setHook current (Hook.set_baseQueue pendingQueue) in
        let* _ := setQueue queue (UpdateQueue.set_pending None) in
        ret pendingQueue
    | None => ret baseQueue
    end in
  let* _ :=
    match baseQueue with
    | Some _ =>
        (* We have a queue to process. *)
        let* b := getUpdate baseQueue in
        let first := Update.next b in
        let* c := getHook current in
        let* w := updateReducer_loop fuel reducer first first
                    (mkWalk (Hook.baseState c) VNull None None) in
        let* newBase :=
          match newBaseQueueLast w with
          | None => ret (newState w)
          | Some _ =>
              let* _ := setUpdate (newBaseQueueLast w)
                          (Update.set_next (newBaseQueueFirst w)) in
              ret (newBaseState w)
          end in
        (* Mark that the fiber performed work, but only if the new state is
           different from the current state. *)
        let* h := getHook (Some hook) in
        let* _ :=
          if negb (objectIs (newState w) (Hook.memoizedState h))
          then markWorkInProgressReceivedUpdate
          else ret tt in
        let* _ := setHook (Some hook) (fun h =>
          Hook.set_baseQueue (newBaseQueueLast w)
            (Hook.set_baseState newBase
               (Hook.set_memoizedState (newState w) h))) in
        setQueue queue (UpdateQueue.set_lastRenderedState (newState w))
    | None => ret tt
    end in
  let* q := getQueue queue in
  let* h := getHook (Some hook) in
  ret (Hook.memoizedState h, UpdateQueue.dispatch q).

Fixpoint rerenderReducer_loop (fuel : nat) (reducer : fnref)
    (firstRenderPhaseUpdate update : option loc) (newState : Val) : M Val :=
  match fuel with
  | O => outOfFuel
  | S fuel' =>
      (* Process this render phase update. We don't have to check the
         priority because it will always be the same as the current
         render's. *)
      let* u := getUpdate update in
      let* newState := callUser reducer [newState; Update.action u] in
      let update := Update.next u in
      if bool_decide (update <> firstRenderPhaseUpdate)
      then rerenderReducer_loop fuel' reducer firstRenderPhaseUpdate update newState
      else ret newState
  end.

Definition rerenderReducer (fuel : nat) (reducer : fnref)
    (initialArg : Val) (init : option fnref)
  : M (Val * option (option loc * loc)) :=
  let* hook := updateWorkInProgressHook in
  let* h := getHook (Some hook) in
  let queue := Hook.queue h in
  let* _ := invariant (bool_decide (queue <> None)) msgShouldHaveQueue in
  let* _ := setQueue queue (UpdateQueue.set_lastRenderedReducer (Some reducer)) in
  (* This is a re-render. Apply the new render phase updates to the previous
     work-in-progress hook. *)
  let* q := getQueue queue in
  let dispatch := UpdateQueue.dispatch q in
  let lastRenderPhaseUpdate := UpdateQueue.pending q in
  let* h := getHook (Some hook) in
  let newState := Hook.memoizedState h in
  match lastRenderPhaseUpdate with
  | Some _ =>
      (* The queue doesn't persist past this render pass. *)
      let* _ := setQueue queue (UpdateQueue.set_pending None) in
      let* l := getUpdate lastRenderPhaseUpdate in
      let firstRenderPhaseUpdate := Update.next l in
      let* newState := rerenderReducer_loop fuel reducer firstRenderPhaseUpdate
                         firstRenderPhaseUpdate newState in
      let* h := getHook (Some hook) in
      let* _ :=
        if negb (objectIs newState (Hook.memoizedState h))
        then markWorkInProgressReceivedUpdate
        else ret tt in
      let* _ := setHook (Some hook) (Hook.set_memoizedState newState) in
      (* Don't persist the state accumulated from the render phase updates to
         the base state unless the queue is empty. *)
      let* h := getHook (Some hook) in
      let* _ :=
        match Hook.baseQueue h with
        | None => setHook (Some hook) (Hook.set_baseState newState)
        | Some _ => ret tt
        end in
      let* _ := setQueue queue (UpdateQueue.set_lastRenderedState newState) in
      ret (newState, dispatch)
  | None => ret (newState, dispatch)
  end.

(** [requestEventTime()] and [requestUpdateLane(fiber)] belong to the work
    loop; what they answered is passed in as [eventTime] and [lane]. *)
Definition dispatchAction (eventTime : N) (lane : Lane)
    (fiber queue : loc) (action : Val) : M unit :=
  let* update := newUpdate (Update.mk lane action None VNull None) in
  (* Append the update to the end of the list. *)
  let* q := getQueue (Some queue) in
  let pending := UpdateQueue.pending q in
  let* _ :=
    match pending with
    | None =>
        (* This is the first update. Create a circular list. *)
        setUpdate (Some update) (Update.set_next (Some update))
    | Some _ =>
        let* p := getUpdate pending in
        let* _ := setUpdate (Some update) (Update.set_next (Update.next p)) in
        setUpdate pending (Update.set_next (Some update))
    end in
  let* _ := setQueue (Some queue) (UpdateQueue.set_pending (Some update)) in
  let* f := getFiber (Some fiber) in
  let alternate := Fiber.alternate f in
  let* rendering := gets currentlyRenderingFiber in
  if bool_decide (Some fiber = rendering)
     || (bool_decide (alternate <> None) && bool_decide (alternate = rendering))
  then
    (* This is a render phase update. *)
    modify (fun st =>
      set_didScheduleRenderPhaseUpdateDuringThisPass true
        (set_didScheduleRenderPhaseUpdate true st))
  else
    let* f := getFiber (Some fiber) in
    let* drained :=
      if N.eqb (Fiber.lanes f) NoLanes then
        match alternate with
        | None => ret true
        | Some _ =>
            let* a := getFiber alternate in
            ret (N.eqb (Fiber.lanes a) NoLanes)
        end
      else ret false in
    let* bailout :=
      if (drained : bool) then
        (* The queue is currently empty, which means we can eagerly compute
           the next state before entering the render phase. *)
        let* q := getQueue (Some queue) in
        match UpdateQueue.lastRenderedReducer q with
        | Some lastRenderedReducer =>
            let currentState := UpdateQueue.lastRenderedState q in
            match call lastRenderedReducer [currentState; action] with
            | Some eagerState =>
                (* Stash the eagerly computed state, and the reducer used to
                   compute it, on the update object. *)
                let* _ := setUpdate (Some update)
                            (Update.set_eager (Some lastRenderedReducer) eagerState) in
                (* Fast path. We can bail out without scheduling React to
                   re-render. *)
                ret (objectIs eagerState currentState)
            | None =>
                (* Suppress the error. It will throw again in the render
                   phase. *)
                ret false
            end
        | None => ret false
        end
      else ret false in
    if (bailout : bool) then ret tt
    else scheduleUpdateOnFiber fiber lane eventTime.

(** *** Effect list *)

(** The [for] loop of [areHookInputsEqual], over the positions that both
    arrays have. *)
Fixpoint areHookInputsEqual_loop (nextDeps prevDeps : list Val) : bool :=
  match nextDeps, prevDeps with
  | n :: nextDeps, p :: prevDeps =>
      if objectIs n p then areHookInputsEqual_loop nextDeps prevDeps else false
  | _, _ => true
  end.

Definition areHookInputsEqual (nextDeps : list Val)
    (prevDeps : option (list Val)) : bool :=
  match prevDeps with
  | None => false
  | Some prevDeps => areHookInputsEqual_loop nextDeps prevDeps
  end.

Definition createFunctionComponentUpdateQueue : FunctionComponentUpdateQueue.t :=
  FunctionComponentUpdateQueue.mk None.

Definition pushEffect (tag : N) (create destroy : Val)
    (deps : option (list Val)) : M loc :=
  let* effect := newEffect (Effect.mk tag create destroy deps None) in
  let* fiber := gets currentlyRenderingFiber in
  let* f := getFiber fiber in
  let* _ :=
    match Fiber.updateQueue f with
    | None =>
        let* componentUpdateQueue :=
          newComponentUpdateQueue createFunctionComponentUpdateQueue in
        let* _ := setFiber fiber (Fiber.set_updateQueue (Some componentUpdateQueue)) in
        let* _ := setEffect (Some effect) (Effect.set_next (Some effect)) in
        setComponentUpdateQueue (Some componentUpdateQueue)
          (fun _ => FunctionComponentUpdateQueue.mk (Some effect))
    | Some _ =>
        let* cq := getComponentUpdateQueue (Fiber.updateQueue f) in
        let lastEffect := FunctionComponentUpdateQueue.lastEffect cq in
        match lastEffect with
        | None =>
            let* _ := setEffect (Some effect) (Effect.set_next (Some effect)) in
            setComponentUpdateQueue (Fiber.updateQueue f)
              (fun _ => FunctionComponentUpdateQueue.mk (Some effect))
        | Some _ =>
            let* l := getEffect lastEffect in
            let firstEffect := Effect.next l in
            let* _ := setEffect lastEffect (Effect.set_next (Some effect)) in
            let* _ := setEffect (Some effect) (Effect.set_next firstEffect) in
            setComponentUpdateQueue (Fiber.updateQueue f)
              (fun _ => FunctionComponentUpdateQueue.mk (Some effect))
        end
    end in
  ret effect.

(** [deps] is [None] for both [undefined] and [null], which
    [deps === undefined ? null : deps] identifies. *)
Definition mountEffectImpl (fiberFlags hookFlags : N) (create : Val)
    (deps : option (list Val)) : M unit :=
  let* hook := mountWorkInProgressHook in
  let nextDeps := deps in
  let* fiber := gets currentlyRenderingFiber in
  let* _ := setFiber fiber (fun f => Fiber.set_flags (N.lor (Fiber.flags f) fiberFlags) f) in
  let* effect := pushEffect (N.lor HookHasEffect hookFlags) create VUndefined nextDeps in
  setHook (Some hook) (Hook.set_memoizedState (VObj effect)).

Definition updateEffectImpl (fiberFlags hookFlags : N) (create : Val)
    (deps : option (list Val)) : M unit :=
  let* hook := updateWorkInProgressHook in
  let nextDeps := deps in
  let* current := gets currentHook in
  let* '(skip, destroy) :=
    match current with
    | Some _ =>
        let* c := getHook current in
        let* prevEffect := getEffect (effectOf (Hook.memoizedState c)) in
        let destroy := Effect.destroy prevEffect in
        match nextDeps with
        | Some nextDeps' =>
            let prevDeps := Effect.deps prevEffect in
            if areHookInputsEqual nextDeps' prevDeps then
              let* _ := pushEffect hookFlags create destroy nextDeps in
              ret (true, destroy)
            else ret (false, destroy)
        | None => ret (false, destroy)
        end
    | None => ret (false, VUndefined)
    end in
  if (skip : bool) then ret tt
  else
    let* fiber := gets currentlyRenderingFiber in
    let* _ := setFiber fiber (fun f => Fiber.set_flags (N.lor (Fiber.flags f) fiberFlags) f) in
    let* effect := pushEffect (N.lor HookHasEffect hookFlags) create destroy nextDeps in
    setHook (Some hook) (Hook.set_memoizedState (VObj effect)).

(** *** Mutable source reader *)

Definition readFromUnsubcribedMutableSource (root source : loc)
    (getSnapshot : fnref) : M Val :=
  let* s := getSource (Some source) in
  let getVersion := MutableSource._getVersion s in
  let* version := callUser getVersion [MutableSource._source s] in
  (* Check the version first. *)
  let* currentRenderVersion := getWorkInProgressVersion source in
  let* isSafeToReadFromSource :=
    if negb (strictEquals currentRenderVersion VNull) then
      (* It's safe to read if the store hasn't been mutated since the last
         time we read something. *)
      ret (strictEquals currentRenderVersion version)
    else
      let* lanes := gets renderLanes in
      let* r := getRoot (Some root) in
      let safe := isSubsetOfLanes lanes (FiberRoot.mutableReadLanes r) in
      let* _ :=
        if safe then setWorkInProgressVersion source version else ret tt in
      ret safe in
  if (isSafeToReadFromSource : bool) then
    let* s := getSource (Some source) in
    callUser getSnapshot [MutableSource._source s]
  else
    let* _ := markSourceAsDirty source in
    throw (Invariant msgTearing).

(** *** Dispatcher table *)

(** The [useReducer] entry of the table in [ReactCurrentDispatcher.current]. *)
Definition useReducer (fuel : nat) (reducer : fnref) (initialArg : Val)
    (init : option fnref) : M (Val * option (option loc * loc)) :=
  let* dispatcher := gets currentDispatcher in
  match dispatcher with
  | ContextOnlyDispatcher => throwInvalidHookError
  | HooksDispatcherOnMount => mountReducer reducer initialArg init
  | HooksDispatcherOnUpdate => updateReducer fuel reducer initialArg init
  | HooksDispatcherOnRerender => rerenderReducer fuel reducer initialArg init
  end.

(** *** Render-phase loop *)

(** The [do ... while] of [renderWithHooks]. *)
Fixpoint renderWithHooks_loop (fuel : nat) (numberOfReRenders : nat)
    (workInProgress : loc) (Component : Val -> Val -> M Val)
    (props secondArg : Val) : M Val :=
  match fuel with
  | O => outOfFuel
  | S fuel' =>
      let* _ := modify (set_didScheduleRenderPhaseUpdateDuringThisPass false) in
      let* _ := invariant (numberOfReRenders <? RE_RENDER_LIMIT)%nat
                  msgTooManyReRenders in
      let numberOfReRenders := (numberOfReRenders + 1)%nat in
      (* Start over from the beginning of the list *)
      let* _ := modify (fun st => set_workInProgressHook None (set_currentHook None st)) in
      let* _ := setFiber (Some workInProgress) (Fiber.set_updateQueue None) in
      let* _ := modify (set_currentDispatcher HooksDispatcherOnRerender) in
      let* children := Component props secondArg in
      let* again := gets didScheduleRenderPhaseUpdateDuringThisPass in
      if (again : bool)
      then renderWithHooks_loop fuel' numberOfReRenders workInProgress
             Component props secondArg
      else ret children
  end.

Definition renderWithHooks (fuel : nat) (current : option loc)
    (workInProgress : loc) (Component : Val -> Val -> M Val)
    (props secondArg : Val) (nextRenderLanes : Lanes) : M Val :=
  let* _ := modify (fun st =>
    set_currentlyRenderingFiber (Some workInProgress)
      (set_renderLanes nextRenderLanes st)) in
  let* _ := setFiber (Some workInProgress) (fun f =>
    Fiber.set_lanes NoLanes
      (Fiber.set_updateQueue None (Fiber.set_memoizedState None f))) in
  let* mounting :=
    match current with
    | None => ret true
    | Some _ =>
        let* c := getFiber current in
        ret (bool_decide (Fiber.memoizedState c = None))
    end in
  let* _ := modify (set_currentDispatcher
    (if (mounting : bool) then HooksDispatcherOnMount else HooksDispatcherOnUpdate)) in
  let* children := Component props secondArg in
  (* Check if there was a render phase update *)
  let* again := gets didScheduleRenderPhaseUpdateDuringThisPass in
  let* children :=
    if (again : bool)
    then renderWithHooks_loop fuel 0 workInProgress Component props secondArg
    else ret children in
  let* _ := modify (set_currentDispatcher ContextOnlyDispatcher) in
  (* didRenderTooFewHooks, which is computed and not used *)
  let* ch := gets currentHook in
  let* _ :=
    match ch with
    | Some _ => let* _ := getHook ch in ret tt
    | None => ret tt
    end in
  let* _ := modify (fun st =>
    set_didScheduleRenderPhaseUpdate false
      (set_workInProgressHook None
         (set_currentHook None
            (set_currentlyRenderingFiber None
               (set_renderLanes NoLanes st))))) in
  ret children.

(** The [while] of [resetHooksAfterThrow] over the hooks of the fiber. *)
Fixpoint resetHooksAfterThrow_loop (fuel : nat) (hook : option loc) : M unit :=
  match hook with
  | None => ret tt
  | Some _ =>
      match fuel with
      | O => outOfFuel
      | S fuel' =>
          let* h := getHook hook in
          let* _ :=
            match Hook.queue h with
            | Some _ => setQueue (Hook.queue h) (UpdateQueue.set_pending None)
            | None => ret tt
            end in
          let* h := getHook hook in
          resetHooksAfterThrow_loop fuel' (Hook.next h)
      end
  end.

Definition resetHooksAfterThrow (fuel : nat) : M unit :=
  let* _ := modify (set_currentDispatcher ContextOnlyDispatcher) in
  let* scheduled := gets didScheduleRenderPhaseUpdate in
  let* _ :=
    if (scheduled : bool) then
      (* There were render phase updates. Remove the updates from the queues
         so they do not persist to the next render. *)
      let* fiber := gets currentlyRenderingFiber in
      let* f := getFiber fiber in
      let* _ := resetHooksAfterThrow_loop fuel (Fiber.memoizedState f) in
      modify (set_didScheduleRenderPhaseUpdate false)
    else ret tt in
  modify (fun st =>
    set_didScheduleRenderPhaseUpdateDuringThisPass false
      (set_workInProgressHook None
         (set_currentHook None
            (set_currentlyRenderingFiber None
               (set_renderLanes NoLanes st))))).

(** ** Well-formed stores *)



(** ** Mutable source reader *)

(** The work-in-progress version recorded for a source, [VNull] when none
    is. *)
Definition recordedVersion (s : MutableSource.t) : Val :=
  if isPrimaryRenderer
  then MutableSource._workInProgressVersionPrimary s
  else MutableSource._workInProgressVersionSecondary s.

Definition recordVersion (version : Val) (s : MutableSource.t) : MutableSource.t :=
  if isPrimaryRenderer
  then MutableSource.mk (MutableSource._getVersion s) (MutableSource._source s)
         version (MutableSource._workInProgressVersionSecondary s)
  else MutableSource.mk (MutableSource._getVersion s) (MutableSource._source s)
         (MutableSource._workInProgressVersionPrimary s) version.

(** The two cases in which a read is safe: (a) a version is recorded and it
    is the current version of the store; (b) no version is recorded and the
    lanes being rendered include the lanes with unflushed mutations. *)
Definition safeToRead (st : State) (s : MutableSource.t) (r : FiberRoot.t)
    (version : Val) : bool :=
  (negb (strictEquals (recordedVersion s) VNull)
     && strictEquals (recordedVersion s) version)
  || (strictEquals (recordedVersion s) VNull
        && isSubsetOfLanes (renderLanes st) (FiberRoot.mutableReadLanes r)).

(** ** Render-phase loop *)

(** The state in which the component function is first called. *)
Definition renderStart (workInProgress : loc) (F : Fiber.t) (mounting : bool)
    (nextRenderLanes : Lanes) (st : State) : State :=
  set_currentDispatcher
    (if mounting then HooksDispatcherOnMount else HooksDispatcherOnUpdate)
    (set_fibers
       (<[workInProgress :=
            Fiber.set_lanes NoLanes
              (Fiber.set_updateQueue None (Fiber.set_memoizedState None F))]>
          (fibers st))
       (set_currentlyRenderingFiber (Some workInProgress)
          (set_renderLanes nextRenderLanes st))).

(** The state in which the component function is called again after a pass
    that scheduled a render-phase update. *)
Definition rerenderStart (workInProgress : loc) (F : Fiber.t) (st : State)
  : State :=
  set_currentDispatcher HooksDispatcherOnRerender
    (set_fibers (<[workInProgress := Fiber.set_updateQueue None F]> (fibers st))
       (set_workInProgressHook None
          (set_currentHook None
             (set_didScheduleRenderPhaseUpdateDuringThisPass false st)))).

(** The state in which [renderWithHooks] returns. *)
Definition renderEnd (st : State) : State :=
  set_didScheduleRenderPhaseUpdate false
    (set_workInProgressHook None
       (set_currentHook None
          (set_currentlyRenderingFiber None
             (set_renderLanes NoLanes
                (set_currentDispatcher ContextOnlyDispatcher st))))).

(** [passes wip C props arg k st v st']: called in state [st], the
    component runs [k + 1] passes, each of the first [k] scheduling a
    render-phase update and being followed by a re-render; the last pass
    returns [v] in state [st']. *)
Inductive passes (workInProgress : loc) (Component : Val -> Val -> M Val)
    (props secondArg : Val) : nat -> State -> Val -> State -> Prop :=
  | passes_one st v st' :
      Component props secondArg st = (Returns v, st') ->
      passes workInProgress Component props secondArg 0 st v st'
  | passes_more k st v1 st1 F v st' :
      Component props secondArg st = (Returns v1, st1) ->
      didScheduleRenderPhaseUpdateDuringThisPass st1 = true ->
      fibers st1 !! workInProgress = Some F ->
      passes workInProgress Component props secondArg k
        (rerenderStart workInProgress F st1) v st' ->
      passes workInProgress Component props secondArg (S k) st v st'.

(** Every pass of the component schedules a render-phase update. *)
Definition alwaysSchedules (workInProgress : loc)
    (Component : Val -> Val -> M Val) (props secondArg : Val) : Prop :=
  forall st, is_Some (fibers st !! workInProgress) ->
    exists v st',
      Component props secondArg st = (Returns v, st')
      /\ didScheduleRenderPhaseUpdateDuringThisPass st' = true
      /\ is_Some (fibers st' !! workInProgress).

(** Whether [renderWithHooks] takes the render for a mount. *)
Definition isMount (st : State) (current : option loc) (mounting : bool) : Prop :=
  match current with
  | None => mounting = true
  | Some c =>
      exists C, fibers st !! c = Some C
        /\ mounting = bool_decide (Fiber.memoizedState C = None)
  end.

(** The hook under the cursor of the committed list, if any, exists. *)
Definition currentHookLive (st : State) : Prop :=
  match currentHook st with
  | Some c => is_Some (hooks st !! c)
  | None => True
  end.

(** ** Update queues as sequences *)

(** [linked us ls tgt]: the updates at [ls] are objects of the store [us],
    each one's [next] is the one after it, and the [next] of the last one is
    [tgt]. *)
Fixpoint linked (us : gmap loc Update.t) (ls : list loc) (tgt : option loc)
  : Prop :=
  match ls with
  | [] => True
  | l :: ls' =>
      (exists u, us !! l = Some u
         /\ Update.next u = match ls' with [] => tgt | l' :: _ => Some l' end)
      /\ linked us ls' tgt
  end.

(** A circular list held by a pointer to its last element: [ls] are its
    elements from the first to the last, without repetition; the list of a
    null pointer is empty. *)
Definition circular (us : gmap loc Update.t) (lastUpdate : option loc)
    (ls : list loc) : Prop :=
  NoDup ls /\ last ls = lastUpdate /\ linked us ls (head ls).

(** What an update carries: the update without its link. *)
Definition payloadAt (us : gmap loc Update.t) (l : loc) : option Update.t :=
  Update.set_next None <$> us !! l.

Definition payloads (us : gmap loc Update.t) (ls : list loc)
    (ps : list Update.t) : Prop :=
  Forall2 (fun l p => payloadAt us l = Some p) ls ps.

(** ** The fold, skip and rebase of the spec *)

(** An update has sufficient priority when its lane is a subset of the lanes
    being rendered. *)
Definition included (lanes : Lanes) (u : Update.t) : bool :=
  isSubsetOfLanes lanes (Update.lane u).

(** Applying an update: the cached eager state if the eager reducer still
    is the active reducer, else the reducer is invoked. *)
Definition applyUpdate (reducer : fnref) (s : Val) (u : Update.t) : option Val :=
  if bool_decide (Update.eagerReducer u = Some reducer)
  then Some (Update.eagerState u)
  else call reducer [s; Update.action u].

(** The left fold of the reducer over actions, [None] when it throws. *)
Fixpoint foldReducer (reducer : fnref) (s : Val) (actions : list Val)
  : option Val :=
  match actions with
  | [] => Some s
  | a :: actions => s' ← call reducer [s; a]; foldReducer reducer s' actions
  end.

(** Applying the updates of a list in order. *)
Fixpoint process (reducer : fnref) (s : Val) (us : list Update.t) : option Val :=
  match us with
  | [] => Some s
  | u :: us => s' ← applyUpdate reducer s u; process reducer s' us
  end.

Definition cloneOf (lane : Lane) (u : Update.t) : Update.t :=
  Update.mk lane (Update.action u) (Update.eagerReducer u) (Update.eagerState u) None.

(** The clone that goes to the new base queue: a skipped update keeps its
    lane, an applied one gets [NoLane]. *)
Definition rebaseClone (lanes : Lanes) (u : Update.t) : Update.t :=
  cloneOf (if included lanes u then NoLane else Update.lane u) u.

(** Step 2 of the algorithm for one update, on the accumulated state, the
    new base state and the new base queue so far. *)
Definition rebaseStep (reducer : fnref) (lanes : Lanes)
    (acc : Val * Val * list Update.t) (u : Update.t)
  : option (Val * Val * list Update.t) :=
  let '(s, b, clones) := acc in
  if negb (included lanes u) then
    Some (s, match clones with [] => s | _ => b end,
          clones ++ [cloneOf (Update.lane u) u])
  else
    s' ← applyUpdate reducer s u;
    Some (s', b, match clones with [] => [] | _ => clones ++ [cloneOf NoLane u] end).

Fixpoint rebase (reducer : fnref) (lanes : Lanes)
    (acc : Val * Val * list Update.t) (us : list Update.t)
  : option (Val * Val * list Update.t) :=
  match us with
  | [] => Some acc
  | u :: us => acc' ← rebaseStep reducer lanes acc u; rebase reducer lanes acc' us
  end.

(** The updates up to the first skipped one, and from it on. *)
Fixpoint beforeSkip (lanes : Lanes) (us : list Update.t) : list Update.t :=
  match us with
  | [] => []
  | u :: us => if included lanes u then u :: beforeSkip lanes us else []
  end.

Fixpoint fromSkip (lanes : Lanes) (us : list Update.t) : list Update.t :=
  match us with
  | [] => []
  | u :: us' => if included lanes u then fromSkip lanes us' else us
  end.

(** ** The walk of [updateReducer] over the store *)

(** The new base queue under construction: [cls] are the clones appended so
    far, linked in order with a null link at the end; they carry [cl]. *)
Definition newBaseQueue (us : gmap loc Update.t) (w : Walk) (cls : list loc)
    (cl : list Update.t) : Prop :=
  NoDup cls
  /\ newBaseQueueFirst w = head cls
  /\ newBaseQueueLast w = last cls
  /\ linked us cls None
  /\ payloads us cls cl.

(** What the walk has done to the state [st0] it started in when it is in
    state [st]: the clones [cls] are new objects, no other update has been
    written to, and the lanes of the fiber [f] being rendered are [lanes];
    the work loop has been told about skipped lanes. *)
Definition walkFrame (st0 st : State) (f : loc) (F0 : Fiber.t)
    (cls : list loc) (lanes : Lanes) : Prop :=
  (exists us' sk,
      st = set_skippedLanes sk
             (set_fibers (<[f := Fiber.set_lanes lanes F0]> (fibers st0))
                (set_updates us' st0)))
  /\ (forall l, l ∈ cls -> updates st0 !! l = None)
  /\ (forall l, l ∉ cls -> updates st !! l = updates st0 !! l).

(** The lanes of the skipped updates, merged into [lanes]. *)
Fixpoint skipLanes (renderLanes : Lanes) (lanes : Lanes) (us : list Update.t)
  : Lanes :=
  match us with
  | [] => lanes
  | u :: us =>
      skipLanes renderLanes
        (if included renderLanes u then lanes else mergeLanes lanes (Update.lane u))
        us
  end.

(** ** Enqueueing *)

(** The store of updates after [update], a new object, has been appended to
    the circular list that [pending] holds. *)
Definition enqueued (us : gmap loc Update.t) (pending : option loc)
    (update : Update.t) : gmap loc Update.t :=
  let c := freshLoc us in
  match pending with
  | None => <[c := Update.set_next (Some c) update]> (<[c := update]> us)
  | Some p =>
      match us !! p with
      | Some lastUpdate =>
          <[p := Update.set_next (Some c) lastUpdate]>
            (<[c := Update.set_next (Update.next lastUpdate) update]>
               (<[c := update]> us))
      | None => us
      end
  end.

(** Whether a dispatch to [fiber] is a render-phase update. *)
Definition isRenderPhaseUpdate (st : State) (fiber : loc) (F : Fiber.t) : bool :=
  bool_decide (Some fiber = currentlyRenderingFiber st)
  || (bool_decide (Fiber.alternate F <> None)
        && bool_decide (Fiber.alternate F = currentlyRenderingFiber st)).

(** Whether neither the fiber nor its alternate has pending lanes. *)
Definition noPendingLanes (st : State) (F : Fiber.t) : Prop :=
  Fiber.lanes F = NoLanes
  /\ match Fiber.alternate F with
     | None => True
     | Some a => exists A, fibers st !! a = Some A /\ Fiber.lanes A = NoLanes
     end.

(** The fibers after an update at [lane] has been scheduled on [fiber]. *)
Definition markedFibers (fs : gmap loc Fiber.t) (fiber : loc) (F : Fiber.t)
    (lane : Lane) : gmap loc Fiber.t :=
  let fs1 := <[fiber := Fiber.set_lanes (mergeLanes (Fiber.lanes F) lane) F]> fs in
  match Fiber.alternate F with
  | Some a =>
      match fs1 !! a with
      | Some A => <[a := Fiber.set_lanes (mergeLanes (Fiber.lanes A) lane) A]> fs1
      | None => fs1
      end
  | None => fs1
  end.

(** The state after [scheduleUpdateOnFiber]. *)
Definition scheduledState (fiber : loc) (F : Fiber.t) (lane : Lane)
    (eventTime : N) (st : State) : State :=
  set_fibers (markedFibers (fibers st) fiber F lane)
    (set_scheduledUpdates (scheduledUpdates st ++ [(fiber, lane, eventTime)]) st).

(** The state after the update has been appended to the queue. *)
Definition enqueuedState (queue : loc) (Q : UpdateQueue.t) (lane : Lane)
    (action : Val) (st : State) : State :=
  set_queues
    (<[queue := UpdateQueue.set_pending (Some (freshLoc (updates st))) Q]> (queues st))
    (set_updates
       (enqueued (updates st) (UpdateQueue.pending Q)
          (Update.mk lane action None VNull None)) st).

(** The alternate of a fiber, when it has one, is a fiber of the store. *)
Definition alternateLive (st : State) (F : Fiber.t) : Prop :=
  match Fiber.alternate F with
  | Some a => is_Some (fibers st !! a)
  | None => True
  end.

(** Whether the eager path is open: no pending lanes on the fiber or on its
    alternate. *)
Definition drained (st : State) (F : Fiber.t) : bool :=
  N.eqb (Fiber.lanes F) NoLanes
  && match Fiber.alternate F with
     | None => true
     | Some a =>
         match fibers st !! a with
         | Some A => N.eqb (Fiber.lanes A) NoLanes
         | None => false
         end
     end.

(** The state in which a dispatch from outside of the render leaves the
    engine. *)
Definition dispatchedState (eventTime : N) (lane : Lane) (fiber queue : loc)
    (action : Val) (Q : UpdateQueue.t) (F : Fiber.t) (st : State) : State :=
  let st1 := enqueuedState queue Q lane action st in
  let c := freshLoc (updates st) in
  match (if drained st F then UpdateQueue.lastRenderedReducer Q else None) with
  | Some r =>
      match call r [UpdateQueue.lastRenderedState Q; action] with
      | Some e =>
          let st2 :=
            set_updates
              (alter (Update.set_eager (Some r) e) c (updates st1)) st1 in
          if objectIs e (UpdateQueue.lastRenderedState Q) then st2
          else scheduledState fiber F lane eventTime st2
      | None => scheduledState fiber F lane eventTime st1
      end
  | None => scheduledState fiber F lane eventTime st1
  end.

(** ** Hook lists *)

(** [hookChain hs head ls]: the hooks at [ls] are objects of the store [hs],
    linked by [next] from [head] to a null link. *)
Fixpoint hookChain (hs : gmap loc Hook.t) (head : option loc) (ls : list loc)
  : Prop :=
  match ls with
  | [] => head = None
  | l :: ls' =>
      head = Some l
      /\ exists h, hs !! l = Some h /\ hookChain hs (Hook.next h) ls'
  end.

(** Every hook of [ls] that has a queue has it in the store. *)
Definition queuesLive (st : State) (ls : list loc) : Prop :=
  forall l h q, l ∈ ls -> hooks st !! l = Some h -> Hook.queue h = Some q ->
    is_Some (queues st !! q).

(** ** The state of [updateReducer] before its walk *)

(** The store of updates after the pending queue has been spliced onto the
    base queue. *)
Definition mergedUpdates (us : gmap loc Update.t) (baseQueue pending : option loc)
  : gmap loc Update.t :=
  match baseQueue, pending with
  | Some b, Some p =>
      match us !! b, us !! p with
      | Some ub, Some up =>
          <[p := Update.set_next (Update.next ub) up]>
            (<[b := Update.set_next (Update.next up) ub]> us)
      | _, _ => us
      end
  | _, _ => us
  end.

(** The base queue that the walk starts from. *)
Definition mergedQueue (baseQueue pending : option loc) : option loc :=
  match pending with
  | Some _ => pending
  | None => baseQueue
  end.

(** The state in which the walk starts: the pending updates have been moved
    to the base queue of the committed hook [c], the pending list of the
    queue [q] is empty and its reducer is the one of this render. *)
Definition mergedState (reducer : fnref) (c : loc) (hc : Hook.t) (q : loc)
    (Q : UpdateQueue.t) (st : State) : State :=
  set_queues
    (<[q := UpdateQueue.mk None (UpdateQueue.dispatch Q) (Some reducer)
              (UpdateQueue.lastRenderedState Q)]> (queues st))
    (set_hooks
       (<[c := Hook.set_baseQueue
                 (mergedQueue (Hook.baseQueue hc) (UpdateQueue.pending Q)) hc]>
          (hooks st))
       (set_updates
          (mergedUpdates (updates st) (Hook.baseQueue hc) (UpdateQueue.pending Q))
          st)).

(** ** A reducer cell through dispatches and render attempts *)

(** A component with one reducer cell, which renders the state of the
    cell. *)
Definition reducerComponent (fuel : nat) (reducer : fnref)
    (props secondArg : Val) : M Val :=
  let* r := useReducer fuel reducer props None in
  ret (fst r).

(** What happens to the component from the outside: an update is dispatched,
    with the time and the lane that the work loop answers, through either one
    of its two fibers; or the component is rendered at some lanes, with the
    reducer it then has, and the work in progress is not committed. *)
Inductive Event : Type :=
  | Dispatch (eventTime : N) (lane : Lane) (fiber : loc) (action : Val)
  | Render (lanes : Lanes) (reducer : fnref).

Definition runEvent (fuel : nat) (current workInProgress queue : loc)
    (e : Event) : M unit :=
  match e with
  | Dispatch eventTime lane fiber action =>
      dispatchAction eventTime lane fiber queue action
  | Render lanes reducer =>
      let* _ := renderWithHooks fuel (Some current) workInProgress
                  (reducerComponent fuel reducer) VUndefined VUndefined lanes in
      ret tt
  end.

Fixpoint runEvents (fuel : nat) (current workInProgress queue : loc)
    (es : list Event) : M unit :=
  match es with
  | [] => ret tt
  | e :: es =>
      let* _ := runEvent fuel current workInProgress queue e in
      runEvents fuel current workInProgress queue es
  end.

(** The lanes and actions of the updates dispatched by a history, in
    order. *)
Fixpoint dispatchesOf (es : list Event) : list (Lane * Val) :=
  match es with
  | [] => []
  | Dispatch _ lane _ action :: es => (lane, action) :: dispatchesOf es
  | Render _ _ :: es => dispatchesOf es
  end.

(** A dispatch of the history goes through one of the two fibers of the
    component, at a lane that is a lane ([requestUpdateLane] never answers
    [NoLane]) and that is included in [lanes]. *)
Definition eventOk (current workInProgress : loc) (lanes : Lanes) (e : Event)
  : Prop :=
  match e with
  | Dispatch _ lane fiber _ =>
      lane <> NoLane
      /\ isSubsetOfLanes lanes lane = true
      /\ (fiber = current \/ fiber = workInProgress)
  | Render _ _ => True
  end.

(** The component is mounted and idle: its committed hook list starts with
    the reducer cell [c], whose state is [s0] and whose queue [q] is
    empty; nothing is being rendered. *)
Definition idleCell (st : State) (current workInProgress c q : loc) (s0 : Val)
  : Prop :=
  exists FC FW hc Q,
    current <> workInProgress
    /\ fibers st !! current = Some FC
    /\ Fiber.alternate FC = Some workInProgress
    /\ Fiber.memoizedState FC = Some c
    /\ fibers st !! workInProgress = Some FW
    /\ Fiber.alternate FW = Some current
    /\ hooks st !! c = Some hc
    /\ Hook.memoizedState hc = s0
    /\ Hook.baseState hc = s0
    /\ Hook.baseQueue hc = None
    /\ Hook.queue hc = Some q
    /\ queues st !! q = Some Q
    /\ UpdateQueue.pending Q = None
    /\ UpdateQueue.lastRenderedState Q = s0
    /\ currentlyRenderingFiber st = None
    /\ currentHook st = None
    /\ workInProgressHook st = None
    /\ didScheduleRenderPhaseUpdateDuringThisPass st = false.

(** The eager state of an update is the state that its eager reducer gives
    after the updates before it. *)
Definition eagerConsistent (s0 : Val) (ps : list Update.t) : Prop :=
  forall pre u post f x,
    ps = pre ++ u :: post ->
    Update.eagerReducer u = Some f ->
    foldReducer f s0 (map Update.action pre) = Some x ->
    call f [x; Update.action u] = Some (Update.eagerState u).

(** The cell between events: the committed hook [c] has base state and
    state [s0], its base queue followed by the pending queue holds the
    updates dispatched so far, which carry [ps], and nothing is being
    rendered. *)
Definition cellInv (current workInProgress c q : loc) (s0 : Val)
    (ps : list Update.t) (st : State) : Prop :=
  exists FC FW hc Q B P,
    current <> workInProgress
    /\ fibers st !! current = Some FC
    /\ Fiber.alternate FC = Some workInProgress
    /\ Fiber.memoizedState FC = Some c
    /\ fibers st !! workInProgress = Some FW
    /\ Fiber.alternate FW = Some current
    /\ hooks st !! c = Some hc
    /\ Hook.memoizedState hc = s0
    /\ Hook.baseState hc = s0
    /\ Hook.queue hc = Some q
    /\ queues st !! q = Some Q
    /\ circular (updates st) (Hook.baseQueue hc) B
    /\ circular (updates st) (UpdateQueue.pending Q) P
    /\ NoDup (B ++ P)
    /\ payloads (updates st) (B ++ P) ps
    /\ eagerConsistent s0 ps
    /\ (Fiber.lanes FC = NoLanes -> Fiber.lanes FW = NoLanes ->
        forall f x, UpdateQueue.lastRenderedReducer Q = Some f ->
          foldReducer f s0 (map Update.action ps) = Some x ->
          x = UpdateQueue.lastRenderedState Q)
    /\ (ps = [] -> UpdateQueue.lastRenderedState Q = s0)
    /\ currentlyRenderingFiber st = None
    /\ currentHook st = None
    /\ workInProgressHook st = None
    /\ didScheduleRenderPhaseUpdateDuringThisPass st = false.

(** ** A sample component

    Two fibers, [1] the committed one and [2] its alternate.  The hook [1]
    of the committed fiber is a reducer cell with state 0 and the queue [1].
    The functions of the user: [1] is a reducer that adds the action to the
    state, [2] a reducer that throws, [3] the [getVersion] of a store at
    version 7 and [4] its [getSnapshot]. *)
Definition sampleCall (f : fnref) (args : list Val) : option Val :=
  match f, args with
  | 1%positive, [VNum s; VNum a] => Some (VNum (s + a))
  | 3%positive, _ => Some (VNum 7)
  | 4%positive, _ => Some (VStr "snapshot")
  | _, _ => None
  end.

Definition sampleCurrent : Fiber.t := Fiber.mk (Some 1%positive) None 0 0 (Some 2%positive).

Definition sampleAlternate : Fiber.t := Fiber.mk None None 0 0 (Some 1%positive).

Definition sampleHook : Hook.t := Hook.mk (VNum 0) (VNum 0) None (Some 1%positive) None.

Definition sampleQueue (pending : option loc) (reducer : fnref) : UpdateQueue.t :=
  UpdateQueue.mk pending (Some (Some 1%positive, 1%positive)) (Some reducer) (VNum 0).

(** The component at rest, with [reducer] as its last rendered reducer. *)
Definition sampleIdle (reducer : fnref) : State :=
  mkState ∅ (<[1%positive := sampleQueue None reducer]> ∅)
    (<[1%positive := sampleHook]> ∅) ∅ ∅
    (<[1%positive := sampleCurrent]> (<[2%positive := sampleAlternate]> ∅))
    ∅ ∅ NoLanes None None None false false ContextOnlyDispatcher [] NoLanes false [].

(** A history of the component: three dispatches, with a render attempt at
    another lane and one at the lane of the updates between them. *)
Definition sampleHistory : list Event :=
  [Dispatch 0 1 1 (VNum 1); Render 2 1; Dispatch 0 1 2 (VNum 2); Render 1 1;
   Dispatch 0 1 1 (VNum 3)].

(** A render of the alternate at lane 1 has started, with one update, of
    lane 1 and action 5, pending. *)
Definition samplePending : State :=
  set_currentDispatcher HooksDispatcherOnUpdate
    (set_currentlyRenderingFiber (Some 2%positive)
       (set_renderLanes 1
          (set_queues (<[1%positive := sampleQueue (Some 1%positive) 1]> ∅)
             (set_updates
                (<[1%positive := Update.mk 1 (VNum 5) None VNull (Some 1%positive)]> ∅)
                (sampleIdle 1))))).

(** A render at lane 1, with three updates in a circular list: the second
    one is of lane 2. *)
Definition sampleWalk : State :=
  set_currentlyRenderingFiber (Some 2%positive)
    (set_renderLanes 1
       (set_updates
          (<[1%positive := Update.mk 1 (VNum 1) None VNull (Some 2%positive)]>
             (<[2%positive := Update.mk 2 (VNum 2) None VNull (Some 3%positive)]>
                (<[3%positive := Update.mk 1 (VNum 3) None VNull (Some 1%positive)]> ∅)))
          (sampleIdle 1))).


(** The alternate is being rendered. *)
Definition sampleRendering : State :=
  set_currentlyRenderingFiber (Some 2%positive) (sampleIdle 1).

(** The hook of the committed fiber is an effect whose dependencies are 1
    and NaN. *)
Definition sampleEffect : State :=
  set_currentlyRenderingFiber (Some 2%positive)
    (set_effects
       (<[1%positive := Effect.mk 4 (VFun 5) VUndefined (Some [VNum 1; VNaN])
                          (Some 1%positive)]> ∅)
       (set_hooks (<[1%positive := Hook.mk (VObj 1) VNull None None None]> ∅)
          (sampleIdle 1))).

(** A render of the alternate that scheduled a render-phase update, pending
    on the queue of its hook [2], and then threw. *)
Definition sampleThrown : State :=
  set_didScheduleRenderPhaseUpdate true
    (set_currentlyRenderingFiber (Some 2%positive)
       (set_fibers
          (<[1%positive := sampleCurrent]>
             (<[2%positive := Fiber.set_memoizedState (Some 2%positive) sampleAlternate]> ∅))
          (set_hooks (<[2%positive := sampleHook]> (<[1%positive := sampleHook]> ∅))
             (set_queues (<[1%positive := sampleQueue (Some 1%positive) 1]> ∅)
                (set_updates
                   (<[1%positive := Update.mk 1 (VNum 5) None VNull (Some 1%positive)]> ∅)
                   (sampleIdle 1)))))).

(** A root without pending mutations and a source that was not read yet,
    in a render at lane 1. *)
Definition sampleSource : State :=
  set_roots (<[1%positive := FiberRoot.mk NoLanes]> ∅)
    (set_sources (<[1%positive := createMutableSource (VObj 9) 3]> ∅)
       (set_renderLanes 1 (sampleIdle 1))).

(** A component that schedules a render-phase update on every pass. *)
Definition loopingComponent (props secondArg : Val) : M Val :=
  let* _ := modify (set_didScheduleRenderPhaseUpdateDuringThisPass true) in
  ret VNull.

(** * More of the engine *)

(** [Update] and [Passive] of [ReactFiberFlags], which is not among the
    sources. *)
Variable UpdateEffect : N.
Variable PassiveEffect : N.


(** The module variables are as between two renders. *)
Definition atRest (st : State) : Prop :=
  renderLanes st = NoLanes
  /\ currentlyRenderingFiber st = None
  /\ currentHook st = None
  /\ workInProgressHook st = None
  /\ didScheduleRenderPhaseUpdate st = false
  /\ didScheduleRenderPhaseUpdateDuringThisPass st = false
  /\ currentDispatcher st = ContextOnlyDispatcher.

(** The object stores of two states are the same. *)
Definition sameStores (st st' : State) : Prop :=
  updates st' = updates st
  /\ queues st' = queues st
  /\ hooks st' = hooks st
  /\ effects st' = effects st
  /\ componentUpdateQueues st' = componentUpdateQueues st
  /\ fibers st' = fibers st.

(** ** Effect lists as sequences *)

(** [effectLinked es ls tgt]: the effects at [ls] are objects of the store
    [es], each one's [next] is the one after it, and the [next] of the last
    one is [tgt]. *)
Fixpoint effectLinked (es : gmap loc Effect.t) (ls : list loc) (tgt : option loc)
  : Prop :=
  match ls with
  | [] => True
  | l :: ls' =>
      (exists e, es !! l = Some e
         /\ Effect.next e = match ls' with [] => tgt | l' :: _ => Some l' end)
      /\ effectLinked es ls' tgt
  end.

(** The circular list of effects that [lastEffect] holds by its last
    element: [ls] are its elements from the first to the last. *)
Definition effectCircular (es : gmap loc Effect.t) (lastEffect : option loc)
    (ls : list loc) : Prop :=
  NoDup ls /\ last ls = lastEffect /\ effectLinked es ls (head ls).

(** The effects of the fiber [f], in the order in which they run: none when
    the fiber has no update queue. *)
Definition effectList (st : State) (f : loc) (ls : list loc) : Prop :=
  exists F, fibers st !! f = Some F
    /\ match Fiber.updateQueue F with
       | None => ls = []
       | Some cq =>
           exists Q, componentUpdateQueues st !! cq = Some Q
             /\ effectCircular (effects st) (FunctionComponentUpdateQueue.lastEffect Q) ls
       end.

(** What an effect is, without its link. *)
Definition effectAt (es : gmap loc Effect.t) (l : loc) : option Effect.t :=
  Effect.set_next None <$> es !! l.

(** The links of a store of effects, as links between updates. *)
Definition effectLinks (es : gmap loc Effect.t) : gmap loc Update.t :=
  (fun e => Update.mk NoLane VNull None VNull (Effect.next e)) <$> es.

(** ** The effect hooks *)

(** [Layout] and [Passive] of [ReactHookEffectTags], which is not among the
    sources. *)
Variable HookLayout : N.
Variable HookPassive : N.

Definition mountEffect (create : Val) (deps : option (list Val)) : M unit :=
  mountEffectImpl (N.lor UpdateEffect PassiveEffect) HookPassive create deps.

Definition updateEffect (create : Val) (deps : option (list Val)) : M unit :=
  updateEffectImpl (N.lor UpdateEffect PassiveEffect) HookPassive create deps.

Definition mountLayoutEffect (create : Val) (deps : option (list Val)) : M unit :=
  mountEffectImpl UpdateEffect HookLayout create deps.

Definition updateLayoutEffect (create : Val) (deps : option (list Val)) : M unit :=
  updateEffectImpl UpdateEffect HookLayout create deps.

(** ** The cursors of an update render *)

(** The fiber [f] is being rendered for an update, before any re-render:
    the committed fiber [current] has the hooks [done ++ rest], of which
    [done] have been rendered, the cursor [currentHook] being on the last
    one of them; the work in progress has the hooks [ws], one for each hook
    of [done], the cursor [workInProgressHook] being on the last one. *)
Definition updateCursor (st : State) (f current : loc) (done rest ws : list loc)
  : Prop :=
  exists F C,
    f <> current
    /\ currentlyRenderingFiber st = Some f
    /\ fibers st !! f = Some F
    /\ Fiber.alternate F = Some current
    /\ fibers st !! current = Some C
    /\ hookChain (hooks st) (Fiber.memoizedState C) (done ++ rest)
    /\ hookChain (hooks st) (Fiber.memoizedState F) ws
    /\ currentHook st = last done
    /\ workInProgressHook st = last ws
    /\ length ws = length done
    /\ (forall l, l ∈ done ++ rest -> l ∉ ws).

(** ** Memoized values, callbacks and refs *)

(** The objects that [useMemo], [useCallback] and [useRef] keep in the
    [memoizedState] of their hook: the array [[value, deps]] and the ref
    object with its [current] property.  They live in a store of their own,
    which the hooks that use them take and give back beside the state of
    the engine; as for the other stores, a reference is meaningful together
    with the store it indexes. *)
Inductive Cell : Type :=
  | MemoCell (value : Val) (deps : option (list Val))
  | RefCell (current : Val).

Abbreviation Cells := (gmap loc Cell).

Definition mountRef (initialValue : Val) (cells : Cells) : M (Val * Cells) :=
  let* hook := mountWorkInProgressHook in
  let ref := freshLoc cells in
  let* _ := setHook (Some hook) (Hook.set_memoizedState (VObj ref)) in
  ret (VObj ref, <[ref := RefCell initialValue]> cells).

Definition updateRef (initialValue : Val) (cells : Cells) : M (Val * Cells) :=
  let* hook := updateWorkInProgressHook in
  let* h := getHook (Some hook) in
  ret (Hook.memoizedState h, cells).

(** [prevState[0]] and [prevState[1]] for a [prevState] that is not null,
    where [prevState[1]] is null or has a length: an array of two elements,
    or a string of two characters or more.  [None] when [prevState[1]] is
    undefined, or when reading it is a type error. *)
Definition memoized (cells : Cells) (prevState : Val)
  : option (Val * option (list Val)) :=
  match prevState with
  | VObj c =>
      match cells !! c with
      | Some (MemoCell value deps) => Some (value, deps)
      | _ => None
      end
  | VStr s =>
      match String.get 0 s, String.get 1 s with
      | Some a, Some b =>
          Some (VStr (String a EmptyString), Some [VStr (String b EmptyString)])
      | _, _ => None
      end
  | _ => None
  end.

(** The value to return without a new computation, if any: the test of
    [updateCallback] and [updateMemo] on the previous state and the new
    dependencies. *)
Definition memoizedFor (cells : Cells) (prevState : Val)
    (deps : option (list Val)) : M (option Val) :=
  match prevState, deps with
  | VNull, _ => ret None
  | _, None => ret None
  | _, Some nextDeps =>
      match memoized cells prevState with
      | Some (value, prevDeps) =>
          ret (if areHookInputsEqual nextDeps prevDeps then Some value else None)
      | None => throw TypeError
      end
  end.

Definition mountCallback (callback : Val) (deps : option (list Val))
    (cells : Cells) : M (Val * Cells) :=
  let* hook := mountWorkInProgressHook in
  let nextDeps := deps in
  let c := freshLoc cells in
  let* _ := setHook (Some hook) (Hook.set_memoizedState (VObj c)) in
  ret (callback, <[c := MemoCell callback nextDeps]> cells).

Definition updateCallback (callback : Val) (deps : option (list Val))
    (cells : Cells) : M (Val * Cells) :=
  let* hook := updateWorkInProgressHook in
  let nextDeps := deps in
  let* h := getHook (Some hook) in
  let prevState := Hook.memoizedState h in
  let* cached := memoizedFor cells prevState nextDeps in
  match cached with
  | Some value => ret (value, cells)
  | None =>
      let c := freshLoc cells in
      let* _ := setHook (Some hook) (Hook.set_memoizedState (VObj c)) in
      ret (callback, <[c := MemoCell callback nextDeps]> cells)
  end.

Definition mountMemo (nextCreate : fnref) (deps : option (list Val))
    (cells : Cells) : M (Val * Cells) :=
  let* hook := mountWorkInProgressHook in
  let nextDeps := deps in
  let* nextValue := callUser nextCreate [] in
  let c := freshLoc cells in
  let* _ := setHook (Some hook) (Hook.set_memoizedState (VObj c)) in
  ret (nextValue, <[c := MemoCell nextValue nextDeps]> cells).

Definition updateMemo (nextCreate : fnref) (deps : option (list Val))
    (cells : Cells) : M (Val * Cells) :=
  let* hook := updateWorkInProgressHook in
  let nextDeps := deps in
  let* h := getHook (Some hook) in
  let prevState := Hook.memoizedState h in
  let* cached := memoizedFor cells prevState nextDeps in
  match cached with
  | Some value => ret (value, cells)
  | None =>
      let* nextValue := callUser nextCreate [] in
      let c := freshLoc cells in
      let* _ := setHook (Some hook) (Hook.set_memoizedState (VObj c)) in
      ret (nextValue, <[c := MemoCell nextValue nextDeps]> cells)
  end.

(** ** A component that updates itself while it renders *)

(** A component with one reducer cell, which starts at 0: as long as the
    state is below [target], the component dispatches the action 1 to its
    own cell while it renders; it renders the state. *)
Definition selfUpdating (fuel : nat) (reducer : fnref) (target : Z)
    (eventTime : N) (lane : Lane) (props secondArg : Val) : M Val :=
  let* r := useReducer fuel reducer (VNum 0) None in
  match r with
  | (VNum s, Some (Some fiber, queue)) =>
      if (s <? target)%Z
      then let* _ := dispatchAction eventTime lane fiber queue (VNum 1) in
           ret (VNum s)
      else ret (VNum s)
  | _ => ret (fst r)
  end.

(** The state after a pass of [selfUpdating] that rendered [j]: the hook
    [h] of the work in progress holds [j], and its queue [q] holds the
    update that the pass dispatched, if it dispatched one. *)
Definition selfUpdated (workInProgress h q : loc) (reducer : fnref) (lane : Lane)
    (target j : Z) (st : State) : Prop :=
  exists F lrs,
    currentlyRenderingFiber st = Some workInProgress
    /\ fibers st !! workInProgress = Some F
    /\ Fiber.memoizedState F = Some h
    /\ Fiber.alternate F = None
    /\ hooks st !! h = Some (Hook.mk (VNum j) (VNum j) None (Some q) None)
    /\ currentHook st = None
    /\ if (j <? target)%Z
       then exists u,
              queues st !! q
              = Some (UpdateQueue.mk (Some u) (Some (Some workInProgress, q))
                        (Some reducer) lrs)
              /\ updates st !! u = Some (Update.mk lane (VNum 1) None VNull (Some u))
              /\ didScheduleRenderPhaseUpdateDuringThisPass st = true
       else queues st !! q
            = Some (UpdateQueue.mk None (Some (Some workInProgress, q))
                      (Some reducer) lrs)
            /\ didScheduleRenderPhaseUpdateDuringThisPass st = false.

(** ** State hooks *)

(** The name of [basicStateReducer] in the table of functions: the state
    hooks keep this function in their queue and give it to [updateReducer]
    and to [rerenderReducer]. *)
Definition basicStateReducerRef : fnref := 5%positive.

(** Calling that entry is calling [basicStateReducer]. *)
Definition basicStateReducerBound : Prop :=
  forall state action,
    call basicStateReducerRef [state; action]
    = match action with
      | VFun g => call g [state]
      | _ => Some action
      end.

Definition mountState (initialState : Val) : M (Val * option (option loc * loc)) :=
  let* hook := mountWorkInProgressHook in
  let* initialState :=
    match initialState with
    | VFun i => callUser i []
    | _ => ret initialState
    end in
  let* _ := setHook (Some hook) (fun h =>
    Hook.set_memoizedState initialState (Hook.set_baseState initialState h)) in
  let* queue :=
    newQueue (UpdateQueue.mk None None (Some basicStateReducerRef) initialState) in
  let* _ := setHook (Some hook) (Hook.set_queue (Some queue)) in
  let* fiber := gets currentlyRenderingFiber in
  let dispatch := Some (fiber, queue) in
  let* _ := setQueue (Some queue) (UpdateQueue.set_dispatch dispatch) in
  let* h := getHook (Some hook) in
  ret (Hook.memoizedState h, dispatch).

Definition updateState (fuel : nat) (initialState : Val)
  : M (Val * option (option loc * loc)) :=
  updateReducer fuel basicStateReducerRef initialState None.

Definition rerenderState (fuel : nat) (initialState : Val)
  : M (Val * option (option loc * loc)) :=
  rerenderReducer fuel basicStateReducerRef initialState None.

(** The [useState] entry of the table in [ReactCurrentDispatcher.current]. *)
Definition useState (fuel : nat) (initialState : Val)
  : M (Val * option (option loc * loc)) :=
  let* dispatcher := gets currentDispatcher in
  match dispatcher with
  | ContextOnlyDispatcher => throwInvalidHookError
  | HooksDispatcherOnMount => mountState initialState
  | HooksDispatcherOnUpdate => updateState fuel initialState
  | HooksDispatcherOnRerender => rerenderState fuel initialState
  end.

(** ** More of the sample component *)

(** The arrays of the sample: the array [1] holds the value 42 for the
    dependencies 1 and NaN. *)
Definition sampleMemo : Cells :=
  <[1%positive := MemoCell (VNum 42) (Some [VNum 1; VNaN])]> ∅.

(** A fiber [3] that was never committed, and nothing else. *)
Definition sampleFresh : State :=
  set_fibers (<[3%positive := Fiber.mk None None 0 0 None]> ∅) (sampleIdle 1).

(** The functions of the sample with two more: [basicStateReducer] under
    its name, and the updater [6], which adds one to the state. *)
Definition updaterCall (f : fnref) (args : list Val) : option Val :=
  match f, args with
  | 6%positive, [VNum s] => Some (VNum (s + 1))
  | _, _ => sampleCall f args
  end.

Definition stateCall (f : fnref) (args : list Val) : option Val :=
  match args with
  | [state; action] =>
      if bool_decide (f = basicStateReducerRef)
      then match action with
           | VFun g => updaterCall g [state]
           | _ => Some action
           end
      else updaterCall f args
  | _ => updaterCall f args
  end.

(** A render of the alternate at lane 1 has started; the hook is a state
    hook with two updates of lane 1 pending: the state 5, and then the
    updater [6]. *)
Definition sampleStatePending : State :=
  set_queues (<[1%positive := sampleQueue (Some 2%positive) basicStateReducerRef]> ∅)
    (set_updates
       (<[1%positive := Update.mk 1 (VNum 5) None VNull (Some 2%positive)]>
          (<[2%positive := Update.mk 1 (VFun 6) None VNull (Some 1%positive)]> ∅))
       samplePending).

(** The render of [samplePending], at lane 2: the pending update is of
    another lane. *)
Definition sampleOtherLane : State := set_renderLanes 2 samplePending.

(** * Properties *)

(** ** Running the state monad *)

Lemma bind_Returns {A B : Type} (m : M A) (k : A -> M B) st a st' :
  m st = (Returns a, st') -> bind m k st = k a st'.
Proof. unfold bind. intros ->. reflexivity. Qed.

Lemma bind_Throws {A B : Type} (m : M A) (k : A -> M B) st e st' :
  m st = (Throws e, st') -> bind m k st = (Throws e, st').
Proof. unfold bind. intros ->. reflexivity. Qed.

Lemma bind_OutOfFuel {A B : Type} (m : M A) (k : A -> M B) st st' :
  m st = (OutOfFuel, st') -> bind m k st = (OutOfFuel, st').
Proof. unfold bind. intros ->. reflexivity. Qed.

Lemma deref_Some {A : Type} (store : State -> gmap loc A) l x st :
  store st !! l = Some x -> deref store (Some l) st = (Returns x, st).
Proof. unfold deref. intros ->. reflexivity. Qed.

Lemma deref_Returns {A : Type} (store : State -> gmap loc A) p x st st' :
  deref store p st = (Returns x, st') ->
  st' = st /\ exists l, p = Some l /\ store st !! l = Some x.
Proof.
  unfold deref. destruct p as [l|]; [|discriminate].
  destruct (store st !! l) eqn:E; [|discriminate].
  intros [= <- <-]. eauto.
Qed.

Lemma assign_Some {A : Type} (store : State -> gmap loc A) set_store l f x st :
  store st !! l = Some x ->
  assign store set_store (Some l) f st
  = (Returns tt, set_store (<[l := f x]> (store st)) st).
Proof.
  intros H. unfold assign. rewrite (bind_Returns _ _ _ _ _ (deref_Some _ _ _ _ H)).
  reflexivity.
Qed.

Lemma bind_bind {A B C : Type} (m : M A) (k1 : A -> M B) (k2 : B -> M C) st :
  bind (bind m k1) k2 st = bind m (fun x => bind (k1 x) k2) st.
Proof. unfold bind. destruct (m st) as [[a|e|] st']; reflexivity. Qed.

Lemma bind_ret {A B : Type} (a : A) (k : A -> M B) st :
  bind (ret a) k st = k a st.
Proof. reflexivity. Qed.

Lemma bind_gets {A B : Type} (f : State -> A) (k : A -> M B) st :
  bind (gets f) k st = k (f st) st.
Proof. reflexivity. Qed.

Lemma bind_modify {B : Type} (f : State -> State) (k : unit -> M B) st :
  bind (modify f) k st = k tt (f st).
Proof. reflexivity. Qed.

Lemma bind_throw {A B : Type} (e : Error) (k : A -> M B) st :
  bind (throw e) k st = (Throws e, st).
Proof. reflexivity. Qed.

Lemma bind_alloc {A B : Type} (store : State -> gmap loc A) set_store x
    (k : loc -> M B) st :
  bind (alloc store set_store x) k st
  = k (freshLoc (store st)) (set_store (<[freshLoc (store st) := x]> (store st)) st).
Proof. reflexivity. Qed.

Lemma bind_deref {A B : Type} (store : State -> gmap loc A) l x
    (k : A -> M B) st :
  store st !! l = Some x -> bind (deref store (Some l)) k st = k x st.
Proof. intros H. apply bind_Returns, deref_Some, H. Qed.

Lemma bind_assign {A B : Type} (store : State -> gmap loc A) set_store l f x
    (k : unit -> M B) st :
  store st !! l = Some x ->
  bind (assign store set_store (Some l) f) k st
  = k tt (set_store (<[l := f x]> (store st)) st).
Proof. intros H. apply bind_Returns, assign_Some, H. Qed.

(** The store accessors, as instances of [deref], [assign] and [alloc]. *)
Ltac maccess :=
  unfold getUpdate, setUpdate, newUpdate, getQueue, setQueue, newQueue,
    getHook, setHook, newHook, getEffect, setEffect, newEffect,
    getComponentUpdateQueue, setComponentUpdateQueue, newComponentUpdateQueue,
    getFiber, setFiber, getSource, setSource, getRoot, invariant.

(** Unfolding the monad and the store accessors down to lookups. *)
Ltac munfold :=
  unfold getUpdate, setUpdate, newUpdate, getQueue, setQueue, newQueue,
    getHook, setHook, newHook, getEffect, setEffect, newEffect,
    getComponentUpdateQueue, setComponentUpdateQueue, newComponentUpdateQueue,
    getFiber, setFiber, getSource, setSource, getRoot,
    assign, alloc, deref, invariant, bind, ret, throw, gets, modify,
    outOfFuel in *.

(** Projections of records and of updated states. *)
Ltac proj :=
  cbn [fst snd negb andb orb updates queues hooks effects
    componentUpdateQueues fibers sources roots renderLanes
    currentlyRenderingFiber currentHook workInProgressHook
    didScheduleRenderPhaseUpdate didScheduleRenderPhaseUpdateDuringThisPass
    currentDispatcher scheduledUpdates skippedLanes didReceiveUpdate
    dirtySources set_updates set_queues set_hooks set_effects
    set_componentUpdateQueues set_fibers set_sources set_roots
    set_renderLanes set_currentlyRenderingFiber set_currentHook
    set_workInProgressHook set_didScheduleRenderPhaseUpdate
    set_didScheduleRenderPhaseUpdateDuringThisPass set_currentDispatcher
    set_scheduledUpdates set_skippedLanes set_didReceiveUpdate
    set_dirtySources Update.lane Update.action Update.eagerReducer
    Update.eagerState Update.next Update.set_next Update.set_eager
    UpdateQueue.pending UpdateQueue.dispatch UpdateQueue.lastRenderedReducer
    UpdateQueue.lastRenderedState UpdateQueue.set_pending
    UpdateQueue.set_dispatch UpdateQueue.set_lastRenderedReducer
    UpdateQueue.set_lastRenderedState Hook.memoizedState Hook.baseState
    Hook.baseQueue Hook.queue Hook.next Hook.set_memoizedState
    Hook.set_baseState Hook.set_baseQueue Hook.set_queue Hook.set_next
    Effect.tag Effect.create Effect.destroy Effect.deps Effect.next
    Effect.set_next FunctionComponentUpdateQueue.lastEffect
    Fiber.memoizedState Fiber.updateQueue Fiber.lanes Fiber.flags
    Fiber.alternate Fiber.set_memoizedState Fiber.set_updateQueue
    Fiber.set_lanes Fiber.set_flags MutableSource._getVersion
    MutableSource._source MutableSource._workInProgressVersionPrimary
    MutableSource._workInProgressVersionSecondary FiberRoot.mutableReadLanes
    newState newBaseState newBaseQueueFirst newBaseQueueLast] in *.

(** Deciding the comparisons of the code from the facts at hand. *)
Ltac bdec :=
  repeat match goal with
  | |- context [bool_decide ?P] =>
      first [ rewrite (bool_decide_eq_true_2 P) by (congruence || done)
            | rewrite (bool_decide_eq_false_2 P) by (congruence || done) ]
  end.


(** ** Hook list *)

(** Rewriting with the facts at hand about what the code inspects. *)
Ltac mrw :=
  repeat match goal with
  | H : ?x = _ |- context [match ?x with _ => _ end] => rewrite H; proj; bdec; proj
  | H : ?x = _ |- context [if ?x then _ else _] => rewrite H; proj; bdec; proj
  end.

Lemma freshLoc_None {A : Type} (store : gmap loc A) :
  store !! freshLoc store = None.
Proof. apply not_elem_of_dom, is_fresh. Qed.

Lemma freshLoc_ne {A : Type} (store : gmap loc A) l x :
  store !! l = Some x -> freshLoc store <> l.
Proof. intros H E. rewrite <- E, freshLoc_None in H. discriminate. Qed.

(** Lookups in stores after writes and allocations. *)
Ltac ne_solver :=
  first [ eassumption
        | apply not_eq_sym; eassumption
        | eapply freshLoc_ne; eassumption
        | apply not_eq_sym; eapply freshLoc_ne; eassumption
        | congruence ].

Ltac lk :=
  repeat first
    [ rewrite lookup_insert_eq
    | rewrite lookup_insert_ne by ne_solver
    | match goal with
      | H : ?x = _ |- context [match ?x with _ => _ end] => rewrite H
      | H : ?x = _ |- context [if ?x then _ else _] => rewrite H
      | H : ?x = _ |- context [deref _ ?x] => rewrite H
      | H : ?x = _ |- context [assign _ _ ?x] => rewrite H
      end
    | progress proj
    | progress bdec ].

Ltac lksolve :=
  proj;
  repeat first [ rewrite lookup_insert_eq
               | rewrite lookup_insert_ne by ne_solver ];
  first [ reflexivity | eassumption ].

(** One step of a run: the first command of a sequence is executed. *)
Ltac mstep :=
  first
    [ rewrite bind_bind
    | rewrite bind_ret
    | rewrite bind_gets
    | rewrite bind_modify
    | rewrite bind_throw
    | rewrite bind_alloc
    | erewrite bind_deref by lksolve
    | erewrite bind_assign by lksolve
    | erewrite deref_Some by lksolve
    | erewrite assign_Some by lksolve ];
  cbn beta.

Ltac mrun := maccess; repeat first [ mstep | progress lk ].






(** ** Effect list *)




(** ** Mutable source reader *)

Lemma strictEquals_VNull v : strictEquals v VNull = bool_decide (v = VNull).
Proof. destruct v as [| |b| | |[|z|z]|s|l|f]; reflexivity. Qed.

(** C4. [readFromUnsubcribedMutableSource] reads the store and returns what
    [getSnapshot] returns exactly in the two safe cases, (a) a recorded
    version that is the current one and (b) no recorded version and render
    lanes that include [root.mutableReadLanes], the version being recorded
    in case (b).  In every other case it marks the source as dirty and
    throws the tearing invariant: no snapshot is returned. *)
Theorem readFromUnsubcribedMutableSource_safe root source getSnapshot st s r version
    (Hs : sources st !! source = Some s)
    (Hr : roots st !! root = Some r)
    (Hv : call (MutableSource._getVersion s) [MutableSource._source s] = Some version) :
  (safeToRead st s r version = true ->
     readFromUnsubcribedMutableSource root source getSnapshot st
     = (match call getSnapshot [MutableSource._source s] with
        | Some snapshot => Returns snapshot
        | None => Throws UserError
        end,
        if strictEquals (recordedVersion s) VNull
        then set_sources (<[source := recordVersion version s]> (sources st)) st
        else st))
  /\ (safeToRead st s r version = false ->
        readFromUnsubcribedMutableSource root source getSnapshot st
        = (Throws (Invariant msgTearing),
           set_dirtySources (dirtySources st ++ [source]) st))
  /\ (forall snapshot st',
        readFromUnsubcribedMutableSource root source getSnapshot st
        = (Returns snapshot, st') ->
        safeToRead st s r version = true).
Proof.
  assert (Hrun : readFromUnsubcribedMutableSource root source getSnapshot st
    = if safeToRead st s r version
      then (match call getSnapshot [MutableSource._source s] with
            | Some snapshot => Returns snapshot
            | None => Throws UserError
            end,
            if strictEquals (recordedVersion s) VNull
            then set_sources (<[source := recordVersion version s]> (sources st)) st
            else st)
      else (Throws (Invariant msgTearing),
            set_dirtySources (dirtySources st ++ [source]) st)).
  { unfold readFromUnsubcribedMutableSource, safeToRead, getWorkInProgressVersion,
      setWorkInProgressVersion, markSourceAsDirty, callUser.
    mrun. fold (recordedVersion s).
    destruct (strictEquals (recordedVersion s) VNull) eqn:Enull; cbn [negb andb orb].
    - mrun.
      destruct (isSubsetOfLanes (renderLanes st) (FiberRoot.mutableReadLanes r)); mrun.
      + fold (recordVersion version s).
        replace (MutableSource._source (recordVersion version s))
          with (MutableSource._source s)
          by (unfold recordVersion; destruct isPrimaryRenderer; reflexivity).
        destruct (call getSnapshot [MutableSource._source s]); reflexivity.
      + reflexivity.
    - mrun. rewrite orb_false_r.
      destruct (strictEquals (recordedVersion s) version); mrun.
      + destruct (call getSnapshot [MutableSource._source s]); reflexivity.
      + reflexivity. }
  rewrite Hrun. split; [|split].
  - intros ->. reflexivity.
  - intros ->. reflexivity.
  - intros snapshot st'. destruct (safeToRead st s r version); [reflexivity|discriminate].
Qed.

(** ** Render-phase loop *)

Lemma renderWithHooks_loop_passes wip Component props arg k :
  forall fuel n st F v st',
    passes wip Component props arg k (rerenderStart wip F st) v st' ->
    fibers st !! wip = Some F ->
    (n + k < RE_RENDER_LIMIT)%nat ->
    (k < fuel)%nat ->
    renderWithHooks_loop fuel n wip Component props arg st
    = (if didScheduleRenderPhaseUpdateDuringThisPass st'
       then renderWithHooks_loop (fuel - S k) (n + S k) wip Component props arg st'
       else (Returns v, st')).
Proof.
  induction k as [|k IH]; intros fuel n st F v st' Hp HF Hn Hfuel.
  - inversion Hp as [? ? ? HC|]; subst.
    destruct fuel as [|fuel]; [lia|]. cbn [renderWithHooks_loop].
    destruct (Nat.ltb_spec n RE_RENDER_LIMIT) as [_|]; [|lia].
    mrun. fold (rerenderStart wip F st).
    rewrite (bind_Returns _ _ _ _ _ HC). mrun.
    replace (S fuel - 1)%nat with fuel by lia.
    destruct (didScheduleRenderPhaseUpdateDuringThisPass st'); reflexivity.
  - inversion Hp as [|? ? v1 st1 F1 ? ? HC Hflag HF1 Hrest]; subst.
    destruct fuel as [|fuel]; [lia|]. cbn [renderWithHooks_loop].
    destruct (Nat.ltb_spec n RE_RENDER_LIMIT) as [_|]; [|lia].
    mrun. fold (rerenderStart wip F st).
    rewrite (bind_Returns _ _ _ _ _ HC). mrun.
    rewrite (IH fuel (n + 1)%nat st1 F1 v st' Hrest HF1) by lia.
    replace (fuel - S k)%nat with (S fuel - S (S k))%nat by lia.
    replace (n + 1 + S k)%nat with (n + S (S k))%nat by lia. reflexivity.
Qed.

Lemma renderWithHooks_loop_limit fuel wip Component props arg st :
  renderWithHooks_loop (S fuel) RE_RENDER_LIMIT wip Component props arg st
  = (Throws (Invariant msgTooManyReRenders),
     set_didScheduleRenderPhaseUpdateDuringThisPass false st).
Proof. reflexivity. Qed.

Lemma alwaysSchedules_passes wip Component props arg k :
  alwaysSchedules wip Component props arg ->
  forall st, is_Some (fibers st !! wip) ->
    exists v st', passes wip Component props arg k st v st'
      /\ didScheduleRenderPhaseUpdateDuringThisPass st' = true
      /\ is_Some (fibers st' !! wip).
Proof.
  intros Hall. induction k as [|k IH]; intros st Hwip.
  - destruct (Hall st Hwip) as (v & st' & HC & Hflag & Hw').
    exists v, st'. split; [constructor; exact HC|auto].
  - destruct (Hall st Hwip) as (v1 & st1 & HC & Hflag & [F HF]).
    destruct (IH (rerenderStart wip F st1)) as (v & st' & Hp & Hflag' & Hw').
    { unfold rerenderStart. proj. rewrite lookup_insert_eq. eauto. }
    exists v, st'. split; [econstructor; eassumption|auto].
Qed.

Lemma renderWithHooks_loop_fuel wip Component props arg
    (Hterm : forall st, fst (Component props arg st) <> OutOfFuel) :
  forall fuel n st,
    (n <= RE_RENDER_LIMIT)%nat ->
    (RE_RENDER_LIMIT < fuel + n)%nat ->
    fst (renderWithHooks_loop fuel n wip Component props arg st) <> OutOfFuel.
Proof.
  induction fuel as [|fuel IH]; intros n st Hn Hfuel; [lia|].
  - cbn [renderWithHooks_loop].
    destruct (Nat.ltb_spec n RE_RENDER_LIMIT) as [Hlt|Hge].
    + mrun. munfold. proj.
      destruct (fibers st !! wip) as [F|]; [|discriminate]. proj.
      match goal with |- context [Component props arg ?s] =>
        pose proof (Hterm s) as Ht; destruct (Component props arg s) as [[v|e|] st2]
      end; cbn [fst] in *; try discriminate; try congruence.
      destruct (didScheduleRenderPhaseUpdateDuringThisPass st2).
      * apply IH; lia.
      * discriminate.
    + mrun. discriminate.
Qed.

Lemma renderWithHooks_start fuel current wip Component props arg lanes st F mounting
    (HF : fibers st !! wip = Some F)
    (Hcur : current <> Some wip)
    (Hmount : isMount st current mounting) :
  renderWithHooks fuel current wip Component props arg lanes st
  = (let* children := Component props arg in
     let* again := gets didScheduleRenderPhaseUpdateDuringThisPass in
     let* children :=
       if (again : bool)
       then renderWithHooks_loop fuel 0 wip Component props arg
       else ret children in
     let* _ := modify (set_currentDispatcher ContextOnlyDispatcher) in
     let* ch := gets currentHook in
     let* _ :=
       match ch with
       | Some _ => let* _ := getHook ch in ret tt
       | None => ret tt
       end in
     let* _ := modify (fun st =>
       set_didScheduleRenderPhaseUpdate false
         (set_workInProgressHook None
            (set_currentHook None
               (set_currentlyRenderingFiber None
                  (set_renderLanes NoLanes st))))) in
     ret children) (renderStart wip F mounting lanes st).
Proof.
  unfold renderWithHooks, isMount in *. mrun.
  destruct current as [c|].
  - destruct Hmount as (C & HC & ->).
    assert (wip <> c) by congruence. mrun. reflexivity.
  - subst mounting. mrun. reflexivity.
Qed.

Lemma renderWithHooks_end (v : Val) st :
  currentHookLive st ->
  (let* _ := modify (set_currentDispatcher ContextOnlyDispatcher) in
   let* ch := gets currentHook in
   let* _ :=
     match ch with
     | Some _ => let* _ := getHook ch in ret tt
     | None => ret tt
     end in
   let* _ := modify (fun st =>
     set_didScheduleRenderPhaseUpdate false
       (set_workInProgressHook None
          (set_currentHook None
             (set_currentlyRenderingFiber None
                (set_renderLanes NoLanes st))))) in
   ret v) st = (Returns v, renderEnd st).
Proof.
  unfold currentHookLive. intros Hlive. mrun.
  destruct (currentHook st) as [c|] eqn:Ec.
  - destruct Hlive as [h Hh]. mrun. reflexivity.
  - mrun. reflexivity.
Qed.

(** C5. [renderWithHooks] re-invokes a component for as long as its passes
    schedule render-phase updates.  A component that settles after [k]
    re-renders, for any [k] up to the limit of 25 and so for 1 to 24,
    completes with the value of its last pass.  When the first pass and the
    25 re-renders that follow all schedule an update, the render fails with
    the invariant "Too many re-renders", raised where a 26th re-render
    would start; this is the fate of a component that schedules an update on
    every pass.  With fuel above the limit the loop never runs out of fuel
    by itself. *)
Theorem renderWithHooks_re_render_limit fuel current wip Component props arg
    lanes st F mounting
    (HF : fibers st !! wip = Some F)
    (Hcur : current <> Some wip)
    (Hmount : isMount st current mounting)
    (Hfuel : (RE_RENDER_LIMIT < fuel)%nat) :
  (forall k v st',
      passes wip Component props arg k (renderStart wip F mounting lanes st) v st' ->
      didScheduleRenderPhaseUpdateDuringThisPass st' = false ->
      (k <= RE_RENDER_LIMIT)%nat ->
      currentHookLive st' ->
      renderWithHooks fuel current wip Component props arg lanes st
      = (Returns v, renderEnd st'))
  /\ (forall v st',
        passes wip Component props arg RE_RENDER_LIMIT
          (renderStart wip F mounting lanes st) v st' ->
        didScheduleRenderPhaseUpdateDuringThisPass st' = true ->
        renderWithHooks fuel current wip Component props arg lanes st
        = (Throws (Invariant msgTooManyReRenders),
           set_didScheduleRenderPhaseUpdateDuringThisPass false st'))
  /\ (alwaysSchedules wip Component props arg ->
        fst (renderWithHooks fuel current wip Component props arg lanes st)
        = Throws (Invariant msgTooManyReRenders))
  /\ ((forall s, fst (Component props arg s) <> OutOfFuel) ->
        fst (renderWithHooks fuel current wip Component props arg lanes st)
        <> OutOfFuel).
Proof.
  rewrite (renderWithHooks_start _ _ _ _ _ _ _ _ _ _ HF Hcur Hmount).
  set (st0 := renderStart wip F mounting lanes st).
  assert (Hlimit : forall v st',
    passes wip Component props arg RE_RENDER_LIMIT st0 v st' ->
    didScheduleRenderPhaseUpdateDuringThisPass st' = true ->
    (let* children := Component props arg in
     let* again := gets didScheduleRenderPhaseUpdateDuringThisPass in
     let* children :=
       if (again : bool)
       then renderWithHooks_loop fuel 0 wip Component props arg
       else ret children in
     let* _ := modify (set_currentDispatcher ContextOnlyDispatcher) in
     let* ch := gets currentHook in
     let* _ :=
       match ch with
       | Some _ => let* _ := getHook ch in ret tt
       | None => ret tt
       end in
     let* _ := modify (fun st =>
       set_didScheduleRenderPhaseUpdate false
         (set_workInProgressHook None
            (set_currentHook None
               (set_currentlyRenderingFiber None
                  (set_renderLanes NoLanes st))))) in
     ret children) st0
    = (Throws (Invariant msgTooManyReRenders),
       set_didScheduleRenderPhaseUpdateDuringThisPass false st')).
  { intros v st' Hp Hflag.
    change RE_RENDER_LIMIT with (S 24) in Hp.
    inversion Hp as [|k ? v1 st1 F1 ? ? HC Hflag1 HF1 Hrest]; subst.
    rewrite (bind_Returns _ _ _ _ _ HC). mrun.
    erewrite bind_Throws; [reflexivity|].
    rewrite (renderWithHooks_loop_passes _ _ _ _ _ fuel 0%nat _ _ _ _ Hrest HF1)
      by (unfold RE_RENDER_LIMIT in *; lia).
    rewrite Hflag.
    destruct (fuel - 25)%nat as [|fuel'] eqn:Ef; [unfold RE_RENDER_LIMIT in *; lia|].
    change (0 + 25)%nat with RE_RENDER_LIMIT.
    apply renderWithHooks_loop_limit. }
  split; [|split; [|split]].
  - intros k v st' Hp Hflag Hk Hlive.
    inversion Hp as [? ? ? HC|k' ? v1 st1 F1 ? ? HC Hflag1 HF1 Hrest]; subst.
    + rewrite (bind_Returns _ _ _ _ _ HC). mrun.
      apply renderWithHooks_end, Hlive.
    + rewrite (bind_Returns _ _ _ _ _ HC). mrun.
      erewrite bind_Returns; [apply renderWithHooks_end, Hlive|].
      rewrite (renderWithHooks_loop_passes _ _ _ _ _ fuel 0%nat _ _ _ _ Hrest HF1)
        by (unfold RE_RENDER_LIMIT in *; lia).
      rewrite Hflag. reflexivity.
  - exact Hlimit.
  - intros Hall.
    destruct (alwaysSchedules_passes _ _ _ _ RE_RENDER_LIMIT Hall st0)
      as (v & st' & Hp & Hflag & _).
    { unfold st0, renderStart. proj. rewrite lookup_insert_eq. eauto. }
    rewrite (Hlimit v st' Hp Hflag). reflexivity.
  - intros Hterm. unfold bind at 1.
    pose proof (Hterm st0) as Ht.
    destruct (Component props arg st0) as [[v|e|] st1]; cbn [fst] in *;
      try discriminate; try congruence.
    mrun. unfold bind at 1.
    destruct (didScheduleRenderPhaseUpdateDuringThisPass st1).
    + pose proof (renderWithHooks_loop_fuel wip Component props arg Hterm fuel 0%nat st1) as Hl.
      destruct (renderWithHooks_loop fuel 0 wip Component props arg st1) as [[v'|e|] st2];
        cbn [fst] in *; try discriminate.
      * munfold. proj. destruct (currentHook st2) as [c|]; proj; [|discriminate].
        destruct (hooks st2 !! c); discriminate.
      * apply Hl; unfold RE_RENDER_LIMIT in *; lia.
    + munfold. proj. destruct (currentHook st1) as [c|]; proj; [|discriminate].
      destruct (hooks st1 !! c); discriminate.
Qed.

(** ** Linked updates *)

Lemma linked_ext us us' ls tgt :
  (forall l, l ∈ ls -> us' !! l = us !! l) ->
  linked us ls tgt -> linked us' ls tgt.
Proof.
  revert tgt. induction ls as [|l ls IH]; intros tgt Hsame; cbn; [auto|].
  intros [(u & Hu & Hn) Hrest]. split.
  - exists u. rewrite Hsame by left. auto.
  - apply IH; [|exact Hrest]. intros l' Hl'. apply Hsame. right. exact Hl'.
Qed.

Lemma linked_app us l1 l2 tgt :
  linked us (l1 ++ l2) tgt
  <-> linked us l1 (match l2 with [] => tgt | l :: _ => Some l end)
      /\ linked us l2 tgt.
Proof.
  induction l1 as [|l l1 IH]; cbn.
  - tauto.
  - rewrite IH. destruct l1 as [|l' l1]; cbn; [destruct l2|]; tauto.
Qed.

Lemma linked_lookup us ls tgt l :
  linked us ls tgt -> l ∈ ls -> is_Some (us !! l).
Proof.
  induction ls as [|l' ls IH]; cbn; intros H Hin.
  - inversion Hin.
  - destruct H as [(u & Hu & _) Hrest].
    apply elem_of_cons in Hin as [->|Hin]; eauto.
Qed.

(** Redirecting the link of the last element. *)
Lemma linked_set_last us ls l u tgt tgt' :
  l ∉ ls ->
  linked us (ls ++ [l]) tgt ->
  us !! l = Some u ->
  linked (<[l := Update.set_next tgt' u]> us) (ls ++ [l]) tgt'.
Proof.
  intros Hnin H Hu. apply linked_app in H as [H1 _].
  apply linked_app. split.
  - eapply linked_ext; [|exact H1].
    intros l' Hl'. apply lookup_insert_ne. intros ->. contradiction.
  - cbn. split; [|exact I]. eexists. rewrite lookup_insert_eq. split; reflexivity.
Qed.

Lemma payloads_ext us us' ls ps :
  (forall l, l ∈ ls -> payloadAt us' l = payloadAt us l) ->
  payloads us ls ps -> payloads us' ls ps.
Proof.
  unfold payloads. intros Hsame H.
  induction H as [|l p ls ps Hp _ IH]; constructor.
  - rewrite Hsame by left. exact Hp.
  - apply IH. intros l' Hl'. apply Hsame. right. exact Hl'.
Qed.

Lemma payloadAt_set_next us l u n :
  us !! l = Some u ->
  payloadAt (<[l := Update.set_next n u]> us) l = payloadAt us l.
Proof. intros Hu. unfold payloadAt. rewrite lookup_insert_eq, Hu. reflexivity. Qed.

Lemma payloadAt_insert_ne us l l' u :
  l <> l' -> payloadAt (<[l := u]> us) l' = payloadAt us l'.
Proof. intros Hne. unfold payloadAt. rewrite lookup_insert_ne by exact Hne. reflexivity. Qed.

Lemma last_snoc' {A : Type} (l : list A) x : last (l ++ [x]) = Some x.
Proof. apply last_snoc. Qed.

Lemma circular_nil us : circular us None [].
Proof. repeat split. constructor. Qed.

Lemma circular_None us ls : circular us None ls -> ls = [].
Proof.
  intros (_ & Hlast & _). destruct ls as [|l ls] using rev_ind; [reflexivity|].
  rewrite last_snoc in Hlast. discriminate.
Qed.

Lemma circular_Some us p ls :
  circular us (Some p) ls ->
  exists ls' first u, ls = ls' ++ [p] /\ head ls = Some first
    /\ us !! p = Some u /\ Update.next u = Some first /\ p ∉ ls'.
Proof.
  intros (Hnd & Hlast & Hl).
  destruct ls as [|l ls _] using rev_ind; [discriminate|].
  rewrite last_snoc in Hlast. injection Hlast as ->.
  apply NoDup_app in Hnd as (_ & Hdisj & _).
  assert (exists first, head (ls ++ [p]) = Some first) as [first Hfirst].
  { destruct ls; cbn; eauto. }
  rewrite Hfirst in Hl. apply linked_app in Hl as [_ Hp]. cbn in Hp.
  destruct Hp as [(u & Hu & Hn) _].
  exists ls, first, u. repeat split; auto.
  intros Hin. apply (Hdisj p Hin). left.
Qed.

(** ** The walk of [updateReducer] *)

Lemma payloads_length us ls ps : payloads us ls ps -> length ls = length ps.
Proof. apply Forall2_length. Qed.

Lemma payloads_nil_inv us ls : payloads us ls [] -> ls = [].
Proof. intros H. apply Forall2_nil_inv_r in H. exact H. Qed.

Lemma walkFrame_lookup st0 st f F0 cls lanes l u :
  walkFrame st0 st f F0 cls lanes ->
  updates st0 !! l = Some u -> updates st !! l = Some u /\ l ∉ cls.
Proof.
  intros (_ & Hnew & Hold) Hu.
  assert (l ∉ cls) by (intros Hin; rewrite (Hnew l Hin) in Hu; discriminate).
  rewrite Hold by assumption. auto.
Qed.

Lemma walkFrame_fiber st0 st f F0 cls lanes :
  walkFrame st0 st f F0 cls lanes ->
  fibers st !! f = Some (Fiber.set_lanes lanes F0)
  /\ currentlyRenderingFiber st = currentlyRenderingFiber st0
  /\ renderLanes st = renderLanes st0.
Proof.
  intros ((us' & sk & ->) & _). proj. rewrite lookup_insert_eq. auto.
Qed.

Lemma appendClone_spec st0 st f F0 w cls cl lanes clone :
  walkFrame st0 st f F0 cls lanes ->
  newBaseQueue (updates st) w cls cl ->
  Update.next clone = None ->
  exists c w' st',
    appendClone clone w st = (Returns w', st')
    /\ walkFrame st0 st' f F0 (cls ++ [c]) lanes
    /\ newBaseQueue (updates st') w' (cls ++ [c]) (cl ++ [clone])
    /\ newState w' = newState w
    /\ newBaseState w' = match cl with [] => newState w | _ => newBaseState w end.
Proof.
  intros Hframe (Hnd & Hfirst & Hlast & Hlinked & Hpay) Hnext.
  pose proof Hframe as ((us' & sk & Hst) & Hnew & Hold).
  set (c := freshLoc (updates st)).
  assert (Hc : updates st !! c = None) by apply freshLoc_None.
  assert (Hcls : forall l, l ∈ cls -> l <> c).
  { intros l Hl ->. destruct (linked_lookup _ _ _ _ Hlinked Hl) as [x Hx]. congruence. }
  assert (Hcnew : c ∉ cls) by (intros Hin; apply (Hcls c Hin); reflexivity).
  assert (Hc0 : updates st0 !! c = None) by (rewrite <- Hold by exact Hcnew; exact Hc).
  assert (Hclone : Update.set_next None clone = clone).
  { destruct clone; cbn in *. subst. reflexivity. }
  exists c. unfold appendClone.
  destruct cls as [|lst cls _] using rev_ind.
  - (* the first clone *)
    cbn in Hlast. apply Forall2_nil_inv_l in Hpay. subst cl. mrun. fold c.
    eexists _, _. split; [reflexivity|]. unfold walkFrame, newBaseQueue; proj. split; [|split; [|split]].
    + split; [|split].
      * exists (<[c := clone]> (updates st)), sk. rewrite Hst. reflexivity.
      * intros l Hl. apply list_elem_of_singleton in Hl as ->. exact Hc0.
      * intros l Hl. rewrite lookup_insert_ne; [apply Hold; intros Hin; inversion Hin|].
        intros ->. apply Hl. left.
    + repeat split; cbn; auto using NoDup_singleton.
      * eexists. rewrite lookup_insert_eq. auto.
      * constructor; [|constructor]. unfold payloadAt. rewrite lookup_insert_eq.
        cbn. rewrite Hclone. reflexivity.
    + reflexivity.
    + reflexivity.
  - (* appended after the last clone *)
    rewrite last_snoc in Hlast.
    assert (Hlst : lst ∈ cls ++ [lst]) by (apply elem_of_app; right; left).
    destruct (linked_lookup _ _ _ _ Hlinked Hlst) as [ul Hul].
    assert (lst <> c) by (apply Hcls; exact Hlst).
    assert (c <> lst) by congruence.
    mrun. fold c. mrun. eexists _, _. split; [reflexivity|].
    apply NoDup_app in Hnd as (Hnd1 & Hdisj & _).
    assert (Hlnin : lst ∉ cls) by (intros Hin; apply (Hdisj lst Hin); left).
    unfold walkFrame, newBaseQueue; proj. split; [|split; [|split]].
    + split; [|split].
      * eexists _, sk. rewrite Hst. reflexivity.
      * intros l Hl. apply elem_of_app in Hl as [Hl|Hl]; [auto|].
        apply list_elem_of_singleton in Hl as ->. exact Hc0.
      * intros l Hl.
        assert (l <> lst) by (intros ->; apply Hl; apply elem_of_app; left; exact Hlst).
        assert (l <> c) by (intros ->; apply Hl; apply elem_of_app; right; left).
        rewrite !lookup_insert_ne by congruence. apply Hold.
        intros Hin. apply Hl. apply elem_of_app. left. exact Hin.
    + split; [|split; [|split; [|split]]].
      * apply NoDup_app. split; [|split].
        -- apply NoDup_app. auto using NoDup_singleton.
        -- intros l Hl Hl'. apply list_elem_of_singleton in Hl' as ->. contradiction.
        -- apply NoDup_singleton.
      * cbn. rewrite Hfirst. destruct cls; reflexivity.
      * cbn. rewrite last_snoc. reflexivity.
      * apply linked_app. split.
        -- apply (linked_set_last _ _ _ _ None); [exact Hlnin| |rewrite lookup_insert_ne by congruence; exact Hul].
           eapply linked_ext; [|exact Hlinked].
           intros l Hl. apply lookup_insert_ne. intros ->. apply (Hcls _ Hl). reflexivity.
        -- cbn. split; [|exact I]. eexists.
           rewrite lookup_insert_ne by congruence. rewrite lookup_insert_eq. auto.
      * apply Forall2_app.
        -- eapply payloads_ext; [|exact Hpay]. intros l Hl.
           destruct (decide (l = lst)) as [->|Hne].
           ++ rewrite payloadAt_set_next by (rewrite lookup_insert_ne by congruence; exact Hul).
              apply payloadAt_insert_ne. congruence.
           ++ rewrite payloadAt_insert_ne by congruence.
              apply payloadAt_insert_ne. intros ->. apply (Hcls _ Hl). reflexivity.
        -- constructor; [|constructor]. unfold payloadAt.
           rewrite lookup_insert_ne by congruence. rewrite lookup_insert_eq.
           cbn. rewrite Hclone. reflexivity.
    + reflexivity.
    + apply payloads_length in Hpay. rewrite length_app in Hpay. cbn in Hpay.
      destruct cl; [cbn in Hpay; lia|reflexivity].
Qed.

Lemma newBaseQueue_state us w cls cl s b :
  newBaseQueue us w cls cl ->
  newBaseQueue us (mkWalk s b (newBaseQueueFirst w) (newBaseQueueLast w)) cls cl.
Proof. intros (? & ? & ? & ? & ?). repeat split; assumption. Qed.

Lemma updateReducer_step_spec reducer st0 st f F0 w cls cl lanes l u :
  currentlyRenderingFiber st0 = Some f ->
  walkFrame st0 st f F0 cls lanes ->
  newBaseQueue (updates st) w cls cl ->
  updates st0 !! l = Some u ->
  match rebaseStep reducer (renderLanes st0) (newState w, newBaseState w, cl)
          (Update.set_next None u) with
  | Some (s', b', cl') =>
      exists w' st' cls',
        updateReducer_step reducer (Some l) w st = (Returns w', st')
        /\ newState w' = s' /\ newBaseState w' = b'
        /\ walkFrame st0 st' f F0 cls'
             (if included (renderLanes st0) (Update.set_next None u)
              then lanes else mergeLanes lanes (Update.lane u))
        /\ newBaseQueue (updates st') w' cls' cl'
  | None =>
      exists st' cls',
        updateReducer_step reducer (Some l) w st = (Throws UserError, st')
        /\ walkFrame st0 st' f F0 cls' lanes
  end.
Proof.
  intros Hf Hframe Hq Hu.
  destruct (walkFrame_lookup _ _ _ _ _ _ _ _ Hframe Hu) as [Hu' Hl].
  destruct (walkFrame_fiber _ _ _ _ _ _ Hframe) as (HF & Hcrf & Hrl).
  unfold rebaseStep, updateReducer_step, included. cbn [Update.lane Update.set_next].
  maccess. erewrite bind_deref by exact Hu'. cbn beta. rewrite bind_gets. cbn beta.
  rewrite Hrl.
  destruct (isSubsetOfLanes (renderLanes st0) (Update.lane u)) eqn:Einc; cbn [negb].
  - (* sufficient priority *)
    assert (Hclone : exists w1 st1 cls1,
      match newBaseQueueLast w with
      | Some _ => appendClone (Update.mk NoLane (Update.action u)
                    (Update.eagerReducer u) (Update.eagerState u) None) w
      | None => ret w
      end st = (Returns w1, st1)
      /\ walkFrame st0 st1 f F0 cls1 lanes
      /\ newBaseQueue (updates st1) w1 cls1
           (match cl with [] => [] | _ => cl ++ [cloneOf NoLane (Update.set_next None u)] end)
      /\ newState w1 = newState w /\ newBaseState w1 = newBaseState w).
    { destruct Hq as (Hnd & Hfirst & Hlast & Hlinked & Hpay).
      destruct cl as [|c0 cl].
      - apply payloads_nil_inv in Hpay. subst cls. cbn in Hlast. rewrite Hlast.
        exists w, st, []. split; [reflexivity|]. split; [exact Hframe|].
        split; [|auto]. split; [constructor|]. split; [exact Hfirst|].
        split; [exact Hlast|]. split; [exact I|constructor].
      - assert (exists lst, newBaseQueueLast w = Some lst) as [lst Elst].
        { rewrite Hlast. apply payloads_length in Hpay.
          destruct cls as [|x cls _] using rev_ind; [discriminate|].
          rewrite last_snoc. eauto. }
        rewrite Elst.
        destruct (appendClone_spec st0 st f F0 w cls (c0 :: cl) lanes
                    (Update.mk NoLane (Update.action u) (Update.eagerReducer u)
                       (Update.eagerState u) None) Hframe)
          as (c & w1 & st1 & Hrun & Hfr1 & Hq1 & Hs1 & Hb1);
          [repeat split; assumption|reflexivity|].
        exists w1, st1, (cls ++ [c]). auto. }
    destruct Hclone as (w1 & st1 & cls1 & Hrun & Hfr1 & Hq1 & Hs1 & Hb1).
    rewrite (bind_Returns _ _ _ _ _ Hrun).
    unfold applyUpdate, callUser. proj.
    destruct (bool_decide (Update.eagerReducer u = Some reducer)); cbn [mbind option_bind].
    + eexists _, st1, cls1. split; [reflexivity|]. cbn [newState newBaseState].
      split; [reflexivity|]. split; [exact Hb1|]. split; [exact Hfr1|].
      apply newBaseQueue_state, Hq1.
    + rewrite Hs1.
      destruct (call reducer [newState w; Update.action u]) as [s'|]; cbn [mbind option_bind].
      * rewrite bind_ret. cbn beta.
        eexists _, st1, cls1. split; [reflexivity|]. cbn [newState newBaseState].
        split; [reflexivity|]. split; [exact Hb1|]. split; [exact Hfr1|].
        apply newBaseQueue_state, Hq1.
      * rewrite bind_throw. exists st1, cls1. split; [reflexivity|exact Hfr1].
  - (* insufficient priority *)
    destruct (appendClone_spec st0 st f F0 w cls cl lanes
                (Update.mk (Update.lane u) (Update.action u) (Update.eagerReducer u)
                   (Update.eagerState u) None) Hframe Hq eq_refl)
      as (c & w1 & st1 & Hrun & Hfr1 & Hq1 & Hs1 & Hb1).
    rewrite (bind_Returns _ _ _ _ _ Hrun).
    destruct (walkFrame_fiber _ _ _ _ _ _ Hfr1) as (HF1 & Hcrf1 & Hrl1).
    pose proof Hfr1 as ((us' & sk & Hst1) & Hnew1 & Hold1).
    mrun. rewrite ?Hcrf1, ?Hf. mrun. unfold markSkippedUpdateLanes. mrun.
    eexists _, _, (cls ++ [c]). split; [reflexivity|].
    unfold walkFrame, newBaseQueue. proj.
    split; [exact Hs1|]. split; [exact Hb1|]. split.
    + split; [|split; assumption].
      eexists _, _. rewrite Hst1. proj.
      rewrite insert_insert_eq. reflexivity.
    + exact Hq1.
Qed.

Lemma payloadAt_Some us l p :
  payloadAt us l = Some p -> exists u, us !! l = Some u /\ p = Update.set_next None u.
Proof.
  unfold payloadAt. destruct (us !! l) as [u|]; [|discriminate].
  intros [= <-]. eauto.
Qed.

Lemma updateReducer_loop_spec reducer st0 f F0 first
    (Hf : currentlyRenderingFiber st0 = Some f) :
  forall ls ps fuel st w cls cl lanes tgt,
    ls <> [] ->
    walkFrame st0 st f F0 cls lanes ->
    newBaseQueue (updates st) w cls cl ->
    linked (updates st0) ls tgt ->
    tgt = None \/ tgt = first ->
    (forall l, l ∈ tail ls -> Some l <> first) ->
    payloads (updates st0) ls ps ->
    (length ls <= fuel)%nat ->
    match rebase reducer (renderLanes st0) (newState w, newBaseState w, cl) ps with
    | Some (s', b', cl') =>
        exists w' st' cls',
          updateReducer_loop fuel reducer first (head ls) w st = (Returns w', st')
          /\ newState w' = s' /\ newBaseState w' = b'
          /\ walkFrame st0 st' f F0 cls' (skipLanes (renderLanes st0) lanes ps)
          /\ newBaseQueue (updates st') w' cls' cl'
    | None =>
        exists st' cls' lanes',
          updateReducer_loop fuel reducer first (head ls) w st = (Throws UserError, st')
          /\ walkFrame st0 st' f F0 cls' lanes'
    end.
Proof.
  induction ls as [|l ls IH]; intros ps fuel st w cls cl lanes tgt Hne Hframe Hq Hl Htgt Hfirst Hpay Hfuel;
    [congruence|].
  inversion Hpay as [|? p ? ps' Hp Hps']; subst. clear Hpay.
  destruct (payloadAt_Some _ _ _ Hp) as (u & Hu & ->).
  destruct fuel as [|fuel]; [cbn in Hfuel; lia|].
  cbn [rebase head updateReducer_loop].
  pose proof (updateReducer_step_spec reducer st0 st f F0 w cls cl lanes l u Hf Hframe Hq Hu) as Hstep.
  destruct (rebaseStep reducer (renderLanes st0) (newState w, newBaseState w, cl)
              (Update.set_next None u)) as [[[s1 b1] cl1]|]; cbn [mbind option_bind].
  - destruct Hstep as (w1 & st1 & cls1 & Hrun & <- & <- & Hfr1 & Hq1).
    rewrite (bind_Returns _ _ _ _ _ Hrun).
    destruct (walkFrame_lookup _ _ _ _ _ _ _ _ Hfr1 Hu) as [Hu1 _].
    maccess. erewrite bind_deref by exact Hu1. cbn beta.
    cbn [linked] in Hl. destruct Hl as [(u' & Hu' & Hnext) Hrest].
    rewrite Hu in Hu'. injection Hu' as <-. rewrite Hnext.
    destruct ls as [|l' ls].
    + (* the last update of the list *)
      apply Forall2_nil_inv_l in Hps' as ->. cbn [rebase skipLanes].
      assert (Hstop : bool_decide (tgt <> None) && bool_decide (tgt <> first) = false).
      { destruct Htgt as [->| ->].
        - rewrite bool_decide_eq_false_2 by congruence. reflexivity.
        - rewrite (bool_decide_eq_false_2 (first <> first)) by congruence.
          apply andb_false_r. }
      rewrite Hstop. exists w1, st1, cls1. auto.
    + assert (Hgo : bool_decide (Some l' <> None) && bool_decide (Some l' <> first) = true).
      { rewrite !bool_decide_eq_true_2; [reflexivity| |congruence].
        apply Hfirst. cbn. left. }
      rewrite Hgo. cbn [skipLanes].
      apply (IH ps' fuel st1 w1 cls1 cl1 _ tgt); auto.
      * intros l0 Hl0. apply Hfirst. cbn. right. exact Hl0.
      * cbn in Hfuel. cbn. lia.
  - destruct Hstep as (st1 & cls1 & Hrun & Hfr1).
    rewrite (bind_Throws _ _ _ _ _ Hrun). eauto.
Qed.

(** ** The rebase on sequences *)

Lemma rebase_after_skip reducer lanes us :
  forall s b cl, cl <> [] ->
    rebase reducer lanes (s, b, cl) us
    = s' ← process reducer s (filter (fun u => included lanes u = true) us);
      Some (s', b, cl ++ map (rebaseClone lanes) us).
Proof.
  induction us as [|u us IH]; intros s b cl Hcl; cbn [rebase process map].
  - rewrite filter_nil. cbn. rewrite app_nil_r. reflexivity.
  - unfold rebaseStep, rebaseClone. rewrite filter_cons.
    destruct (included lanes u) eqn:Einc; cbn [negb].
    + rewrite decide_True by reflexivity. cbn [process].
      destruct (applyUpdate reducer s u) as [s1|]; cbn [mbind option_bind]; [|reflexivity].
      destruct cl as [|c cl]; [congruence|].
      rewrite IH by (destruct cl; discriminate).
      rewrite <- app_assoc. reflexivity.
    + rewrite decide_False by discriminate. cbn [mbind option_bind].
      destruct cl as [|c cl]; [congruence|].
      rewrite IH by (destruct cl; discriminate).
      rewrite <- app_assoc. reflexivity.
Qed.

(** The walk gives the state of the applied updates; from the first skipped
    update on, every update has a clone in the new base queue; the new base
    state is the state reached before the first skipped update. *)
Lemma rebase_from_start reducer lanes us :
  forall s b,
    rebase reducer lanes (s, b, []) us
    = s' ← process reducer s (filter (fun u => included lanes u = true) us);
      sb ← process reducer s (beforeSkip lanes us);
      Some (s', match fromSkip lanes us with [] => b | _ => sb end,
            map (rebaseClone lanes) (fromSkip lanes us)).
Proof.
  induction us as [|u us IH]; intros s b; cbn [rebase process beforeSkip fromSkip].
  - rewrite filter_nil. reflexivity.
  - unfold rebaseStep. rewrite filter_cons.
    destruct (included lanes u) eqn:Einc; cbn [negb].
    + rewrite decide_True by reflexivity. cbn [process].
      destruct (applyUpdate reducer s u) as [s1|]; cbn [mbind option_bind]; [|reflexivity].
      apply IH.
    + rewrite decide_False by discriminate. cbn [mbind option_bind app].
      rewrite rebase_after_skip by discriminate.
      cbn [process map app]. unfold rebaseClone at 2. rewrite Einc.
      destruct (process reducer s _); reflexivity.
Qed.

Lemma process_beforeSkip reducer lanes us :
  forall s s',
    process reducer s (filter (fun u => included lanes u = true) us) = Some s' ->
    is_Some (process reducer s (beforeSkip lanes us)).
Proof.
  induction us as [|u us IH]; intros s s'; cbn [beforeSkip process]; [eauto|].
  rewrite filter_cons. destruct (included lanes u) eqn:Einc.
  - rewrite decide_True by reflexivity. cbn [process].
    destruct (applyUpdate reducer s u) as [s1|]; cbn [mbind option_bind]; [|discriminate].
    apply IH.
  - eauto.
Qed.

Lemma state_walkFrame st f F0 :
  fibers st !! f = Some F0 -> walkFrame st st f F0 [] (Fiber.lanes F0).
Proof.
  intros HF. split; [|split].
  - exists (updates st), (skippedLanes st).
    replace (Fiber.set_lanes (Fiber.lanes F0) F0) with F0 by (destruct F0; reflexivity).
    rewrite insert_id by exact HF. destruct st; reflexivity.
  - intros l Hl. inversion Hl.
  - reflexivity.
Qed.

Lemma circular_tail_first us last ls :
  circular us last ls -> forall l, l ∈ tail ls -> Some l <> head ls.
Proof.
  intros (Hnd & _ & _) l Hl. destruct ls as [|l0 ls]; cbn in *; [inversion Hl|].
  apply NoDup_cons in Hnd as [Hnin _]. congruence.
Qed.

(** C2. The walk of [updateReducer] over the combined queue [ls], whose
    updates carry [ps], when the reducer does not throw.  No update that
    existed before the walk is written to.  From the first update whose lane
    is not a subset of the render lanes on, every update has a clone, a new
    object, in the new base queue, in the same order: a skipped update with
    its own lane, an applied one with [NoLane].  The new base state is the
    state accumulated just before the first skipped update, and the new
    state is the result of applying the updates that are not skipped. *)
Theorem updateReducer_loop_rebase fuel reducer st f F0 lastUpdate ls ps s0 s'
    (Hf : currentlyRenderingFiber st = Some f)
    (HF : fibers st !! f = Some F0)
    (Hcirc : circular (updates st) lastUpdate ls)
    (Hne : ls <> [])
    (Hps : payloads (updates st) ls ps)
    (Hfuel : (length ls <= fuel)%nat)
    (Hred : process reducer s0
              (filter (fun u => included (renderLanes st) u = true) ps) = Some s') :
  exists w' st' cls',
    updateReducer_loop fuel reducer (head ls) (head ls)
      (mkWalk s0 VNull None None) st = (Returns w', st')
    /\ newState w' = s'
    /\ (forall l u, updates st !! l = Some u -> updates st' !! l = Some u)
    /\ (forall l, l ∈ cls' -> updates st !! l = None)
    /\ newBaseQueueFirst w' = head cls'
    /\ newBaseQueueLast w' = last cls'
    /\ linked (updates st') cls' None
    /\ payloads (updates st') cls'
         (map (rebaseClone (renderLanes st)) (fromSkip (renderLanes st) ps))
    /\ (fromSkip (renderLanes st) ps <> [] ->
          process reducer s0 (beforeSkip (renderLanes st) ps)
          = Some (newBaseState w')).
Proof.
  pose proof Hcirc as (Hnd & Hlast & Hlinked).
  pose proof (updateReducer_loop_spec reducer st f F0 (head ls) Hf ls ps fuel st
    (mkWalk s0 VNull None None) [] [] (Fiber.lanes F0) (head ls) Hne
    (state_walkFrame _ _ _ HF)) as Hloop.
  cbn [newState newBaseState] in Hloop.
  rewrite rebase_from_start, Hred in Hloop. cbn [mbind option_bind] in Hloop.
  destruct (process_beforeSkip _ _ _ _ _ Hred) as [sb Hsb].
  rewrite Hsb in Hloop. cbn [mbind option_bind] in Hloop.
  destruct Hloop as (w' & st' & cls' & Hrun & Hs & Hb & Hframe & Hq); auto.
  { repeat split; try constructor. }
  { eapply circular_tail_first, Hcirc. }
  destruct Hq as (_ & Hfirst' & Hlast' & Hlinked' & Hpay').
  exists w', st', cls'. split; [exact Hrun|]. split; [exact Hs|].
  split; [|split; [|split; [|split; [|split; [|split]]]]]; auto.
  - intros l u Hu. eapply walkFrame_lookup; eassumption.
  - apply Hframe.
  - intros Hskip. rewrite Hb. destruct (fromSkip (renderLanes st) ps); congruence.
Qed.

(** ** Enqueueing *)

Lemma enqueued_circular us pending P update :
  circular us pending P ->
  Update.next update = None ->
  circular (enqueued us pending update) (Some (freshLoc us)) (P ++ [freshLoc us])
  /\ (forall l, l ∈ P -> payloadAt (enqueued us pending update) l = payloadAt us l)
  /\ payloadAt (enqueued us pending update) (freshLoc us) = Some update
  /\ (forall l, l ∉ P -> l <> freshLoc us ->
        enqueued us pending update !! l = us !! l)
  /\ freshLoc us ∉ P.
Proof.
  intros Hcirc Hnext.
  set (c := freshLoc us).
  assert (Hc : us !! c = None) by apply freshLoc_None.
  assert (Hupd : Update.set_next None update = update).
  { destruct update; cbn in *. subst. reflexivity. }
  assert (HcP : c ∉ P).
  { intros Hin. destruct Hcirc as (_ & _ & Hl).
    destruct (linked_lookup _ _ _ _ Hl Hin) as [x Hx]. congruence. }
  unfold enqueued. fold c. destruct pending as [p|].
  - destruct (circular_Some _ _ _ Hcirc) as (P' & first & up & -> & Hhead & Hup & Hn & Hp).
    rewrite Hup, Hn. destruct Hcirc as (Hnd & _ & Hl). rewrite Hhead in Hl.
    assert (Hpc : p <> c) by congruence.
    assert (Hcp : c <> p) by congruence.
    assert (Hfirst : head ((P' ++ [p]) ++ [c]) = Some first).
    { rewrite <- Hhead. destruct P'; reflexivity. }
    split; [|split; [|split; [|split]]].
    + split; [|split].
      * apply NoDup_app. split; [exact Hnd|]. split; [|apply NoDup_singleton].
        intros l Hl1 Hl2. apply list_elem_of_singleton in Hl2 as ->. contradiction.
      * apply last_snoc.
      * rewrite Hfirst. apply linked_app. split.
        -- apply (linked_set_last _ _ _ _ (Some first)); [exact Hp| |].
           ++ eapply linked_ext; [|exact Hl]. intros l Hl'.
              rewrite insert_insert_eq. apply lookup_insert_ne.
              intros ->. contradiction.
           ++ rewrite insert_insert_eq, lookup_insert_ne by congruence. exact Hup.
        -- cbn. split; [|exact I]. eexists.
           rewrite lookup_insert_ne by congruence. rewrite lookup_insert_eq. auto.
    + intros l Hl'. rewrite insert_insert_eq. destruct (decide (l = p)) as [->|Hne].
      * rewrite payloadAt_set_next by (rewrite lookup_insert_ne by congruence; exact Hup).
        apply payloadAt_insert_ne. congruence.
      * rewrite payloadAt_insert_ne by congruence. apply payloadAt_insert_ne.
        intros ->. contradiction.
    + rewrite insert_insert_eq, payloadAt_insert_ne by congruence.
      unfold payloadAt. rewrite lookup_insert_eq. cbn. f_equal.
      destruct update; unfold Update.set_next; cbn in *; congruence.
    + intros l Hl1 Hl2. rewrite insert_insert_eq.
      rewrite !lookup_insert_ne; [reflexivity|congruence|].
      intros ->. apply Hl1. apply elem_of_app. right. left.
    + exact HcP.
  - apply circular_None in Hcirc as ->. rewrite insert_insert_eq.
    split; [|split; [|split; [|split]]].
    + split; [apply NoDup_singleton|]. split; [reflexivity|]. cbn.
      split; [|exact I]. eexists. rewrite lookup_insert_eq. auto.
    + intros l Hl. inversion Hl.
    + unfold payloadAt. rewrite lookup_insert_eq. cbn. f_equal.
      destruct update; unfold Update.set_next; cbn in *; congruence.
    + intros l _ Hl. apply lookup_insert_ne. congruence.
    + exact HcP.
Qed.

(** What [dispatchAction] does after the update has been appended. *)
Lemma dispatchAction_enqueue eventTime lane fiber queue action st Q P F
    (HQ : queues st !! queue = Some Q)
    (HP : circular (updates st) (UpdateQueue.pending Q) P)
    (HF : fibers st !! fiber = Some F) :
  dispatchAction eventTime lane fiber queue action st
  = (if isRenderPhaseUpdate st fiber F then
       modify (fun st =>
         set_didScheduleRenderPhaseUpdateDuringThisPass true
           (set_didScheduleRenderPhaseUpdate true st))
     else
       let* f := getFiber (Some fiber) in
       let* drained :=
         if N.eqb (Fiber.lanes f) NoLanes then
           match Fiber.alternate F with
           | None => ret true
           | Some _ =>
               let* a := getFiber (Fiber.alternate F) in
               ret (N.eqb (Fiber.lanes a) NoLanes)
           end
         else ret false in
       let* bailout :=
         if (drained : bool) then
           let* q := getQueue (Some queue) in
           match UpdateQueue.lastRenderedReducer q with
           | Some lastRenderedReducer =>
               let currentState := UpdateQueue.lastRenderedState q in
               match call lastRenderedReducer [currentState; action] with
               | Some eagerState =>
                   let* _ := setUpdate (Some (freshLoc (updates st)))
                               (Update.set_eager (Some lastRenderedReducer) eagerState) in
                   ret (objectIs eagerState currentState)
               | None => ret false
               end
           | None => ret false
           end
         else ret false in
       if (bailout : bool) then ret tt
       else scheduleUpdateOnFiber fiber lane eventTime)
      (set_queues (<[queue := UpdateQueue.set_pending (Some (freshLoc (updates st))) Q]> (queues st))
         (set_updates (enqueued (updates st) (UpdateQueue.pending Q)
                         (Update.mk lane action None VNull None)) st)).
Proof.
  unfold dispatchAction, enqueued, isRenderPhaseUpdate.
  pose proof (freshLoc_None (updates st)) as Hc.
  mrun. destruct (UpdateQueue.pending Q) as [p|] eqn:Ep.
  - destruct (circular_Some _ _ _ HP) as (P' & first & up & -> & Hhead & Hup & Hn & Hp).
    assert (freshLoc (updates st) <> p) by congruence.
    mrun. reflexivity.
  - mrun. reflexivity.
Qed.

Lemma scheduleUpdateOnFiber_spec fiber lane eventTime st F :
  fibers st !! fiber = Some F ->
  alternateLive st F ->
  scheduleUpdateOnFiber fiber lane eventTime st
  = (Returns tt, scheduledState fiber F lane eventTime st).
Proof.
  intros HF Halt. unfold scheduleUpdateOnFiber, scheduledState, markedFibers, alternateLive in *.
  mrun. destruct (Fiber.alternate F) as [a|] eqn:Ea; [|reflexivity].
  destruct Halt as [A HA].
  destruct (decide (fiber = a)) as [->|Hne].
  - rewrite lookup_insert_eq. mrun. reflexivity.
  - rewrite lookup_insert_ne by exact Hne. rewrite HA. mrun. reflexivity.
Qed.

Lemma enqueued_fresh us pending P update :
  circular us pending P -> Update.next update = None ->
  exists u, enqueued us pending update !! freshLoc us = Some u
    /\ Update.set_next None u = update.
Proof.
  intros Hc Hn. destruct (enqueued_circular _ _ _ _ Hc Hn) as (_ & _ & Hp & _).
  apply payloadAt_Some in Hp as (u & Hu & ->). eauto.
Qed.

(** A dispatch from outside of the render. *)
Lemma dispatchAction_outside eventTime lane fiber queue action st Q P F
    (HQ : queues st !! queue = Some Q)
    (HP : circular (updates st) (UpdateQueue.pending Q) P)
    (HF : fibers st !! fiber = Some F)
    (Halt : alternateLive st F)
    (Hout : isRenderPhaseUpdate st fiber F = false) :
  dispatchAction eventTime lane fiber queue action st
  = (Returns tt, dispatchedState eventTime lane fiber queue action Q F st).
Proof.
  rewrite (dispatchAction_enqueue _ _ _ _ _ _ _ _ _ HQ HP HF), Hout.
  destruct (enqueued_fresh _ _ _ (Update.mk lane action None VNull None) HP eq_refl)
    as (uc & Huc & _).
  unfold dispatchedState, drained, alternateLive in *.
  fold (enqueuedState queue Q lane action st).
  assert (HF1 : fibers (enqueuedState queue Q lane action st) !! fiber = Some F) by exact HF.
  assert (Halt1 : alternateLive (enqueuedState queue Q lane action st) F) by exact Halt.
  assert (HQ1 : queues (enqueuedState queue Q lane action st) !! queue
                = Some (UpdateQueue.set_pending (Some (freshLoc (updates st))) Q)).
  { unfold enqueuedState. proj. apply lookup_insert_eq. }
  assert (Huc1 : updates (enqueuedState queue Q lane action st) !! freshLoc (updates st) = Some uc)
    by exact Huc.
  set (st1 := enqueuedState queue Q lane action st) in *.
  pose proof (scheduleUpdateOnFiber_spec fiber lane eventTime st1 F HF1 Halt1) as Hsched.
  assert (Halter : forall r e,
    <[freshLoc (updates st) := Update.set_eager (Some r) e uc]> (updates st1)
    = alter (Update.set_eager (Some r) e) (freshLoc (updates st)) (updates st1)).
  { intros r e. apply map_eq. intros l. rewrite lookup_alter.
    destruct (decide (freshLoc (updates st) = l)) as [<-|Hne].
    - rewrite lookup_insert_eq, Huc1. reflexivity.
    - rewrite lookup_insert_ne by exact Hne. reflexivity. }
  assert (Heager :
    (let* bailout :=
       let* q := getQueue (Some queue) in
       match UpdateQueue.lastRenderedReducer q with
       | Some lastRenderedReducer =>
           let currentState := UpdateQueue.lastRenderedState q in
           match call lastRenderedReducer [currentState; action] with
           | Some eagerState =>
               let* _ := setUpdate (Some (freshLoc (updates st)))
                           (Update.set_eager (Some lastRenderedReducer) eagerState) in
               ret (objectIs eagerState currentState)
           | None => ret false
           end
       | None => ret false
       end in
     if (bailout : bool) then ret tt
     else scheduleUpdateOnFiber fiber lane eventTime) st1
    = (Returns tt,
       match UpdateQueue.lastRenderedReducer Q with
       | Some r =>
           match call r [UpdateQueue.lastRenderedState Q; action] with
           | Some e =>
               let st2 :=
                 set_updates
                   (alter (Update.set_eager (Some r) e) (freshLoc (updates st))
                      (updates st1)) st1 in
               if objectIs e (UpdateQueue.lastRenderedState Q) then st2
               else scheduledState fiber F lane eventTime st2
           | None => scheduledState fiber F lane eventTime st1
           end
       | None => scheduledState fiber F lane eventTime st1
       end)).
  { maccess. rewrite bind_bind. erewrite bind_deref by exact HQ1. cbn beta. proj.
    destruct (UpdateQueue.lastRenderedReducer Q) as [r|]; [|rewrite bind_ret; exact Hsched].
    destruct (call r [UpdateQueue.lastRenderedState Q; action]) as [e|];
      [|rewrite bind_ret; exact Hsched].
    rewrite bind_bind. erewrite bind_assign by exact Huc1. cbn beta.
    rewrite bind_ret. cbn beta. rewrite Halter.
    destruct (objectIs e (UpdateQueue.lastRenderedState Q)); [reflexivity|].
    apply scheduleUpdateOnFiber_spec; assumption. }
  maccess. erewrite bind_deref by exact HF1. cbn beta.
  destruct (N.eqb (Fiber.lanes F) NoLanes) eqn:El; cbn [andb].
  - destruct (Fiber.alternate F) as [a|] eqn:Ea.
    + destruct Halt as [A HA].
      assert (HA1 : fibers st1 !! a = Some A) by exact HA.
      rewrite bind_bind. erewrite bind_deref by exact HA1. cbn beta.
      rewrite bind_ret. cbn beta. rewrite HA.
      destruct (N.eqb (Fiber.lanes A) NoLanes); [exact Heager|].
      rewrite bind_ret. exact Hsched.
    + rewrite bind_ret. cbn beta. exact Heager.
  - rewrite !bind_ret. exact Hsched.
Qed.

Lemma noPendingLanes_drained st F :
  noPendingLanes st F -> drained st F = true /\ alternateLive st F.
Proof.
  unfold noPendingLanes, drained, alternateLive. intros [-> Halt].
  destruct (Fiber.alternate F) as [a|]; [|auto].
  destruct Halt as (A & -> & ->). eauto.
Qed.

(** C3, as the code has it.  A dispatch to a fiber that is not rendering,
    with no pending lanes on the fiber and on its alternate, calls the last
    rendered reducer of the queue on the last rendered state and the action.
    When the call returns, its result and the reducer are cached on the
    update as [eagerState] and [eagerReducer], and if the result is the
    last rendered state for [objectIs] the dispatch returns without a call
    to [scheduleUpdateOnFiber].  When the call throws, the error is
    suppressed, nothing is cached and the update is scheduled. *)
Theorem dispatchAction_eager eventTime lane fiber queue action st Q P F r
    (HQ : queues st !! queue = Some Q)
    (HP : circular (updates st) (UpdateQueue.pending Q) P)
    (HF : fibers st !! fiber = Some F)
    (Hout : isRenderPhaseUpdate st fiber F = false)
    (Hlanes : noPendingLanes st F)
    (Hr : UpdateQueue.lastRenderedReducer Q = Some r) :
  exists st' u,
    dispatchAction eventTime lane fiber queue action st = (Returns tt, st')
    /\ updates st' !! freshLoc (updates st) = Some u
    /\ Update.lane u = lane
    /\ Update.action u = action
    /\ match call r [UpdateQueue.lastRenderedState Q; action] with
       | Some e =>
           Update.eagerReducer u = Some r
           /\ Update.eagerState u = e
           /\ if objectIs e (UpdateQueue.lastRenderedState Q)
              then scheduledUpdates st' = scheduledUpdates st
              else scheduledUpdates st'
                   = scheduledUpdates st ++ [(fiber, lane, eventTime)]
       | None =>
           Update.eagerReducer u = None
           /\ Update.eagerState u = VNull
           /\ scheduledUpdates st'
              = scheduledUpdates st ++ [(fiber, lane, eventTime)]
       end.
Proof.
  destruct (noPendingLanes_drained _ _ Hlanes) as [Hd Halt].
  rewrite (dispatchAction_outside _ _ _ _ _ _ _ _ _ HQ HP HF Halt Hout).
  destruct (enqueued_fresh _ _ _ (Update.mk lane action None VNull None) HP eq_refl)
    as (uc & Huc & Epay).
  assert (Elane : Update.lane uc = lane) by (destruct uc; injection Epay; auto).
  assert (Eact : Update.action uc = action) by (destruct uc; injection Epay; auto).
  assert (Eer : Update.eagerReducer uc = None) by (destruct uc; injection Epay; auto).
  assert (Ees : Update.eagerState uc = VNull) by (destruct uc; injection Epay; auto).
  unfold dispatchedState. rewrite Hd, Hr.
  destruct (call r [UpdateQueue.lastRenderedState Q; action]) as [e|].
  - exists (if objectIs e (UpdateQueue.lastRenderedState Q)
            then set_updates
                   (alter (Update.set_eager (Some r) e) (freshLoc (updates st))
                      (updates (enqueuedState queue Q lane action st)))
                   (enqueuedState queue Q lane action st)
            else scheduledState fiber F lane eventTime
                   (set_updates
                      (alter (Update.set_eager (Some r) e) (freshLoc (updates st))
                         (updates (enqueuedState queue Q lane action st)))
                      (enqueuedState queue Q lane action st))),
      (Update.set_eager (Some r) e uc).
    split; [destruct (objectIs e _); reflexivity|].
    split.
    { destruct (objectIs e _); unfold scheduledState, enqueuedState; proj;
        rewrite lookup_alter, decide_True by reflexivity; rewrite Huc; reflexivity. }
    proj. repeat split; auto.
    destruct (objectIs e _); reflexivity.
  - exists (scheduledState fiber F lane eventTime (enqueuedState queue Q lane action st)), uc.
    split; [reflexivity|]. split; [exact Huc|]. auto.
Qed.

(** A dispatch to the fiber being rendered, or to its alternate. *)
Lemma dispatchAction_render_phase eventTime lane fiber queue action st Q P F
    (HQ : queues st !! queue = Some Q)
    (HP : circular (updates st) (UpdateQueue.pending Q) P)
    (HF : fibers st !! fiber = Some F)
    (Hin : isRenderPhaseUpdate st fiber F = true) :
  dispatchAction eventTime lane fiber queue action st
  = (Returns tt,
     set_didScheduleRenderPhaseUpdateDuringThisPass true
       (set_didScheduleRenderPhaseUpdate true
          (enqueuedState queue Q lane action st))).
Proof.
  rewrite (dispatchAction_enqueue _ _ _ _ _ _ _ _ _ HQ HP HF), Hin. reflexivity.
Qed.

(** ** Render-phase updates *)

Lemma rerenderReducer_loop_spec reducer first st :
  forall ls ps fuel s,
    ls <> [] ->
    linked (updates st) ls first ->
    (forall l, l ∈ tail ls -> Some l <> first) ->
    payloads (updates st) ls ps ->
    (length ls <= fuel)%nat ->
    rerenderReducer_loop fuel reducer first (head ls) s st
    = (match foldReducer reducer s (map Update.action ps) with
       | Some s' => Returns s'
       | None => Throws UserError
       end, st).
Proof.
  induction ls as [|l ls IH]; intros ps fuel s Hne Hl Hfirst Hpay Hfuel; [congruence|].
  inversion Hpay as [|? p ? ps' Hp Hps']; subst. clear Hpay.
  destruct (payloadAt_Some _ _ _ Hp) as (u & Hu & ->).
  destruct fuel as [|fuel]; [cbn in Hfuel; lia|].
  cbn [rerenderReducer_loop head map foldReducer]. proj.
  cbn [linked] in Hl. destruct Hl as [(u' & Hu' & Hnext) Hrest].
  rewrite Hu in Hu'. injection Hu' as <-.
  maccess. erewrite bind_deref by exact Hu. cbn beta. unfold callUser.
  destruct (call reducer [s; Update.action u]) as [s1|]; cbn [mbind option_bind];
    [|reflexivity].
  rewrite bind_ret. cbn beta. rewrite Hnext.
  destruct ls as [|l' ls].
  - apply Forall2_nil_inv_l in Hps' as ->.
    rewrite bool_decide_eq_false_2 by congruence. reflexivity.
  - rewrite bool_decide_eq_true_2 by (apply Hfirst; left).
    apply (IH ps' fuel s1); auto; try discriminate.
    + intros l0 Hl0. apply Hfirst. right. exact Hl0.
    + cbn in Hfuel. cbn. lia.
Qed.

Lemma rerenderReducer_spec fuel reducer initialArg init st hook st1 hh q Q P ps s'
    (Hhook : updateWorkInProgressHook st = (Returns hook, st1))
    (Hhh : hooks st1 !! hook = Some hh)
    (Hq : Hook.queue hh = Some q)
    (HQ : queues st1 !! q = Some Q)
    (HP : circular (updates st1) (UpdateQueue.pending Q) P)
    (Hps : payloads (updates st1) P ps)
    (Hfuel : (length P <= fuel)%nat)
    (Hfold : foldReducer reducer (Hook.memoizedState hh) (map Update.action ps) = Some s') :
  exists st',
    rerenderReducer fuel reducer initialArg init st
    = (Returns (s', UpdateQueue.dispatch Q), st')
    /\ (exists Q', queues st' !! q = Some Q' /\ UpdateQueue.pending Q' = None
          /\ UpdateQueue.lastRenderedReducer Q' = Some reducer)
    /\ (exists hh', hooks st' !! hook = Some hh' /\ Hook.memoizedState hh' = s')
    /\ updates st' = updates st1
    /\ fibers st' = fibers st1
    /\ scheduledUpdates st' = scheduledUpdates st1.
Proof.
  unfold rerenderReducer. rewrite (bind_Returns _ _ _ _ _ Hhook).
  mrun. destruct (UpdateQueue.pending Q) as [p|] eqn:Ep.
  - destruct (circular_Some _ _ _ HP) as (P' & first & up & -> & Hhead & Hup & Hn & Hp).
    mrun.
    pose proof HP as (Hnd & _ & Hl). rewrite Hhead in Hl.
    assert (Hloop : forall st2, updates st2 = updates st1 ->
      rerenderReducer_loop fuel reducer (Some first) (Some first) (Hook.memoizedState hh) st2
      = (Returns s', st2)).
    { intros st2 E.
      assert (Hne : P' ++ [p] <> []) by (destruct P'; discriminate).
      assert (Htl : forall l, l ∈ tail (P' ++ [p]) -> Some l <> Some first)
        by (rewrite <- Hhead; eapply circular_tail_first, HP).
      rewrite <- E in Hl, Hps.
      pose proof (rerenderReducer_loop_spec reducer (Some first) st2 (P' ++ [p]) ps
                    fuel (Hook.memoizedState hh) Hne Hl Htl Hps Hfuel) as Hrun.
      rewrite Hhead, Hfold in Hrun. exact Hrun. }
    rewrite Hn. erewrite bind_Returns by (apply Hloop; reflexivity). mrun.
    unfold markWorkInProgressReceivedUpdate.
    destruct (objectIs s' (Hook.memoizedState hh)); cbn [negb]; mrun;
    destruct (Hook.baseQueue hh) eqn:Ebq; mrun;
      (eexists; split; [reflexivity|]; proj;
       split; [eexists; rewrite lookup_insert_eq; split; [reflexivity|]; proj; auto|];
       split; [eexists; rewrite lookup_insert_eq; split; [reflexivity|]; proj; auto|];
       auto).
  - apply circular_None in HP as ->. apply Forall2_nil_inv_l in Hps as ->.
    cbn in Hfold. injection Hfold as <-. mrun.
    eexists. split; [reflexivity|]. proj.
    split; [eexists; rewrite lookup_insert_eq; split; [reflexivity|]; proj; auto|].
    split; [eexists; split; [exact Hhh|reflexivity]|]. auto.
Qed.

(** C7. A dispatch that targets the fiber being rendered, or its alternate,
    appends the update at the end of the pending list of the queue and
    raises the two render-phase flags; [scheduleUpdateOnFiber] is not
    called and no lane is marked.  On the re-render, [rerenderReducer]
    applies the pending updates to the state of the work-in-progress hook
    in the order of the list, whatever their lanes and the render lanes
    are, and clears the pending list. *)
Theorem render_phase_updates :
  (forall eventTime lane fiber queue action st Q P F,
      queues st !! queue = Some Q ->
      circular (updates st) (UpdateQueue.pending Q) P ->
      fibers st !! fiber = Some F ->
      isRenderPhaseUpdate st fiber F = true ->
      exists st' Q',
        dispatchAction eventTime lane fiber queue action st = (Returns tt, st')
        /\ queues st' !! queue = Some Q'
        /\ circular (updates st') (UpdateQueue.pending Q') (P ++ [freshLoc (updates st)])
        /\ (forall l, l ∈ P -> payloadAt (updates st') l = payloadAt (updates st) l)
        /\ payloadAt (updates st') (freshLoc (updates st))
           = Some (Update.mk lane action None VNull None)
        /\ didScheduleRenderPhaseUpdate st' = true
        /\ didScheduleRenderPhaseUpdateDuringThisPass st' = true
        /\ scheduledUpdates st' = scheduledUpdates st
        /\ fibers st' = fibers st)
  /\ (forall fuel reducer initialArg init st hook st1 hh q Q P ps s',
        updateWorkInProgressHook st = (Returns hook, st1) ->
        hooks st1 !! hook = Some hh ->
        Hook.queue hh = Some q ->
        queues st1 !! q = Some Q ->
        circular (updates st1) (UpdateQueue.pending Q) P ->
        payloads (updates st1) P ps ->
        (length P <= fuel)%nat ->
        foldReducer reducer (Hook.memoizedState hh) (map Update.action ps) = Some s' ->
        exists st',
          rerenderReducer fuel reducer initialArg init st
          = (Returns (s', UpdateQueue.dispatch Q), st')
          /\ (exists Q', queues st' !! q = Some Q' /\ UpdateQueue.pending Q' = None
                /\ UpdateQueue.lastRenderedReducer Q' = Some reducer)
          /\ (exists hh', hooks st' !! hook = Some hh' /\ Hook.memoizedState hh' = s')
          /\ updates st' = updates st1
          /\ fibers st' = fibers st1
          /\ scheduledUpdates st' = scheduledUpdates st1).
Proof.
  split.
  - intros eventTime lane fiber queue action st Q P F HQ HP HF Hin.
    rewrite (dispatchAction_render_phase _ _ _ _ _ _ _ _ _ HQ HP HF Hin).
    destruct (enqueued_circular _ _ _ (Update.mk lane action None VNull None) HP eq_refl)
      as (Hcirc & Hold & Hnew & _).
    eexists _, _. split; [reflexivity|]. unfold enqueuedState. proj.
    split; [apply lookup_insert_eq|]. proj. auto 10.
  - intros. eapply rerenderReducer_spec; eassumption.
Qed.

(** ** Reset after a throw *)

Lemma resetHooksAfterThrow_loop_spec :
  forall ls fuel head st,
    hookChain (hooks st) head ls ->
    queuesLive st ls ->
    (length ls <= fuel)%nat ->
    exists qs,
      resetHooksAfterThrow_loop fuel head st = (Returns tt, set_queues qs st)
      /\ (forall q Q, queues st !! q = Some Q ->
            exists Q', qs !! q = Some Q'
              /\ (UpdateQueue.pending Q = None -> UpdateQueue.pending Q' = None))
      /\ (forall l h q, l ∈ ls -> hooks st !! l = Some h -> Hook.queue h = Some q ->
            exists Q', qs !! q = Some Q' /\ UpdateQueue.pending Q' = None)
      /\ (forall q, (forall l h, l ∈ ls -> hooks st !! l = Some h -> Hook.queue h <> Some q) ->
            qs !! q = queues st !! q).
Proof.
  induction ls as [|l ls IH]; intros fuel head st Hchain Hlive Hfuel.
  - cbn in Hchain. subst head. exists (queues st).
    split; [destruct fuel; cbn; destruct st; reflexivity|].
    split; [eauto|]. split; [|reflexivity].
    intros l h q Hl. inversion Hl.
  - cbn in Hchain. destruct Hchain as (-> & h & Hh & Hrest).
    destruct fuel as [|fuel]; [cbn in Hfuel; lia|].
    cbn [resetHooksAfterThrow_loop]. mrun.
    destruct (Hook.queue h) as [q|] eqn:Eq.
    + destruct (Hlive l h q) as [Q HQ]; [left|assumption|assumption|].
      mrun.
      set (st1 := set_queues (<[q := UpdateQueue.set_pending None Q]> (queues st)) st).
      destruct (IH fuel (Hook.next h) st1) as (qs & Hrun & Hkeep & Hclear & Hother).
      { exact Hrest. }
      { intros l' h' q' Hl' Hh' Hq'. unfold st1. proj.
        destruct (decide (q = q')) as [<-|Hne].
        - rewrite lookup_insert_eq. eauto.
        - rewrite lookup_insert_ne by exact Hne.
          eapply (Hlive l' h' q'); [right|..]; eassumption. }
      { cbn in Hfuel. lia. }
      exists qs. split; [rewrite Hrun; reflexivity|]. split; [|split].
      * intros q' Q' HQ'. destruct (decide (q = q')) as [<-|Hne].
        -- destruct (Hkeep q (UpdateQueue.set_pending None Q)) as (Q'' & HQ'' & Hp).
           { unfold st1. proj. apply lookup_insert_eq. }
           exists Q''. split; [exact HQ''|]. intros _. apply Hp. reflexivity.
        -- apply Hkeep. unfold st1. proj. rewrite lookup_insert_ne by exact Hne. exact HQ'.
      * intros l' h' q' Hl' Hh' Hq'. apply elem_of_cons in Hl' as [->|Hl'].
        -- rewrite Hh in Hh'. injection Hh' as <-. rewrite Eq in Hq'. injection Hq' as <-.
           destruct (Hkeep q (UpdateQueue.set_pending None Q)) as (Q'' & HQ'' & Hp).
           { unfold st1. proj. apply lookup_insert_eq. }
           exists Q''. split; [exact HQ''|]. apply Hp. reflexivity.
        -- eapply Hclear; eassumption.
      * intros q' Hq'. rewrite Hother.
        -- unfold st1. proj. apply lookup_insert_ne. intros <-.
           eapply (Hq' l h); [left|exact Hh|exact Eq].
        -- intros l' h' Hl' Hh'. eapply Hq'; [right; exact Hl'|exact Hh'].
    + mrun.
      destruct (IH fuel (Hook.next h) st) as (qs & Hrun & Hkeep & Hclear & Hother).
      { exact Hrest. }
      { intros l' h' q' Hl'. apply Hlive. right. exact Hl'. }
      { cbn in Hfuel. lia. }
      exists qs. split; [exact Hrun|]. split; [exact Hkeep|]. split.
      * intros l' h' q' Hl' Hh' Hq'. apply elem_of_cons in Hl' as [->|Hl'].
        -- rewrite Hh in Hh'. injection Hh' as <-. congruence.
        -- eapply Hclear; eassumption.
      * intros q' Hq'. apply Hother.
        intros l' h' Hl' Hh'. eapply Hq'; [right; exact Hl'|exact Hh'].
Qed.

(** C10. When a render-phase update was scheduled during the render being
    aborted, [resetHooksAfterThrow] leaves the pending list of the queue of
    every hook on the hook list of the aborted fiber empty, whatever the
    list held and whenever its updates were enqueued, and switches the
    dispatcher to [ContextOnlyDispatcher]. *)
Theorem resetHooksAfterThrow_clears_pending fuel st f F ls
    (Hflag : didScheduleRenderPhaseUpdate st = true)
    (Hf : currentlyRenderingFiber st = Some f)
    (HF : fibers st !! f = Some F)
    (Hchain : hookChain (hooks st) (Fiber.memoizedState F) ls)
    (Hlive : queuesLive st ls)
    (Hfuel : (length ls <= fuel)%nat) :
  exists st',
    resetHooksAfterThrow fuel st = (Returns tt, st')
    /\ currentDispatcher st' = ContextOnlyDispatcher
    /\ (forall l h q, l ∈ ls -> hooks st' !! l = Some h -> Hook.queue h = Some q ->
          exists Q, queues st' !! q = Some Q /\ UpdateQueue.pending Q = None)
    /\ hooks st' = hooks st
    /\ updates st' = updates st
    /\ currentlyRenderingFiber st' = None
    /\ didScheduleRenderPhaseUpdate st' = false
    /\ didScheduleRenderPhaseUpdateDuringThisPass st' = false.
Proof.
  unfold resetHooksAfterThrow. mrun.
  destruct (resetHooksAfterThrow_loop_spec ls fuel (Fiber.memoizedState F)
              (set_currentDispatcher ContextOnlyDispatcher st))
    as (qs & Hrun & _ & Hclear & _); [exact Hchain|exact Hlive|exact Hfuel|].
  rewrite (bind_Returns _ _ _ _ _ Hrun). mrun.
  eexists. split; [reflexivity|]. proj. auto 10.
Qed.

(** ** Merging the pending queue into the base queue *)

Lemma payloadAt_insert_set_next us l u n l' :
  us !! l = Some u ->
  payloadAt (<[l := Update.set_next n u]> us) l' = payloadAt us l'.
Proof.
  intros Hu. destruct (decide (l = l')) as [<-|Hne].
  - apply payloadAt_set_next, Hu.
  - apply payloadAt_insert_ne, Hne.
Qed.

Lemma circular_head us last ls l :
  circular us last ls -> head ls = Some l -> l ∈ ls.
Proof. intros _ H. destruct ls; [discriminate|]. injection H as ->. left. Qed.

Lemma merge_circular us b p B P ub up :
  circular us (Some b) B ->
  circular us (Some p) P ->
  NoDup (B ++ P) ->
  us !! b = Some ub ->
  us !! p = Some up ->
  let us' := <[p := Update.set_next (Update.next ub) up]>
               (<[b := Update.set_next (Update.next up) ub]> us) in
  circular us' (Some p) (B ++ P)
  /\ (forall l, payloadAt us' l = payloadAt us l)
  /\ (forall l, l <> b -> l <> p -> us' !! l = us !! l).
Proof.
  intros HB HP Hnd Hub Hup us'. subst us'.
  destruct (circular_Some _ _ _ HB) as (B' & bfirst & ub' & -> & HheadB & Hub' & HnB & HbB').
  destruct (circular_Some _ _ _ HP) as (P' & pfirst & up' & -> & HheadP & Hup' & HnP & HpP').
  rewrite Hub in Hub'. injection Hub' as <-. rewrite Hup in Hup'. injection Hup' as <-.
  destruct HB as (_ & _ & HlB). destruct HP as (_ & _ & HlP).
  rewrite HheadB in HlB. rewrite HheadP in HlP. rewrite HnB, HnP.
  pose proof Hnd as Hnd'. apply NoDup_app in Hnd' as (_ & Hdisj & _).
  assert (Hbp : b <> p).
  { intros ->. apply (Hdisj p); apply elem_of_app; right; left. }
  assert (HbP : b ∉ P' ++ [p]).
  { apply Hdisj. apply elem_of_app. right. left. }
  assert (HpB : p ∉ B' ++ [b]).
  { intros Hin. apply (Hdisj p Hin). apply elem_of_app. right. left. }
  assert (Hup1 : <[b := Update.set_next (Some pfirst) ub]> us !! p = Some up)
    by (rewrite lookup_insert_ne by exact Hbp; exact Hup).
  split; [|split].
  - split; [exact Hnd|]. split.
    + rewrite app_assoc. apply last_snoc.
    + assert (Hhead : head ((B' ++ [b]) ++ P' ++ [p]) = Some bfirst).
      { rewrite <- HheadB. destruct B'; reflexivity. }
      rewrite Hhead. apply linked_app.
      assert (Hhd : match P' ++ [p] with [] => Some bfirst | l :: _ => Some l end = Some pfirst).
      { rewrite <- HheadP. destruct P'; reflexivity. }
      rewrite Hhd. split.
      * eapply linked_ext.
        -- intros l Hl. apply lookup_insert_ne. intros <-. contradiction.
        -- apply (linked_set_last _ _ _ _ (Some bfirst)); assumption.
      * apply (linked_set_last _ _ _ _ (Some pfirst)); [exact HpP'| |exact Hup1].
        eapply linked_ext; [|exact HlP].
        intros l Hl. apply lookup_insert_ne. intros <-. contradiction.
  - intros l.
    rewrite (payloadAt_insert_set_next _ _ _ _ _ Hup1).
    apply payloadAt_insert_set_next, Hub.
  - intros l Hlb Hlp. rewrite !lookup_insert_ne by congruence. reflexivity.
Qed.

(** ** [updateReducer] *)

Lemma mergedUpdates_circular us bq pq B P :
  circular us bq B ->
  circular us pq P ->
  NoDup (B ++ P) ->
  circular (mergedUpdates us bq pq) (mergedQueue bq pq) (B ++ P)
  /\ (forall l, payloadAt (mergedUpdates us bq pq) l = payloadAt us l)
  /\ (forall l, l ∉ B ++ P -> mergedUpdates us bq pq !! l = us !! l).
Proof.
  intros HB HP Hnd. unfold mergedUpdates, mergedQueue.
  destruct pq as [p|].
  - destruct bq as [b|].
    + destruct (circular_Some _ _ _ HB) as (B' & bfirst & ub & EB & _ & Hub & _).
      destruct (circular_Some _ _ _ HP) as (P' & pfirst & up & EP & _ & Hup & _).
      rewrite Hub, Hup.
      destruct (merge_circular us b p B P ub up HB HP Hnd Hub Hup) as (Hc & Hpay & Hfr).
      split; [exact Hc|]. split; [exact Hpay|].
      intros l Hl. apply Hfr.
      * intros ->. apply Hl. subst B. apply elem_of_app. left.
        apply elem_of_app. right. left.
      * intros ->. apply Hl. subst P. apply elem_of_app. right.
        apply elem_of_app. right. left.
    + apply circular_None in HB as ->. cbn. auto.
  - apply circular_None in HP as ->. rewrite app_nil_r. destruct bq; auto.
Qed.

Lemma updateReducer_merge fuel reducer initialArg init st hook st1 hh c hc q Q B P
    (Hhook : updateWorkInProgressHook st = (Returns hook, st1))
    (Hhh : hooks st1 !! hook = Some hh)
    (Hcur : currentHook st1 = Some c)
    (Hhc : hooks st1 !! c = Some hc)
    (Hq : Hook.queue hh = Some q)
    (HQ : queues st1 !! q = Some Q)
    (HB : circular (updates st1) (Hook.baseQueue hc) B)
    (HP : circular (updates st1) (UpdateQueue.pending Q) P)
    (Hnd : NoDup (B ++ P)) :
  updateReducer fuel reducer initialArg init st
  = (let* _ :=
       match mergedQueue (Hook.baseQueue hc) (UpdateQueue.pending Q) with
       | Some _ =>
           let baseQueue := mergedQueue (Hook.baseQueue hc) (UpdateQueue.pending Q) in
           let* b := getUpdate baseQueue in
           let first := Update.next b in
           let* c := getHook (Some c) in
           let* w := updateReducer_loop fuel reducer first first
                       (mkWalk (Hook.baseState c) VNull None None) in
           let* newBase :=
             match newBaseQueueLast w with
             | None => ret (newState w)
             | Some _ =>
                 let* _ := setUpdate (newBaseQueueLast w)
                             (Update.set_next (newBaseQueueFirst w)) in
                 ret (newBaseState w)
             end in
           let* h := getHook (Some hook) in
           let* _ :=
             if negb (objectIs (newState w) (Hook.memoizedState h))
             then markWorkInProgressReceivedUpdate
             else ret tt in
           let* _ := setHook (Some hook) (fun h =>
             Hook.set_baseQueue (newBaseQueueLast w)
               (Hook.set_baseState newBase
                  (Hook.set_memoizedState (newState w) h))) in
           setQueue (Some q) (UpdateQueue.set_lastRenderedState (newState w))
       | None => ret tt
       end in
     let* q := getQueue (Some q) in
     let* h := getHook (Some hook) in
     ret (Hook.memoizedState h, UpdateQueue.dispatch q))
      (mergedState reducer c hc q Q st1).
Proof.
  unfold updateReducer. rewrite (bind_Returns _ _ _ _ _ Hhook).
  unfold mergedState, mergedUpdates, mergedQueue.
  mrun.
  assert (Hid : forall X : State, set_hooks (<[c := Hook.set_baseQueue (Hook.baseQueue hc) hc]> (hooks st1)) X
                         = set_hooks (hooks st1) X).
  { intros X. f_equal. apply insert_id. rewrite Hhc. f_equal. destruct hc; reflexivity. }
  destruct (UpdateQueue.pending Q) as [p|] eqn:Ep.
  - destruct (circular_Some _ _ _ HP) as (P' & pfirst & up & EP & _ & Hup & _).
    destruct (Hook.baseQueue hc) as [b|] eqn:Eb.
    + destruct (circular_Some _ _ _ HB) as (B' & bfirst & ub & EB & _ & Hub & _).
      assert (Hbp : b <> p).
      { intros ->. apply NoDup_app in Hnd as (_ & Hdisj & _).
        apply (Hdisj p); subst B P; apply elem_of_app; right; left. }
      mrun. rewrite insert_insert_eq. reflexivity.
    + mrun. rewrite insert_insert_eq. reflexivity.
  - rewrite Hid.
    replace (UpdateQueue.set_lastRenderedReducer (Some reducer) Q)
      with (UpdateQueue.mk None (UpdateQueue.dispatch Q) (Some reducer)
              (UpdateQueue.lastRenderedState Q))
      by (destruct Q; cbn in *; subst; reflexivity).
    replace (set_hooks (hooks st1)
               (set_updates match Hook.baseQueue hc with
                            | Some _ | _ => updates st1
                            end st1)) with st1
      by (destruct (Hook.baseQueue hc), st1; reflexivity).
    reflexivity.
Qed.

Lemma circular_lookup us last ls l :
  circular us last ls -> l ∈ ls -> is_Some (us !! l).
Proof. intros (_ & _ & Hl). eapply linked_lookup, Hl. Qed.

Lemma circular_ext us us' last ls :
  (forall l, l ∈ ls -> us' !! l = us !! l) ->
  circular us last ls -> circular us' last ls.
Proof.
  intros Hsame (Hnd & Hlast & Hl). repeat split; auto.
  eapply linked_ext; eassumption.
Qed.

Lemma payloads_same us us' ls ps :
  (forall l, l ∈ ls -> us' !! l = us !! l) ->
  payloads us ls ps -> payloads us' ls ps.
Proof.
  intros Hsame. apply payloads_ext. intros l Hl. unfold payloadAt.
  rewrite Hsame by exact Hl. reflexivity.
Qed.

(** Closing the new base queue into a circular list. *)
Lemma newBaseQueue_close us w cls cl lst ulst :
  newBaseQueue us w cls cl ->
  newBaseQueueLast w = Some lst ->
  us !! lst = Some ulst ->
  circular (<[lst := Update.set_next (newBaseQueueFirst w) ulst]> us) (Some lst) cls
  /\ payloads (<[lst := Update.set_next (newBaseQueueFirst w) ulst]> us) cls cl.
Proof.
  intros (Hnd & Hfirst & Hlast & Hl & Hpay) Elst Hu.
  rewrite Hlast in Elst.
  destruct cls as [|x cls _] using rev_ind; [discriminate|].
  rewrite last_snoc in Elst. injection Elst as ->.
  pose proof Hnd as Hnd'. apply NoDup_app in Hnd' as (_ & Hdisj & _).
  assert (Hnin : lst ∉ cls) by (intros Hin; apply (Hdisj lst Hin); left).
  split.
  - split; [exact Hnd|]. split; [apply last_snoc|].
    rewrite <- Hfirst. apply (linked_set_last _ _ _ _ None); assumption.
  - eapply payloads_ext; [|exact Hpay]. intros l _.
    apply payloadAt_insert_set_next, Hu.
Qed.

(** What [updateReducer] does to a hook with updates to process, when the
    reducer does not throw: the value it returns and the state it leaves. *)
Lemma updateReducer_spec fuel reducer initialArg init st hook st1 hh c hc q Q B P ps
    f F0 s' b' cl'
    (Hhook : updateWorkInProgressHook st = (Returns hook, st1))
    (Hhh : hooks st1 !! hook = Some hh)
    (Hcur : currentHook st1 = Some c)
    (Hhc : hooks st1 !! c = Some hc)
    (Hne : hook <> c)
    (Hq : Hook.queue hh = Some q)
    (HQ : queues st1 !! q = Some Q)
    (HB : circular (updates st1) (Hook.baseQueue hc) B)
    (HP : circular (updates st1) (UpdateQueue.pending Q) P)
    (Hnd : NoDup (B ++ P))
    (Hnonempty : B ++ P <> [])
    (Hps : payloads (updates st1) (B ++ P) ps)
    (Hf : currentlyRenderingFiber st1 = Some f)
    (HF : fibers st1 !! f = Some F0)
    (Hfuel : (length (B ++ P) <= fuel)%nat)
    (Hreb : rebase reducer (renderLanes st1) (Hook.baseState hc, VNull, []) ps
            = Some (s', b', cl')) :
  exists st' cls' us' sk dr,
    updateReducer fuel reducer initialArg init st
    = (Returns (s', UpdateQueue.dispatch Q), st')
    /\ st' = set_didReceiveUpdate dr
               (set_skippedLanes sk
                  (set_fibers
                     (<[f := Fiber.set_lanes
                               (skipLanes (renderLanes st1) (Fiber.lanes F0) ps) F0]>
                        (fibers st1))
                     (set_queues
                        (<[q := UpdateQueue.mk None (UpdateQueue.dispatch Q)
                                  (Some reducer) s']> (queues st1))
                        (set_hooks
                           (<[hook := Hook.mk s'
                                        (match cl' with [] => s' | _ => b' end)
                                        (last cls') (Hook.queue hh) (Hook.next hh)]>
                              (<[c := Hook.set_baseQueue
                                        (mergedQueue (Hook.baseQueue hc)
                                           (UpdateQueue.pending Q)) hc]>
                                 (hooks st1)))
                           (set_updates us' st1)))))
    /\ circular us' (mergedQueue (Hook.baseQueue hc) (UpdateQueue.pending Q)) (B ++ P)
    /\ payloads us' (B ++ P) ps
    /\ circular us' (last cls') cls'
    /\ payloads us' cls' cl'
    /\ (forall l, l ∈ cls' -> updates st1 !! l = None)
    /\ (forall l, l ∉ B ++ P -> l ∉ cls' -> us' !! l = updates st1 !! l).
Proof.
  rewrite (updateReducer_merge _ _ _ _ _ _ _ _ _ _ _ _ _ _
             Hhook Hhh Hcur Hhc Hq HQ HB HP Hnd).
  destruct (mergedUpdates_circular _ _ _ _ _ HB HP Hnd) as (HcM & HpayM & HfrM).
  set (stL := mergedState reducer c hc q Q st1).
  set (usM := mergedUpdates (updates st1) (Hook.baseQueue hc) (UpdateQueue.pending Q)) in *.
  assert (HusL : updates stL = usM) by reflexivity.
  assert (HpsM : payloads usM (B ++ P) ps).
  { eapply payloads_ext; [|exact Hps]. intros l _. apply HpayM. }
  assert (HcL : hooks stL !! c
                = Some (Hook.set_baseQueue
                          (mergedQueue (Hook.baseQueue hc) (UpdateQueue.pending Q)) hc)).
  { unfold stL, mergedState. proj. apply lookup_insert_eq. }
  assert (HhL : hooks stL !! hook = Some hh).
  { unfold stL, mergedState. proj. rewrite lookup_insert_ne by congruence. exact Hhh. }
  assert (HQL : queues stL !! q = Some (UpdateQueue.mk None (UpdateQueue.dispatch Q)
                                          (Some reducer) (UpdateQueue.lastRenderedState Q))).
  { unfold stL, mergedState. proj. apply lookup_insert_eq. }
  assert (HfL : currentlyRenderingFiber stL = Some f) by exact Hf.
  assert (HFL : fibers stL !! f = Some F0) by exact HF.
  assert (HrlL : renderLanes stL = renderLanes st1) by reflexivity.
  destruct (mergedQueue (Hook.baseQueue hc) (UpdateQueue.pending Q))
    as [lastU|] eqn:ElastM.
  2:{ apply circular_None in HcM. contradiction. }
  destruct (circular_Some _ _ _ HcM) as (L' & first & ulast & EL & Hhead & Hulast & Hnext & _).
  pose proof HcM as (_ & _ & HlM). rewrite Hhead in HlM.
  (* the walk *)
  pose proof (updateReducer_loop_spec reducer stL f F0 (Some first) HfL (B ++ P) ps fuel stL
    (mkWalk (Hook.baseState hc) VNull None None) [] [] (Fiber.lanes F0) (Some first)
    Hnonempty (state_walkFrame _ _ _ HFL)) as Hloop.
  cbn [newState newBaseState] in Hloop. rewrite HrlL, Hreb, Hhead in Hloop.
  destruct Hloop as (w' & st2 & cls' & Hrun & Hs & Hb & Hframe & Hnbq); auto.
  { repeat split; try constructor. }
  { rewrite <- Hhead. eapply circular_tail_first, HcM. }
  pose proof Hframe as ((us2 & sk & Est2) & Hnew & Hold).
  pose proof Hnbq as (Hnd' & Hfirst' & Hlast' & Hlinked' & Hpay').
  assert (Hus2 : updates st2 = us2) by (rewrite Est2; reflexivity).
  assert (Hh2 : hooks st2 = hooks stL) by (rewrite Est2; reflexivity).
  assert (Hq2 : queues st2 = queues stL) by (rewrite Est2; reflexivity).
  assert (Hh2hook : hooks st2 !! hook = Some hh) by (rewrite Hh2; exact HhL).
  assert (Hq2q : queues st2 !! q = Some (UpdateQueue.mk None (UpdateQueue.dispatch Q)
                                          (Some reducer) (UpdateQueue.lastRenderedState Q)))
    by (rewrite Hq2; exact HQL).
  assert (Hfresh : forall l, l ∈ cls' -> updates st1 !! l = None /\ l ∉ B ++ P).
  { intros l Hl. pose proof (Hnew l Hl) as Hn. rewrite HusL in Hn.
    assert (l ∉ B ++ P).
    { intros Hin. destruct (circular_lookup _ _ _ _ HcM Hin) as [x Hx]. congruence. }
    split; [|assumption]. rewrite <- HfrM by assumption. exact Hn. }
  assert (Hkeep : forall l, l ∈ B ++ P -> us2 !! l = usM !! l).
  { intros l Hl. rewrite <- Hus2, <- HusL. apply Hold.
    intros Hin. apply (Hfresh l Hin). exact Hl. }
  (* running the code *)
  cbv zeta. maccess.
  rewrite bind_bind. erewrite bind_deref by exact Hulast. cbn beta.
  rewrite bind_bind. erewrite bind_deref by exact HcL. cbn beta. rewrite Hnext. proj.
  rewrite bind_bind. rewrite (bind_Returns _ _ _ _ _ Hrun).
  destruct (newBaseQueueLast w') as [lst|] eqn:Elst.
  - (* updates were skipped: the new base queue is closed *)
    assert (Elast : last cls' = Some lst) by congruence.
    assert (Hlstin : lst ∈ cls').
    { apply last_Some in Elast as (l' & ->). apply elem_of_app. right. left. }
    destruct (linked_lookup _ _ _ _ Hlinked' Hlstin) as [ulst Hulst].
    destruct (newBaseQueue_close _ _ _ _ _ _ Hnbq Elst Hulst) as (Hcc & Hpc).
    assert (Hcl' : cl' <> []).
    { intros ->. apply payloads_nil_inv in Hpay'. subst cls'. inversion Hlstin. }
    unfold markWorkInProgressReceivedUpdate.
    exists (set_didReceiveUpdate
              (if negb (objectIs (newState w') (Hook.memoizedState hh)) then true
               else didReceiveUpdate st1)
              (set_skippedLanes sk
                 (set_fibers
                    (<[f := Fiber.set_lanes
                              (skipLanes (renderLanes st1) (Fiber.lanes F0) ps) F0]>
                       (fibers st1))
                    (set_queues
                       (<[q := UpdateQueue.mk None (UpdateQueue.dispatch Q)
                                 (Some reducer) s']> (queues st1))
                       (set_hooks
                          (<[hook := Hook.mk s'
                                       (match cl' with [] => s' | _ => b' end)
                                       (last cls') (Hook.queue hh) (Hook.next hh)]>
                             (<[c := Hook.set_baseQueue (Some lastU) hc]> (hooks st1)))
                          (set_updates
                             (<[lst := Update.set_next (newBaseQueueFirst w') ulst]>
                                (updates st2)) st1)))))),
      cls', (<[lst := Update.set_next (newBaseQueueFirst w') ulst]> (updates st2)), sk,
      (if negb (objectIs (newState w') (Hook.memoizedState hh)) then true
       else didReceiveUpdate st1).
    split.
    { mrun.
      destruct (negb (objectIs (newState w') (Hook.memoizedState hh)));
        mrun; rewrite Est2; unfold stL, mergedState; proj;
        rewrite ?insert_insert_eq; rewrite ?ElastM, Elast, Hs, Hb;
        destruct cl'; [congruence| |congruence|]; reflexivity. }
    split; [reflexivity|].
    assert (Hlst' : lst ∉ B ++ P) by (apply Hfresh; exact Hlstin).
    split; [|split; [|split; [|split; [|split]]]].
    + eapply circular_ext; [|exact HcM]. intros l Hl.
      rewrite lookup_insert_ne by (intros ->; contradiction).
      rewrite Hus2. apply Hkeep, Hl.
    + eapply payloads_same; [|exact HpsM]. intros l Hl.
      rewrite lookup_insert_ne by (intros ->; contradiction).
      rewrite Hus2. apply Hkeep, Hl.
    + rewrite Elast. exact Hcc.
    + exact Hpc.
    + intros l Hl. apply Hfresh, Hl.
    + intros l Hl1 Hl2.
      rewrite lookup_insert_ne by (intros ->; contradiction).
      rewrite Hold by exact Hl2. rewrite HusL. apply HfrM, Hl1.
  - (* nothing was skipped *)
    assert (Ecls : cls' = []).
    { assert (Elast : last cls' = None) by congruence.
      destruct cls' as [|x cls' _] using rev_ind; [reflexivity|].
      rewrite last_snoc in Elast. discriminate. }
    subst cls'. apply Forall2_nil_inv_l in Hpay'. subst cl'.
    unfold markWorkInProgressReceivedUpdate.
    exists (set_didReceiveUpdate
              (if negb (objectIs (newState w') (Hook.memoizedState hh)) then true
               else didReceiveUpdate st1)
              (set_skippedLanes sk
                 (set_fibers
                    (<[f := Fiber.set_lanes
                              (skipLanes (renderLanes st1) (Fiber.lanes F0) ps) F0]>
                       (fibers st1))
                    (set_queues
                       (<[q := UpdateQueue.mk None (UpdateQueue.dispatch Q)
                                 (Some reducer) s']> (queues st1))
                       (set_hooks
                          (<[hook := Hook.mk s' s' None (Hook.queue hh) (Hook.next hh)]>
                             (<[c := Hook.set_baseQueue (Some lastU) hc]> (hooks st1)))
                          (set_updates (updates st2) st1)))))),
      [], (updates st2), sk,
      (if negb (objectIs (newState w') (Hook.memoizedState hh)) then true
       else didReceiveUpdate st1).
    split.
    { mrun.
      destruct (negb (objectIs (newState w') (Hook.memoizedState hh)));
        mrun; rewrite Est2; unfold stL, mergedState; proj;
        rewrite ?insert_insert_eq; rewrite ?ElastM, Hs; reflexivity. }
    split; [reflexivity|].
    split; [|split; [|split; [|split; [|split]]]].
    + eapply circular_ext; [|exact HcM]. intros l Hl. rewrite Hus2. apply Hkeep, Hl.
    + eapply payloads_same; [|exact HpsM]. intros l Hl. rewrite Hus2. apply Hkeep, Hl.
    + apply circular_nil.
    + constructor.
    + intros l Hl. inversion Hl.
    + intros l Hl1 Hl2. rewrite Hold by exact Hl2. rewrite HusL. apply HfrM, Hl1.
Qed.

(** ** The fold over a queue *)

Lemma process_app reducer s us1 us2 :
  process reducer s (us1 ++ us2)
  = s' ← process reducer s us1; process reducer s' us2.
Proof.
  revert s. induction us1 as [|u us1 IH]; intros s; cbn [process app]; [reflexivity|].
  destruct (applyUpdate reducer s u); cbn [mbind option_bind]; [apply IH|reflexivity].
Qed.

Lemma foldReducer_app reducer s as1 as2 :
  foldReducer reducer s (as1 ++ as2)
  = s' ← foldReducer reducer s as1; foldReducer reducer s' as2.
Proof.
  revert s. induction as1 as [|a as1 IH]; intros s; cbn [foldReducer app]; [reflexivity|].
  destruct (call reducer [s; a]); cbn [mbind option_bind]; [apply IH|reflexivity].
Qed.

Lemma eagerConsistent_app_l s0 ps1 ps2 :
  eagerConsistent s0 (ps1 ++ ps2) -> eagerConsistent s0 ps1.
Proof.
  intros H pre u post f x E. apply (H pre u (post ++ ps2)).
  rewrite E, <- app_assoc. reflexivity.
Qed.

(** With consistent eager states, applying the updates is folding the
    reducer over their actions. *)
Lemma process_foldReducer reducer s0 ps :
  eagerConsistent s0 ps ->
  process reducer s0 ps = foldReducer reducer s0 (map Update.action ps).
Proof.
  induction ps as [|u ps IH] using rev_ind; intros Hc; [reflexivity|].
  rewrite process_app, map_app, foldReducer_app.
  rewrite IH by (eapply eagerConsistent_app_l; exact Hc).
  destruct (foldReducer reducer s0 (map Update.action ps)) as [x|] eqn:Ex;
    cbn [mbind option_bind]; [|reflexivity].
  cbn [process map foldReducer]. unfold applyUpdate.
  destruct (decide (Update.eagerReducer u = Some reducer)) as [Er|Er].
  - rewrite bool_decide_eq_true_2 by exact Er.
    rewrite (Hc ps u [] reducer x eq_refl Er Ex). reflexivity.
  - rewrite bool_decide_eq_false_2 by exact Er. reflexivity.
Qed.

Lemma rebase_all_included reducer lanes ps :
  Forall (fun u => included lanes u = true) ps ->
  forall s b,
    rebase reducer lanes (s, b, []) ps
    = s' ← process reducer s ps; Some (s', b, []).
Proof.
  induction 1 as [|u ps Hu _ IH]; intros s b; cbn [rebase process]; [reflexivity|].
  unfold rebaseStep. rewrite Hu. cbn [negb].
  destruct (applyUpdate reducer s u); cbn [mbind option_bind]; [apply IH|reflexivity].
Qed.

Lemma included_NoLane lanes u : Update.lane u = NoLane -> included lanes u = true.
Proof.
  unfold included, isSubsetOfLanes, NoLane. intros ->.
  rewrite N.land_0_r. reflexivity.
Qed.

Lemma skipLanes_mono renderLanes ps :
  forall lanes, lanes <> NoLanes -> skipLanes renderLanes lanes ps <> NoLanes.
Proof.
  induction ps as [|u ps IH]; intros lanes Hl; cbn [skipLanes]; [exact Hl|].
  apply IH. destruct (included renderLanes u); [exact Hl|].
  unfold mergeLanes, NoLanes in *. intros E. apply N.lor_eq_0_iff in E as [? _].
  contradiction.
Qed.

(** When no lane is left on the fiber after the walk, no update was
    skipped. *)
Lemma skipLanes_NoLanes renderLanes ps :
  skipLanes renderLanes NoLanes ps = NoLanes ->
  Forall (fun u => included renderLanes u = true) ps.
Proof.
  induction ps as [|u ps IH]; cbn [skipLanes]; intros H; constructor.
  - destruct (included renderLanes u) eqn:Einc; [reflexivity|].
    exfalso. revert H. apply skipLanes_mono.
    unfold mergeLanes, NoLanes. intros E. apply N.lor_eq_0_iff in E as [_ E].
    rewrite (included_NoLane renderLanes u E) in Einc. discriminate.
  - apply IH. destruct (included renderLanes u) eqn:Einc; [exact H|].
    exfalso. revert H. apply skipLanes_mono.
    unfold mergeLanes, NoLanes. intros E. apply N.lor_eq_0_iff in E as [_ E].
    rewrite (included_NoLane renderLanes u E) in Einc. discriminate.
Qed.

(** The first hook of an update render is a clone of the first committed
    hook. *)
Lemma updateWorkInProgressHook_first st wip FW cur FC c hc
    (Hf : currentlyRenderingFiber st = Some wip)
    (Hch : currentHook st = None)
    (Hwh : workInProgressHook st = None)
    (HFW : fibers st !! wip = Some FW)
    (Halt : Fiber.alternate FW = Some cur)
    (Hnone : Fiber.memoizedState FW = None)
    (HFC : fibers st !! cur = Some FC)
    (Hc : Fiber.memoizedState FC = Some c)
    (Hhc : hooks st !! c = Some hc) :
  updateWorkInProgressHook st
  = (Returns (freshLoc (hooks st)),
     set_fibers
       (<[wip := Fiber.set_memoizedState (Some (freshLoc (hooks st))) FW]> (fibers st))
       (set_workInProgressHook (Some (freshLoc (hooks st)))
          (set_hooks
             (<[freshLoc (hooks st) :=
                  Hook.mk (Hook.memoizedState hc) (Hook.baseState hc)
                    (Hook.baseQueue hc) (Hook.queue hc) None]> (hooks st))
             (set_currentHook (Some c) st)))).
Proof.
  unfold updateWorkInProgressHook, nextCurrentHook, nextWorkInProgressHook.
  mrun. reflexivity.
Qed.

(** ** A render attempt of the reducer cell *)

Lemma circular_nil_inv us lastUpdate : circular us lastUpdate [] -> lastUpdate = None.
Proof. intros (_ & <- & _). reflexivity. Qed.

Lemma updateReducer_cell fuel reducer initialArg init sA wip FW cur FC c hc q Q B P ps
    s' b' cl'
    (Hf : currentlyRenderingFiber sA = Some wip)
    (Hch : currentHook sA = None)
    (Hwh : workInProgressHook sA = None)
    (HFW : fibers sA !! wip = Some FW)
    (Halt : Fiber.alternate FW = Some cur)
    (Hnone : Fiber.memoizedState FW = None)
    (Hlanes : Fiber.lanes FW = NoLanes)
    (HFC : fibers sA !! cur = Some FC)
    (Hc : Fiber.memoizedState FC = Some c)
    (Hne : cur <> wip)
    (Hhc : hooks sA !! c = Some hc)
    (Hq : Hook.queue hc = Some q)
    (HQ : queues sA !! q = Some Q)
    (HB : circular (updates sA) (Hook.baseQueue hc) B)
    (HP : circular (updates sA) (UpdateQueue.pending Q) P)
    (Hnd : NoDup (B ++ P))
    (Hps : payloads (updates sA) (B ++ P) ps)
    (Hfuel : (length (B ++ P) <= fuel)%nat)
    (Hmem : ps = [] -> Hook.memoizedState hc = Hook.baseState hc)
    (Hreb : rebase reducer (renderLanes sA) (Hook.baseState hc, VNull, []) ps
            = Some (s', b', cl')) :
  exists sB FW',
    updateReducer fuel reducer initialArg init sA
    = (Returns (s', UpdateQueue.dispatch Q), sB)
    /\ hooks sB !! c
       = Some (Hook.set_baseQueue
                 (mergedQueue (Hook.baseQueue hc) (UpdateQueue.pending Q)) hc)
    /\ queues sB !! q
       = Some (UpdateQueue.mk None (UpdateQueue.dispatch Q) (Some reducer)
                 (match ps with [] => UpdateQueue.lastRenderedState Q | _ => s' end))
    /\ circular (updates sB)
         (mergedQueue (Hook.baseQueue hc) (UpdateQueue.pending Q)) (B ++ P)
    /\ payloads (updates sB) (B ++ P) ps
    /\ fibers sB !! cur = Some FC
    /\ fibers sB !! wip = Some FW'
    /\ Fiber.alternate FW' = Some cur
    /\ Fiber.lanes FW' = skipLanes (renderLanes sA) NoLanes ps
    /\ currentHook sB = Some c
    /\ didScheduleRenderPhaseUpdateDuringThisPass sB
       = didScheduleRenderPhaseUpdateDuringThisPass sA.
Proof.
  pose proof (updateWorkInProgressHook_first sA wip FW cur FC c hc
                Hf Hch Hwh HFW Halt Hnone HFC Hc Hhc) as Hhook.
  set (h := freshLoc (hooks sA)) in *.
  assert (Hhne : h <> c) by (eapply freshLoc_ne; exact Hhc).
  match type of Hhook with _ = (_, ?s) => set (st1 := s) in * end.
  assert (Hhh : hooks st1 !! h = Some (Hook.mk (Hook.memoizedState hc) (Hook.baseState hc)
                                         (Hook.baseQueue hc) (Hook.queue hc) None)).
  { unfold st1. proj. apply lookup_insert_eq. }
  assert (Hcur1 : currentHook st1 = Some c) by reflexivity.
  assert (Hhc1 : hooks st1 !! c = Some hc).
  { unfold st1. proj. rewrite lookup_insert_ne by exact Hhne. exact Hhc. }
  assert (HQ1 : queues st1 !! q = Some Q) by exact HQ.
  assert (Hf1 : currentlyRenderingFiber st1 = Some wip) by exact Hf.
  assert (HF1 : fibers st1 !! wip = Some (Fiber.set_memoizedState (Some h) FW)).
  { unfold st1. proj. apply lookup_insert_eq. }
  assert (HFC1 : fibers st1 !! cur = Some FC).
  { unfold st1. proj. rewrite lookup_insert_ne by congruence. exact HFC. }
  destruct (decide (B ++ P = [])) as [Hnil|Hnonnil].
  - (* no update to process *)
    apply app_eq_nil in Hnil as [-> ->].
    pose proof (circular_nil_inv _ _ HB) as EB.
    pose proof (circular_nil_inv _ _ HP) as EP.
    apply Forall2_nil_inv_l in Hps as ->. cbn in Hreb. injection Hreb as <- <- <-.
    rewrite (updateReducer_merge fuel reducer initialArg init sA h st1 _ c hc q Q [] []
               Hhook Hhh Hcur1 Hhc1 Hq HQ1 HB HP Hnd).
    rewrite EB, EP. cbn [mergedQueue]. unfold mergedState, mergedUpdates.
    rewrite EB, EP. mrun.
    eexists _, _. split; [rewrite Hmem by reflexivity; reflexivity|]. proj.
    rewrite !lookup_insert_eq.
    split; [reflexivity|]. split; [reflexivity|]. split; [apply circular_nil|].
    split; [constructor|]. split; [exact HFC1|]. split; [exact HF1|].
    proj. rewrite Hlanes. auto.
  - destruct (updateReducer_spec fuel reducer initialArg init sA h st1 _ c hc q Q B P ps
                wip (Fiber.set_memoizedState (Some h) FW) s' b' cl'
                Hhook Hhh Hcur1 Hhc1 Hhne Hq HQ1 HB HP Hnd Hnonnil Hps Hf1 HF1 Hfuel Hreb)
      as (sB & cls' & us' & sk & dr & Hrun & EsB & HcM & HpsM & _).
    exists sB, (Fiber.set_lanes (skipLanes (renderLanes sA) NoLanes ps)
                  (Fiber.set_memoizedState (Some h) FW)).
    split; [exact Hrun|]. rewrite EsB. proj.
    rewrite lookup_insert_ne by congruence. rewrite !lookup_insert_eq.
    rewrite lookup_insert_ne by congruence. rewrite Hlanes.
    assert (Eps : match ps with [] => UpdateQueue.lastRenderedState Q | _ => s' end = s').
    { destruct ps; [|reflexivity]. apply payloads_nil_inv in Hps. contradiction. }
    rewrite Eps. auto 12.
Qed.

(** When the reducer throws on an update that the render applies, the error
    leaves [updateReducer]. *)
Lemma updateReducer_throws fuel reducer initialArg init st hook st1 hh c hc q Q B P ps f F0
    (Hhook : updateWorkInProgressHook st = (Returns hook, st1))
    (Hhh : hooks st1 !! hook = Some hh)
    (Hcur : currentHook st1 = Some c)
    (Hhc : hooks st1 !! c = Some hc)
    (Hne : hook <> c)
    (Hq : Hook.queue hh = Some q)
    (HQ : queues st1 !! q = Some Q)
    (HB : circular (updates st1) (Hook.baseQueue hc) B)
    (HP : circular (updates st1) (UpdateQueue.pending Q) P)
    (Hnd : NoDup (B ++ P))
    (Hnonempty : B ++ P <> [])
    (Hps : payloads (updates st1) (B ++ P) ps)
    (Hf : currentlyRenderingFiber st1 = Some f)
    (HF : fibers st1 !! f = Some F0)
    (Hfuel : (length (B ++ P) <= fuel)%nat)
    (Hreb : rebase reducer (renderLanes st1) (Hook.baseState hc, VNull, []) ps = None) :
  exists st',
    updateReducer fuel reducer initialArg init st = (Throws UserError, st').
Proof.
  rewrite (updateReducer_merge _ _ _ _ _ _ _ _ _ _ _ _ _ _
             Hhook Hhh Hcur Hhc Hq HQ HB HP Hnd).
  destruct (mergedUpdates_circular _ _ _ _ _ HB HP Hnd) as (HcM & HpayM & HfrM).
  set (stL := mergedState reducer c hc q Q st1).
  set (usM := mergedUpdates (updates st1) (Hook.baseQueue hc) (UpdateQueue.pending Q)) in *.
  assert (HpsM : payloads usM (B ++ P) ps).
  { eapply payloads_ext; [|exact Hps]. intros l _. apply HpayM. }
  assert (HcL : hooks stL !! c
                = Some (Hook.set_baseQueue
                          (mergedQueue (Hook.baseQueue hc) (UpdateQueue.pending Q)) hc)).
  { unfold stL, mergedState. proj. apply lookup_insert_eq. }
  assert (HfL : currentlyRenderingFiber stL = Some f) by exact Hf.
  assert (HFL : fibers stL !! f = Some F0) by exact HF.
  assert (HrlL : renderLanes stL = renderLanes st1) by reflexivity.
  destruct (mergedQueue (Hook.baseQueue hc) (UpdateQueue.pending Q))
    as [lastU|] eqn:ElastM.
  2:{ apply circular_None in HcM. contradiction. }
  destruct (circular_Some _ _ _ HcM) as (L' & first & ulast & EL & Hhead & Hulast & Hnext & _).
  pose proof HcM as (_ & _ & HlM). rewrite Hhead in HlM.
  pose proof (updateReducer_loop_spec reducer stL f F0 (Some first) HfL (B ++ P) ps fuel stL
    (mkWalk (Hook.baseState hc) VNull None None) [] [] (Fiber.lanes F0) (Some first)
    Hnonempty (state_walkFrame _ _ _ HFL)) as Hloop.
  cbn [newState newBaseState] in Hloop. rewrite HrlL, Hreb, Hhead in Hloop.
  destruct Hloop as (st2 & cls' & lanes' & Hrun & _); auto.
  { repeat split; try constructor. }
  { rewrite <- Hhead. eapply circular_tail_first, HcM. }
  exists st2.
  cbv zeta. maccess.
  rewrite bind_bind. erewrite bind_deref by exact Hulast. cbn beta.
  rewrite bind_bind. erewrite bind_deref by exact HcL. cbn beta. rewrite Hnext. proj.
  rewrite bind_bind. apply bind_Throws. exact Hrun.
Qed.

(** ** A dispatch to the reducer cell *)

Lemma linked_alter us ls tgt (g : Update.t -> Update.t) l :
  (forall u, Update.next (g u) = Update.next u) ->
  linked us ls tgt -> linked (alter g l us) ls tgt.
Proof.
  intros Hg. revert tgt. induction ls as [|a ls IH]; intros tgt; cbn; [auto|].
  intros [(u & Hu & Hn) Hrest]. split; [|apply IH, Hrest].
  destruct (decide (l = a)) as [->|Hne].
  - exists (g u). rewrite lookup_alter_eq, Hu. split; [reflexivity|].
    rewrite Hg. exact Hn.
  - exists u. rewrite lookup_alter_ne by exact Hne. auto.
Qed.

Lemma circular_alter us lastUpdate ls (g : Update.t -> Update.t) l :
  (forall u, Update.next (g u) = Update.next u) ->
  circular us lastUpdate ls -> circular (alter g l us) lastUpdate ls.
Proof.
  intros Hg (Hnd & Hlast & Hl). repeat split; auto. apply linked_alter; assumption.
Qed.

Lemma payloadAt_alter us (g : Update.t -> Update.t) l l' :
  (forall u, Update.set_next None (g u) = g (Update.set_next None u)) ->
  payloadAt (alter g l us) l'
  = if decide (l = l') then g <$> payloadAt us l' else payloadAt us l'.
Proof.
  intros Hg. unfold payloadAt. destruct (decide (l = l')) as [->|Hne].
  - rewrite lookup_alter_eq. destruct (us !! l'); cbn; [|reflexivity].
    rewrite Hg. reflexivity.
  - rewrite lookup_alter_ne by exact Hne. reflexivity.
Qed.

(** The updates of the cell after a dispatch: the base queue is as it was,
    and the new update is the last one of the pending queue. *)
Lemma dispatched_updates us lastB B pending P ps lane action
    (g : Update.t -> Update.t) :
  circular us lastB B ->
  circular us pending P ->
  NoDup (B ++ P) ->
  payloads us (B ++ P) ps ->
  (forall u, Update.next (g u) = Update.next u) ->
  (forall u, Update.set_next None (g u) = g (Update.set_next None u)) ->
  let us' := alter g (freshLoc us)
               (enqueued us pending (Update.mk lane action None VNull None)) in
  circular us' lastB B
  /\ circular us' (Some (freshLoc us)) (P ++ [freshLoc us])
  /\ NoDup (B ++ P ++ [freshLoc us])
  /\ payloads us' (B ++ P ++ [freshLoc us])
       (ps ++ [g (Update.mk lane action None VNull None)]).
Proof.
  intros HB HP Hnd Hps Hg1 Hg2 us'.
  destruct (enqueued_circular us pending P (Update.mk lane action None VNull None)
              HP eq_refl) as (Hc & Hsame & Hnew & Hframe & HfP).
  set (c := freshLoc us) in *.
  assert (HfB : c ∉ B).
  { intros Hin. destruct (circular_lookup _ _ _ _ HB Hin) as [x Hx].
    unfold c in Hx. rewrite freshLoc_None in Hx. discriminate. }
  assert (Hdisj : forall l, l ∈ B -> l ∉ P).
  { intros l HlB HlP. apply NoDup_app in Hnd as (_ & Hd & _). exact (Hd l HlB HlP). }
  split; [|split; [|split]].
  - apply circular_alter; [exact Hg1|].
    eapply circular_ext; [|exact HB]. intros l Hl.
    apply Hframe; [apply Hdisj, Hl|]. intros ->. contradiction.
  - apply circular_alter; [exact Hg1|exact Hc].
  - rewrite app_assoc. apply NoDup_app. split; [exact Hnd|]. split.
    + intros l Hl Hin. apply list_elem_of_singleton in Hin as ->.
      apply elem_of_app in Hl as [Hl|Hl]; contradiction.
    + apply NoDup_singleton.
  - rewrite app_assoc. apply Forall2_app.
    + eapply payloads_ext; [|exact Hps]. intros l Hl.
      assert (Hlc : c <> l).
      { intros <-. apply elem_of_app in Hl as [Hl|Hl]; contradiction. }
      unfold us'. rewrite payloadAt_alter by exact Hg2.
      destruct (decide (c = l)); [contradiction|].
      apply elem_of_app in Hl as [Hl|Hl].
      * unfold payloadAt. rewrite Hframe; [reflexivity|apply Hdisj, Hl|congruence].
      * apply Hsame, Hl.
    + constructor; [|constructor].
      unfold us'. rewrite payloadAt_alter by exact Hg2.
      destruct (decide (c = c)); [|congruence]. rewrite Hnew. reflexivity.
Qed.

Lemma eagerConsistent_snoc s0 ps u :
  eagerConsistent s0 ps ->
  (forall f x, Update.eagerReducer u = Some f ->
     foldReducer f s0 (map Update.action ps) = Some x ->
     call f [x; Update.action u] = Some (Update.eagerState u)) ->
  eagerConsistent s0 (ps ++ [u]).
Proof.
  intros Hec Hu pre u0 post f x Heq Hf Hfold.
  destruct post as [|z post _] using rev_ind.
  - apply app_inj_tail in Heq as [-> ->]. eapply Hu; eassumption.
  - change (pre ++ u0 :: post ++ [z]) with (pre ++ (u0 :: post) ++ [z]) in Heq.
    rewrite app_assoc in Heq. apply app_inj_tail in Heq as [-> ->].
    eapply Hec; [reflexivity|eassumption|eassumption].
Qed.

Lemma markedFibers_pair fs x X y Y lane :
  x <> y -> fs !! x = Some X -> fs !! y = Some Y -> Fiber.alternate X = Some y ->
  markedFibers fs x X lane !! x
  = Some (Fiber.set_lanes (mergeLanes (Fiber.lanes X) lane) X)
  /\ markedFibers fs x X lane !! y
     = Some (Fiber.set_lanes (mergeLanes (Fiber.lanes Y) lane) Y).
Proof.
  intros Hne HX HY Ha. unfold markedFibers. rewrite Ha.
  rewrite lookup_insert_ne by exact Hne. rewrite HY.
  rewrite lookup_insert_eq, lookup_insert_ne by congruence.
  rewrite lookup_insert_eq. auto.
Qed.

Lemma mergeLanes_NoLanes a lane : lane <> NoLane -> mergeLanes a lane <> NoLanes.
Proof.
  unfold mergeLanes, NoLane, NoLanes. intros Hl H.
  apply N.lor_eq_0_iff in H as [_ H]. contradiction.
Qed.

Lemma dispatch_pair eventTime lane x y q action st X Y lastB Q B P ps s0
    (Hxy : x <> y)
    (HX : fibers st !! x = Some X)
    (HY : fibers st !! y = Some Y)
    (HaX : Fiber.alternate X = Some y)
    (HQ : queues st !! q = Some Q)
    (HB : circular (updates st) lastB B)
    (HP : circular (updates st) (UpdateQueue.pending Q) P)
    (Hnd : NoDup (B ++ P))
    (Hps : payloads (updates st) (B ++ P) ps)
    (Hec : eagerConsistent s0 ps)
    (Hinv : Fiber.lanes X = NoLanes -> Fiber.lanes Y = NoLanes ->
            forall f v, UpdateQueue.lastRenderedReducer Q = Some f ->
              foldReducer f s0 (map Update.action ps) = Some v ->
              v = UpdateQueue.lastRenderedState Q)
    (Hcrf : currentlyRenderingFiber st = None)
    (Hlane : lane <> NoLane) :
  exists st' u lx ly,
    dispatchAction eventTime lane x q action st = (Returns tt, st')
    /\ hooks st' = hooks st
    /\ queues st'
       = <[q := UpdateQueue.set_pending (Some (freshLoc (updates st))) Q]> (queues st)
    /\ fibers st' !! x = Some (Fiber.set_lanes lx X)
    /\ fibers st' !! y = Some (Fiber.set_lanes ly Y)
    /\ circular (updates st') lastB B
    /\ circular (updates st') (Some (freshLoc (updates st))) (P ++ [freshLoc (updates st)])
    /\ NoDup (B ++ P ++ [freshLoc (updates st)])
    /\ payloads (updates st') (B ++ P ++ [freshLoc (updates st)]) (ps ++ [u])
    /\ Update.lane u = lane
    /\ Update.action u = action
    /\ eagerConsistent s0 (ps ++ [u])
    /\ (lx = NoLanes -> ly = NoLanes ->
        forall f v, UpdateQueue.lastRenderedReducer Q = Some f ->
          foldReducer f s0 (map Update.action (ps ++ [u])) = Some v ->
          v = UpdateQueue.lastRenderedState Q)
    /\ currentlyRenderingFiber st' = None
    /\ currentHook st' = currentHook st
    /\ workInProgressHook st' = workInProgressHook st
    /\ didScheduleRenderPhaseUpdateDuringThisPass st'
       = didScheduleRenderPhaseUpdateDuringThisPass st.
Proof.
  assert (Halt : alternateLive st X).
  { unfold alternateLive. rewrite HaX, HY. eauto. }
  assert (Hout : isRenderPhaseUpdate st x X = false).
  { unfold isRenderPhaseUpdate. rewrite Hcrf, HaX. bdec. reflexivity. }
  rewrite (dispatchAction_outside _ _ _ _ _ _ _ _ _ HQ HP HX Halt Hout).
  set (new := Update.mk lane action None VNull None).
  destruct (markedFibers_pair (fibers st) x X y Y lane Hxy HX HY HaX) as [HmX HmY].
  (* the update is scheduled, with or without an eager state *)
  assert (Hsched : forall g : Update.t -> Update.t,
    (forall u, Update.next (g u) = Update.next u) ->
    (forall u, Update.set_next None (g u) = g (Update.set_next None u)) ->
    (forall u, Update.lane (g u) = Update.lane u) ->
    (forall u, Update.action (g u) = Update.action u) ->
    (forall f v, Update.eagerReducer (g new) = Some f ->
       foldReducer f s0 (map Update.action ps) = Some v ->
       call f [v; action] = Some (Update.eagerState (g new))) ->
    forall st2,
      st2 = set_updates (alter g (freshLoc (updates st))
                           (updates (enqueuedState q Q lane action st)))
              (enqueuedState q Q lane action st) ->
      exists st' u lx ly,
        (Returns tt, scheduledState x X lane eventTime st2) = (Returns tt, st')
        /\ hooks st' = hooks st
        /\ queues st'
           = <[q := UpdateQueue.set_pending (Some (freshLoc (updates st))) Q]> (queues st)
        /\ fibers st' !! x = Some (Fiber.set_lanes lx X)
        /\ fibers st' !! y = Some (Fiber.set_lanes ly Y)
        /\ circular (updates st') lastB B
        /\ circular (updates st') (Some (freshLoc (updates st)))
             (P ++ [freshLoc (updates st)])
        /\ NoDup (B ++ P ++ [freshLoc (updates st)])
        /\ payloads (updates st') (B ++ P ++ [freshLoc (updates st)]) (ps ++ [u])
        /\ Update.lane u = lane
        /\ Update.action u = action
        /\ eagerConsistent s0 (ps ++ [u])
        /\ (lx = NoLanes -> ly = NoLanes ->
            forall f v, UpdateQueue.lastRenderedReducer Q = Some f ->
              foldReducer f s0 (map Update.action (ps ++ [u])) = Some v ->
              v = UpdateQueue.lastRenderedState Q)
        /\ currentlyRenderingFiber st' = None
        /\ currentHook st' = currentHook st
        /\ workInProgressHook st' = workInProgressHook st
        /\ didScheduleRenderPhaseUpdateDuringThisPass st'
           = didScheduleRenderPhaseUpdateDuringThisPass st).
  { intros g Hg1 Hg2 Hg3 Hg4 Hg5 st2 ->.
    destruct (dispatched_updates (updates st) lastB B (UpdateQueue.pending Q) P ps
                lane action g HB HP Hnd Hps Hg1 Hg2) as (HB' & HP' & Hnd' & Hps').
    eexists _, (g new), (mergeLanes (Fiber.lanes X) lane), (mergeLanes (Fiber.lanes Y) lane).
    split; [reflexivity|].
    unfold scheduledState, enqueuedState. proj.
    split; [reflexivity|]. split; [reflexivity|].
    split; [exact HmX|]. split; [exact HmY|].
    split; [exact HB'|]. split; [exact HP'|]. split; [exact Hnd'|]. split; [exact Hps'|].
    split; [rewrite Hg3; reflexivity|]. split; [rewrite Hg4; reflexivity|].
    split.
    { apply eagerConsistent_snoc; [exact Hec|]. intros f v Hf Hfold.
      rewrite Hg4. cbn [Update.action new]. eapply Hg5; eassumption. }
    split.
    { intros Hlx. exfalso. exact (mergeLanes_NoLanes _ _ Hlane Hlx). }
    auto. }
  assert (Hid : forall st1 : State,
    st1 = set_updates (alter id (freshLoc (updates st)) (updates st1)) st1).
  { intros st1. rewrite alter_id by reflexivity. destruct st1; reflexivity. }
  unfold dispatchedState.
  destruct (drained st X) eqn:Edr.
  2:{ apply (Hsched id); [intros; reflexivity..|intros f v H; discriminate H|apply Hid]. }
  destruct (UpdateQueue.lastRenderedReducer Q) as [r|] eqn:Er.
  2:{ apply (Hsched id); [intros; reflexivity..|intros f v H; discriminate H|apply Hid]. }
  destruct (call r [UpdateQueue.lastRenderedState Q; action]) as [e|] eqn:Ecall.
  2:{ apply (Hsched id); [intros; reflexivity..|intros f v H; discriminate H|apply Hid]. }
  assert (Hl : Fiber.lanes X = NoLanes /\ Fiber.lanes Y = NoLanes).
  { unfold drained in Edr. rewrite HaX, HY in Edr.
    apply andb_prop in Edr as [H1 H2]. apply N.eqb_eq in H1, H2. auto. }
  destruct Hl as [HlX HlY].
  assert (Heager : forall f v, Update.eagerReducer (Update.set_eager (Some r) e new) = Some f ->
            foldReducer f s0 (map Update.action ps) = Some v ->
            call f [v; action] = Some (Update.eagerState (Update.set_eager (Some r) e new))).
  { cbn. intros f v [= <-] Hfold.
    rewrite (Hinv HlX HlY r v eq_refl Hfold). exact Ecall. }
  destruct (objectIs e (UpdateQueue.lastRenderedState Q)) eqn:Eis.
  2:{ apply (Hsched (Update.set_eager (Some r) e));
        [intros; reflexivity..|exact Heager|reflexivity]. }
  (* the eager state is the current state: nothing is scheduled *)
  cbv zeta.
  destruct (dispatched_updates (updates st) lastB B (UpdateQueue.pending Q) P ps
              lane action (Update.set_eager (Some r) e) HB HP Hnd Hps)
    as (HB' & HP' & Hnd' & Hps'); [reflexivity|reflexivity|].
  eexists _, (Update.set_eager (Some r) e new), (Fiber.lanes X), (Fiber.lanes Y).
  split; [reflexivity|]. unfold enqueuedState. proj.
  split; [reflexivity|]. split; [reflexivity|].
  split; [rewrite HX; destruct X; reflexivity|].
  split; [rewrite HY; destruct Y; reflexivity|].
  split; [exact HB'|]. split; [exact HP'|]. split; [exact Hnd'|]. split; [exact Hps'|].
  split; [reflexivity|]. split; [reflexivity|].
  split.
  { apply eagerConsistent_snoc; [exact Hec|]. exact Heager. }
  split; [|auto].
  intros _ _ f v [= <-] Hfold.
  rewrite map_app, foldReducer_app in Hfold. cbn in Hfold.
  destruct (foldReducer r s0 (map Update.action ps)) as [w|] eqn:Ew; [|discriminate].
  cbn in Hfold. rewrite (Hinv HlX HlY r w eq_refl Ew), Ecall in Hfold.
  cbn in Hfold. injection Hfold as <-.
  unfold objectIs in Eis. apply bool_decide_eq_true_1 in Eis. exact Eis.
Qed.

Lemma dispatch_cell eventTime lane fiber action current workInProgress c q s0 ps st :
  cellInv current workInProgress c q s0 ps st ->
  lane <> NoLane ->
  fiber = current \/ fiber = workInProgress ->
  exists st' u,
    dispatchAction eventTime lane fiber q action st = (Returns tt, st')
    /\ Update.lane u = lane
    /\ Update.action u = action
    /\ cellInv current workInProgress c q s0 (ps ++ [u]) st'.
Proof.
  intros (FC & FW & hc & Q & B & P & Hne & HFC & HaC & HmC & HFW & HaW & Hhc & Hms & Hbs
          & Hq & HQ & HB & HP & Hnd & Hps & Hec & Hinv & Hnil & Hcrf & Hch & Hwh & Hflag)
         Hlane Hfiber.
  destruct Hfiber as [-> | ->].
  - destruct (dispatch_pair eventTime lane current workInProgress q action st FC FW
                (Hook.baseQueue hc) Q B P ps s0 Hne HFC HFW HaC HQ HB HP Hnd Hps Hec Hinv
                Hcrf Hlane)
      as (st' & u & lx & ly & Hrun & Hh' & Hq' & HFC' & HFW' & HB' & HP' & Hnd' & Hps'
          & Hul & Hua & Hec' & Hinv' & Hcrf' & Hch' & Hwh' & Hflag').
    exists st', u. split; [exact Hrun|]. split; [exact Hul|]. split; [exact Hua|].
    exists (Fiber.set_lanes lx FC), (Fiber.set_lanes ly FW), hc,
      (UpdateQueue.set_pending (Some (freshLoc (updates st))) Q), B,
      (P ++ [freshLoc (updates st)]).
    rewrite Hh', Hq', lookup_insert_eq, Hcrf', Hch', Hwh', Hflag'.
    rewrite ?app_assoc in *.
    repeat match goal with |- _ /\ _ => split end; try assumption; try reflexivity.
    + intros Habs. destruct ps; discriminate Habs.
  - assert (Hne' : workInProgress <> current) by congruence.
    assert (Hinv0 : Fiber.lanes FW = NoLanes -> Fiber.lanes FC = NoLanes ->
              forall f v, UpdateQueue.lastRenderedReducer Q = Some f ->
                foldReducer f s0 (map Update.action ps) = Some v ->
                v = UpdateQueue.lastRenderedState Q).
    { intros H1 H2. exact (Hinv H2 H1). }
    destruct (dispatch_pair eventTime lane workInProgress current q action st FW FC
                (Hook.baseQueue hc) Q B P ps s0 Hne' HFW HFC HaW HQ HB HP Hnd Hps Hec Hinv0
                Hcrf Hlane)
      as (st' & u & lx & ly & Hrun & Hh' & Hq' & HFW' & HFC' & HB' & HP' & Hnd' & Hps'
          & Hul & Hua & Hec' & Hinv' & Hcrf' & Hch' & Hwh' & Hflag').
    exists st', u. split; [exact Hrun|]. split; [exact Hul|]. split; [exact Hua|].
    exists (Fiber.set_lanes ly FC), (Fiber.set_lanes lx FW), hc,
      (UpdateQueue.set_pending (Some (freshLoc (updates st))) Q), B,
      (P ++ [freshLoc (updates st)]).
    rewrite Hh', Hq', lookup_insert_eq, Hcrf', Hch', Hwh', Hflag'.
    rewrite ?app_assoc in *.
    repeat match goal with |- _ /\ _ => split end; try assumption; try reflexivity.
    + intros ? ?. apply Hinv'; assumption.
    + intros Habs. destruct ps; discriminate Habs.
Qed.

Lemma updateReducer_cell_throws fuel reducer initialArg init sA wip FW cur FC c hc q Q B P ps
    (Hf : currentlyRenderingFiber sA = Some wip)
    (Hch : currentHook sA = None)
    (Hwh : workInProgressHook sA = None)
    (HFW : fibers sA !! wip = Some FW)
    (Halt : Fiber.alternate FW = Some cur)
    (Hnone : Fiber.memoizedState FW = None)
    (HFC : fibers sA !! cur = Some FC)
    (Hc : Fiber.memoizedState FC = Some c)
    (Hne : cur <> wip)
    (Hhc : hooks sA !! c = Some hc)
    (Hq : Hook.queue hc = Some q)
    (HQ : queues sA !! q = Some Q)
    (HB : circular (updates sA) (Hook.baseQueue hc) B)
    (HP : circular (updates sA) (UpdateQueue.pending Q) P)
    (Hnd : NoDup (B ++ P))
    (Hps : payloads (updates sA) (B ++ P) ps)
    (Hfuel : (length (B ++ P) <= fuel)%nat)
    (Hreb : rebase reducer (renderLanes sA) (Hook.baseState hc, VNull, []) ps = None) :
  exists sB,
    updateReducer fuel reducer initialArg init sA = (Throws UserError, sB).
Proof.
  pose proof (updateWorkInProgressHook_first sA wip FW cur FC c hc
                Hf Hch Hwh HFW Halt Hnone HFC Hc Hhc) as Hhook.
  set (h := freshLoc (hooks sA)) in *.
  assert (Hhne : h <> c) by (eapply freshLoc_ne; exact Hhc).
  match type of Hhook with _ = (_, ?s) => set (st1 := s) in * end.
  assert (Hhh : hooks st1 !! h = Some (Hook.mk (Hook.memoizedState hc) (Hook.baseState hc)
                                         (Hook.baseQueue hc) (Hook.queue hc) None)).
  { unfold st1. proj. apply lookup_insert_eq. }
  assert (Hcur1 : currentHook st1 = Some c) by reflexivity.
  assert (Hhc1 : hooks st1 !! c = Some hc).
  { unfold st1. proj. rewrite lookup_insert_ne by exact Hhne. exact Hhc. }
  assert (HQ1 : queues st1 !! q = Some Q) by exact HQ.
  assert (Hf1 : currentlyRenderingFiber st1 = Some wip) by exact Hf.
  assert (HF1 : fibers st1 !! wip = Some (Fiber.set_memoizedState (Some h) FW)).
  { unfold st1. proj. apply lookup_insert_eq. }
  assert (Hnonnil : B ++ P <> []).
  { intros Hnil. rewrite Hnil in Hps. apply Forall2_nil_inv_l in Hps as ->.
    discriminate Hreb. }
  eapply (updateReducer_throws fuel reducer initialArg init sA h st1 _ c hc q Q B P ps
            wip (Fiber.set_memoizedState (Some h) FW)); eassumption.
Qed.

(** A render attempt of the component at the cell: the result is that of
    the rebase over the updates dispatched so far, and the cell still holds
    all of them. *)
Lemma render_cell fuel reducer lanes current workInProgress c q s0 ps st :
  cellInv current workInProgress c q s0 ps st ->
  (length ps <= fuel)%nat ->
  match rebase reducer lanes (s0, VNull, []) ps with
  | Some (s', _, _) =>
      exists st',
        renderWithHooks fuel (Some current) workInProgress
          (reducerComponent fuel reducer) VUndefined VUndefined lanes st
        = (Returns s', st')
        /\ cellInv current workInProgress c q s0 ps st'
  | None =>
      exists st',
        renderWithHooks fuel (Some current) workInProgress
          (reducerComponent fuel reducer) VUndefined VUndefined lanes st
        = (Throws UserError, st')
  end.
Proof.
  intros (FC & FW & hc & Q & B & P & Hne & HFC & HaC & HmC & HFW & HaW & Hhc & Hms & Hbs
          & Hq & HQ & HB & HP & Hnd & Hps & Hec & Hinv & Hnil & Hcrf & Hch & Hwh & Hflag)
         Hfuel.
  assert (Hcur : Some current <> Some workInProgress) by congruence.
  assert (Hmount : isMount st (Some current) false).
  { exists FC. split; [exact HFC|]. rewrite HmC. symmetry. bdec. reflexivity. }
  rewrite (renderWithHooks_start _ _ _ _ _ _ _ _ _ _ HFW Hcur Hmount).
  set (sA := renderStart workInProgress FW false lanes st).
  set (FW0 := Fiber.set_lanes NoLanes
                (Fiber.set_updateQueue None (Fiber.set_memoizedState None FW))).
  assert (HFWA : fibers sA !! workInProgress = Some FW0).
  { unfold sA, renderStart. proj. apply lookup_insert_eq. }
  assert (HFCA : fibers sA !! current = Some FC).
  { unfold sA, renderStart. proj. rewrite lookup_insert_ne by congruence. exact HFC. }
  assert (Hlen : length (B ++ P) = length ps) by (eapply payloads_length, Hps).
  assert (Hfuel' : (length (B ++ P) <= fuel)%nat) by lia.
  assert (Hmem : ps = [] -> Hook.memoizedState hc = Hook.baseState hc) by congruence.
  assert (Hdisp : currentDispatcher sA = HooksDispatcherOnUpdate) by reflexivity.
  unfold reducerComponent, useReducer.
  rewrite !bind_bind, bind_gets, Hdisp.
  destruct (rebase reducer lanes (s0, VNull, []) ps) as [[[s' b'] cl']|] eqn:Ereb.
  - destruct (updateReducer_cell fuel reducer VUndefined None sA workInProgress FW0
                current FC c hc q Q B P ps s' b' cl')
      as (sB & FW' & Hrun & HhcB & HQB & HcB & HpsB & HFCB & HFWB & HaW' & HlW' & HchB
          & HflagB); try assumption; try reflexivity.
    { rewrite Hbs. exact Ereb. }
    rewrite (bind_Returns _ _ _ _ _ Hrun). rewrite bind_ret, bind_gets.
    cbn [fst]. rewrite HflagB. change (didScheduleRenderPhaseUpdateDuringThisPass sA)
      with (didScheduleRenderPhaseUpdateDuringThisPass st). rewrite Hflag, bind_ret.
    rewrite renderWithHooks_end.
    2:{ unfold currentHookLive. rewrite HchB, HhcB. eauto. }
    eexists. split; [reflexivity|].
    exists FC, FW', (Hook.set_baseQueue
                       (mergedQueue (Hook.baseQueue hc) (UpdateQueue.pending Q)) hc),
      (UpdateQueue.mk None (UpdateQueue.dispatch Q) (Some reducer)
         (match ps with [] => UpdateQueue.lastRenderedState Q | _ => s' end)),
      (B ++ P), [].
    unfold renderEnd. proj. rewrite app_nil_r.
    repeat match goal with |- _ /\ _ => split end; try assumption; try reflexivity.
    + apply circular_nil.
    + intros HlC HlW f x [= <-] Hfold.
      destruct ps as [|p ps'].
      { cbn in Hfold. injection Hfold as <-. symmetry. apply Hnil. reflexivity. }
      change (renderLanes sA) with lanes in HlW'. rewrite HlW' in HlW.
      apply skipLanes_NoLanes in HlW.
      rewrite (rebase_all_included _ _ _ HlW) in Ereb.
      rewrite (process_foldReducer _ _ _ Hec), Hfold in Ereb. cbn in Ereb.
      congruence.
    + intros ->. auto.
    + rewrite HflagB. exact Hflag.
  - destruct (updateReducer_cell_throws fuel reducer VUndefined None sA workInProgress FW0
                current FC c hc q Q B P ps) as (sB & Hrun); try assumption; try reflexivity.
    { rewrite Hbs. exact Ereb. }
    exists sB. apply bind_Throws. exact Hrun.
Qed.

Lemma idleCell_cellInv st current workInProgress c q s0 :
  idleCell st current workInProgress c q s0 ->
  cellInv current workInProgress c q s0 [] st.
Proof.
  intros (FC & FW & hc & Q & Hne & HFC & HaC & HmC & HFW & HaW & Hhc & Hms & Hbs & Hbq
          & Hq & HQ & Hp & Hlrs & Hcrf & Hch & Hwh & Hflag).
  exists FC, FW, hc, Q, [], [].
  rewrite Hbq, Hp. cbn [app].
  repeat match goal with |- _ /\ _ => split end; try assumption; try reflexivity.
  - apply circular_nil.
  - apply circular_nil.
  - constructor.
  - constructor.
  - intros pre u post f x Heq. destruct pre; discriminate Heq.
  - intros _ _ f x _ [= <-]. symmetry. exact Hlrs.
  - intros _. exact Hlrs.
Qed.

(** The cell along a history: it holds the updates of the dispatches, in
    order. *)
Lemma runEvents_cell fuel current workInProgress c q s0 lanes :
  forall es ps st st',
    cellInv current workInProgress c q s0 ps st ->
    Forall (eventOk current workInProgress lanes) es ->
    (length ps + length es <= fuel)%nat ->
    runEvents fuel current workInProgress q es st = (Returns tt, st') ->
    exists ps',
      cellInv current workInProgress c q s0 (ps ++ ps') st'
      /\ map Update.action ps' = map snd (dispatchesOf es)
      /\ Forall (fun u => included lanes u = true) ps'
      /\ (length (ps ++ ps') <= fuel)%nat.
Proof.
  induction es as [|e es IH]; intros ps st st' Hinv Hok Hfuel Hrun.
  - cbn in Hrun. injection Hrun as <-. exists []. rewrite app_nil_r.
    cbn in Hfuel. split; [exact Hinv|]. split; [reflexivity|]. split; [constructor|lia].
  - inversion Hok as [|? ? He Hes]; subst. cbn [length] in Hfuel.
    cbn [runEvents] in Hrun. destruct e as [eventTime lane fiber action|rl r].
    + destruct He as (Hlane & Hsub & Hfiber).
      destruct (dispatch_cell eventTime lane fiber action _ _ _ _ _ _ _ Hinv Hlane Hfiber)
        as (st1 & u & Hd & Hul & Hua & Hinv1).
      cbn [runEvent] in Hrun. rewrite (bind_Returns _ _ _ _ _ Hd) in Hrun.
      destruct (IH (ps ++ [u]) st1 st' Hinv1 Hes) as (ps' & Hinv' & Hact & Hincl & Hlen);
        [rewrite length_app; cbn; lia|exact Hrun|].
      exists (u :: ps'). rewrite <- app_assoc in Hinv', Hlen. cbn [app] in Hinv', Hlen.
      split; [exact Hinv'|]. split; [cbn; rewrite Hua, Hact; reflexivity|].
      split; [|exact Hlen]. constructor; [|exact Hincl].
      unfold included. rewrite Hul. exact Hsub.
    + cbn [runEvent] in Hrun. rewrite bind_bind in Hrun.
      assert (Hf : (length ps <= fuel)%nat) by lia.
      pose proof (render_cell fuel r rl _ _ _ _ _ _ _ Hinv Hf) as Hrender.
      destruct (rebase r rl (s0, VNull, []) ps) as [[[s1 b1] cl1]|].
      * destruct Hrender as (st1 & Hr & Hinv1).
        rewrite (bind_Returns _ _ _ _ _ Hr), bind_ret in Hrun.
        destruct (IH ps st1 st' Hinv1 Hes) as (ps' & Hinv' & Hact & Hincl & Hlen);
          [lia|exact Hrun|].
        exists ps'. auto.
      * destruct Hrender as (st1 & Hr).
        rewrite (bind_Throws _ _ _ _ _ Hr) in Hrun. discriminate Hrun.
Qed.

Lemma cell_updateReducer fuel reducer lanes current workInProgress c q s0 ps st s' b' cl' :
  cellInv current workInProgress c q s0 ps st ->
  (length ps <= fuel)%nat ->
  rebase reducer lanes (s0, VNull, []) ps = Some (s', b', cl') ->
  exists FW d st',
    fibers st !! workInProgress = Some FW
    /\ updateReducer fuel reducer VUndefined None
         (renderStart workInProgress FW false lanes st)
       = (Returns (s', d), st').
Proof.
  intros (FC & FW & hc & Q & B & P & Hne & HFC & HaC & HmC & HFW & HaW & Hhc & Hms & Hbs
          & Hq & HQ & HB & HP & Hnd & Hps & Hec & Hinv & Hnil & Hcrf & Hch & Hwh & Hflag)
         Hfuel Ereb.
  set (sA := renderStart workInProgress FW false lanes st).
  set (FW0 := Fiber.set_lanes NoLanes
                (Fiber.set_updateQueue None (Fiber.set_memoizedState None FW))).
  assert (HFWA : fibers sA !! workInProgress = Some FW0).
  { unfold sA, renderStart. proj. apply lookup_insert_eq. }
  assert (HFCA : fibers sA !! current = Some FC).
  { unfold sA, renderStart. proj. rewrite lookup_insert_ne by congruence. exact HFC. }
  assert (Hlen : length (B ++ P) = length ps) by (eapply payloads_length, Hps).
  assert (Hfuel' : (length (B ++ P) <= fuel)%nat) by lia.
  assert (Hmem : ps = [] -> Hook.memoizedState hc = Hook.baseState hc) by congruence.
  destruct (updateReducer_cell fuel reducer VUndefined None sA workInProgress FW0
              current FC c hc q Q B P ps s' b' cl')
    as (sB & FW' & Hrun & _); try assumption; try reflexivity.
  { rewrite Hbs. exact Ereb. }
  exists FW, (UpdateQueue.dispatch Q), sB. auto.
Qed.

(** C1. A mounted component has a reducer cell whose state and base state
    are [s0] and whose queue is empty.  A history follows: updates are
    dispatched through [dispatchAction], from outside of the render, at
    lanes that are included in [lanes], and between them the component is
    rendered any number of times, at any lanes and with any reducer, each
    attempt returning and none of them being committed.  Then a render at
    [lanes] with [reducer] returns the left fold of [reducer] over the
    actions of the dispatches, in the order of the dispatches, from [s0],
    whenever that fold has a value: this is what [updateReducer] returns
    when the render starts, and what the component that renders the cell
    returns from [renderWithHooks]. *)
Theorem updateReducer_left_fold fuel reducer lanes current workInProgress c q s0 es
    st0 st s'
    (Hidle : idleCell st0 current workInProgress c q s0)
    (Hes : Forall (eventOk current workInProgress lanes) es)
    (Hfuel : (length es <= fuel)%nat)
    (Hrun : runEvents fuel current workInProgress q es st0 = (Returns tt, st))
    (Hfold : foldReducer reducer s0 (map snd (dispatchesOf es)) = Some s') :
  exists FW d stU stR,
    fibers st !! workInProgress = Some FW
    /\ updateReducer fuel reducer VUndefined None
         (renderStart workInProgress FW false lanes st)
       = (Returns (s', d), stU)
    /\ renderWithHooks fuel (Some current) workInProgress
         (reducerComponent fuel reducer) VUndefined VUndefined lanes st
       = (Returns s', stR).
Proof.
  apply idleCell_cellInv in Hidle.
  destruct (runEvents_cell fuel _ _ _ _ _ lanes es [] st0 st Hidle Hes Hfuel Hrun)
    as (ps & Hinv & Hact & Hincl & Hlen).
  cbn [app] in Hinv, Hlen.
  assert (Hec : eagerConsistent s0 ps).
  { destruct Hinv as (? & ? & ? & ? & ? & ? & H). tauto. }
  assert (Hreb : rebase reducer lanes (s0, VNull, []) ps = Some (s', VNull, [])).
  { rewrite (rebase_all_included _ _ _ Hincl), (process_foldReducer _ _ _ Hec), Hact, Hfold.
    reflexivity. }
  destruct (cell_updateReducer fuel reducer lanes _ _ _ _ _ _ _ _ _ _ Hinv Hlen Hreb)
    as (FW & d & stU & HFW & HU).
  pose proof (render_cell fuel reducer lanes _ _ _ _ _ _ _ Hinv Hlen) as Hrender.
  rewrite Hreb in Hrender. destruct Hrender as (stR & HR & _).
  exists FW, d, stU, stR. auto.
Qed.


(** * More properties *)

(** ** Comparison of dependencies *)

Lemma objectIs_refl x : objectIs x x = true.
Proof. unfold objectIs. apply bool_decide_eq_true_2. reflexivity. Qed.

Lemma objectIs_sym x y : objectIs x y = objectIs y x.
Proof.
  unfold objectIs. destruct (decide (x = y)) as [->|Hne].
  - reflexivity.
  - rewrite !bool_decide_eq_false_2; congruence.
Qed.

Lemma areHookInputsEqual_loop_sym nextDeps :
  forall prevDeps,
    areHookInputsEqual_loop nextDeps prevDeps = areHookInputsEqual_loop prevDeps nextDeps.
Proof.
  induction nextDeps as [|n nextDeps IH]; intros [|p prevDeps]; cbn; try reflexivity.
  rewrite (objectIs_sym n p), IH. reflexivity.
Qed.

Lemma areHookInputsEqual_loop_app deps :
  forall more more',
    areHookInputsEqual_loop (deps ++ more) (deps ++ more')
    = areHookInputsEqual_loop more more'.
Proof.
  induction deps as [|d deps IH]; intros more more'; cbn; [reflexivity|].
  rewrite objectIs_refl. apply IH.
Qed.

(** X1. [areHookInputsEqual] looks at the positions that both arrays have: an
    array is equal to itself, also where it holds NaN, and to each of its
    extensions, so that an empty array is equal to every array; the
    comparison of two arrays does not depend on which one is the new one;
    and two arrays that differ for [objectIs] at a position of both, as the
    two zeros do, are different. *)
Theorem areHookInputsEqual_positions deps more more' x y :
  areHookInputsEqual (deps ++ more) (Some deps) = true
  /\ areHookInputsEqual deps (Some (deps ++ more)) = true
  /\ areHookInputsEqual [] (Some more) = true
  /\ areHookInputsEqual more (Some more') = areHookInputsEqual more' (Some more)
  /\ (objectIs x y = false ->
      areHookInputsEqual (deps ++ x :: more) (Some (deps ++ y :: more')) = false)
  /\ areHookInputsEqual [VNaN] (Some [VNaN]) = true
  /\ areHookInputsEqual [VNegZero] (Some [VNum 0]) = false.
Proof.
  unfold areHookInputsEqual.
  split.
  { rewrite <- (app_nil_r deps) at 2. rewrite areHookInputsEqual_loop_app.
    destruct more; reflexivity. }
  split.
  { rewrite <- (app_nil_r deps) at 1. rewrite areHookInputsEqual_loop_app. reflexivity. }
  split; [reflexivity|].
  split; [apply areHookInputsEqual_loop_sym|].
  split; [|split; reflexivity].
  intros Hxy. rewrite areHookInputsEqual_loop_app. cbn. rewrite Hxy. reflexivity.
Qed.

(** ** Leaving a render *)

Lemma set_queues_eta st : set_queues (queues st) st = st.
Proof. destruct st; reflexivity. Qed.

Lemma set_queues_set_queues qs qs' st :
  set_queues qs (set_queues qs' st) = set_queues qs st.
Proof. destruct st; reflexivity. Qed.

Lemma resetHooksAfterThrow_loop_frame :
  forall fuel head st o st',
    resetHooksAfterThrow_loop fuel head st = (o, st') ->
    exists qs, st' = set_queues qs st.
Proof.
  induction fuel as [|fuel IH]; intros head st o st' Hrun.
  - exists (queues st). rewrite set_queues_eta.
    destruct head; cbn in Hrun; injection Hrun as _ <-; reflexivity.
  - destruct head as [l|]; cbn [resetHooksAfterThrow_loop] in Hrun.
    2:{ injection Hrun as _ <-. exists (queues st). rewrite set_queues_eta. reflexivity. }
    unfold getHook, setQueue in Hrun.
    destruct (hooks st !! l) as [h|] eqn:Eh.
    2:{ cbv beta iota delta [bind deref] in Hrun. rewrite Eh in Hrun.
        injection Hrun as _ <-.
        exists (queues st). rewrite set_queues_eta. reflexivity. }
    erewrite bind_deref in Hrun by exact Eh. cbn beta in Hrun.
    destruct (Hook.queue h) as [q|] eqn:Eq.
    + destruct (queues st !! q) as [Q|] eqn:EQ.
      * erewrite bind_assign in Hrun by exact EQ.
        cbn beta in Hrun. erewrite bind_deref in Hrun by exact Eh. cbn beta in Hrun.
        apply IH in Hrun as [qs ->]. rewrite set_queues_set_queues. eauto.
      * cbv beta iota delta [bind assign deref] in Hrun. rewrite EQ in Hrun.
        injection Hrun as _ <-.
        exists (queues st). rewrite set_queues_eta. reflexivity.
    + rewrite bind_ret in Hrun. erewrite bind_deref in Hrun by exact Eh.
      cbn beta in Hrun. apply IH in Hrun. exact Hrun.
Qed.

(** X2. [resetHooksAfterThrow], when it returns, leaves the module variables as
    between two renders.  It writes to the queues of the hooks only: with no
    render-phase update scheduled it writes to no object at all, whatever
    the fuel and even with no fiber being rendered, so that the updates that
    are pending stay pending.  A second call changes nothing. *)
Theorem resetHooksAfterThrow_at_rest fuel st :
  (didScheduleRenderPhaseUpdate st = false ->
     exists st',
       resetHooksAfterThrow fuel st = (Returns tt, st')
       /\ sameStores st st')
  /\ (forall st',
        resetHooksAfterThrow fuel st = (Returns tt, st') ->
        atRest st'
        /\ updates st' = updates st /\ hooks st' = hooks st /\ fibers st' = fibers st
        /\ forall fuel', resetHooksAfterThrow fuel' st' = (Returns tt, st')).
Proof.
  split.
  - intros Hflag. unfold resetHooksAfterThrow.
    rewrite bind_modify, bind_gets. proj. rewrite Hflag, bind_ret.
    eexists. split; [reflexivity|]. repeat split.
  - intros st' Hrun. unfold resetHooksAfterThrow in Hrun.
    rewrite bind_modify, bind_gets in Hrun. proj.
    assert (Hshape : exists qs,
      st' = set_didScheduleRenderPhaseUpdateDuringThisPass false
              (set_workInProgressHook None
                 (set_currentHook None
                    (set_currentlyRenderingFiber None
                       (set_renderLanes NoLanes
                          (set_didScheduleRenderPhaseUpdate false
                             (set_queues qs
                                (set_currentDispatcher ContextOnlyDispatcher st)))))))).
    { destruct (didScheduleRenderPhaseUpdate st) eqn:Hflag.
      - rewrite bind_bind, bind_gets in Hrun. proj. unfold getFiber in Hrun.
        rewrite bind_bind in Hrun.
        destruct (deref fibers (currentlyRenderingFiber st)
                    (set_currentDispatcher ContextOnlyDispatcher st))
          as [[F|e|] s1] eqn:EF;
          [|rewrite (bind_Throws _ _ _ _ _ EF) in Hrun; discriminate
           |rewrite (bind_OutOfFuel _ _ _ _ EF) in Hrun; discriminate].
        rewrite (bind_Returns _ _ _ _ _ EF) in Hrun.
        apply deref_Returns in EF as [-> _]. rewrite bind_bind in Hrun.
        destruct (resetHooksAfterThrow_loop fuel (Fiber.memoizedState F)
                    (set_currentDispatcher ContextOnlyDispatcher st))
          as [[[]|e|] s2] eqn:EL;
          [|rewrite (bind_Throws _ _ _ _ _ EL) in Hrun; discriminate
           |rewrite (bind_OutOfFuel _ _ _ _ EL) in Hrun; discriminate].
        rewrite (bind_Returns _ _ _ _ _ EL) in Hrun.
        apply resetHooksAfterThrow_loop_frame in EL as [qs ->].
        rewrite bind_modify in Hrun. unfold modify in Hrun.
        injection Hrun as <-. exists qs. reflexivity.
      - rewrite bind_ret in Hrun. unfold modify in Hrun. injection Hrun as <-.
        exists (queues st). destruct st; proj. cbn in Hflag. subst. reflexivity. }
    destruct Hshape as [qs ->]. split; [repeat split|].
    split; [reflexivity|]. split; [reflexivity|]. split; [reflexivity|].
    intros fuel'. unfold resetHooksAfterThrow.
    rewrite bind_modify, bind_gets. proj. rewrite bind_ret. unfold modify.
    destruct st; vm_compute; reflexivity.
Qed.




(** ** Bailing out *)


(** ** More on [updateReducer] *)

(** X5. With no update on the base queue and none pending, [updateReducer]
    returns the state of the hook as it is and does not call the reducer,
    which may be one that throws; its only write is the reducer of the
    render to [lastRenderedReducer]. *)
Theorem updateReducer_no_update fuel reducer initialArg init st hook st1 hh c hc q Q
    (Hhook : updateWorkInProgressHook st = (Returns hook, st1))
    (Hhh : hooks st1 !! hook = Some hh)
    (Hcur : currentHook st1 = Some c)
    (Hhc : hooks st1 !! c = Some hc)
    (Hq : Hook.queue hh = Some q)
    (HQ : queues st1 !! q = Some Q)
    (HB : Hook.baseQueue hc = None)
    (HP : UpdateQueue.pending Q = None) :
  updateReducer fuel reducer initialArg init st
  = (Returns (Hook.memoizedState hh, UpdateQueue.dispatch Q),
     set_queues
       (<[q := UpdateQueue.set_lastRenderedReducer (Some reducer) Q]> (queues st1)) st1).
Proof.
  assert (HcB : circular (updates st1) (Hook.baseQueue hc) []).
  { rewrite HB. apply circular_nil. }
  assert (HcP : circular (updates st1) (UpdateQueue.pending Q) []).
  { rewrite HP. apply circular_nil. }
  rewrite (updateReducer_merge fuel reducer initialArg init st hook st1 hh c hc q Q [] []
             Hhook Hhh Hcur Hhc Hq HQ HcB HcP (NoDup_nil_2)).
  unfold mergedState, mergedUpdates. rewrite HB, HP. cbn [mergedQueue].
  assert (Ehc : Hook.set_baseQueue None hc = hc).
  { destruct hc; cbn in *; subst; reflexivity. }
  rewrite Ehc, (insert_id _ _ _ Hhc).
  assert (EQ : UpdateQueue.mk None (UpdateQueue.dispatch Q) (Some reducer)
                 (UpdateQueue.lastRenderedState Q)
               = UpdateQueue.set_lastRenderedReducer (Some reducer) Q).
  { destruct Q; cbn in *; subst; reflexivity. }
  rewrite EQ. mrun.
  destruct st1; reflexivity.
Qed.

(** X6. When the reducer throws on an update that the render applies, the error
    leaves [updateReducer] and no update is lost: the pending updates have
    been moved behind those of the base queue of the committed hook, which
    holds them all, in order and with what they carried, for the next
    attempt. *)
Theorem updateReducer_throw_keeps_updates fuel reducer initialArg init st hook st1 hh
    c hc q Q B P ps f F0
    (Hhook : updateWorkInProgressHook st = (Returns hook, st1))
    (Hhh : hooks st1 !! hook = Some hh)
    (Hcur : currentHook st1 = Some c)
    (Hhc : hooks st1 !! c = Some hc)
    (Hne : hook <> c)
    (Hq : Hook.queue hh = Some q)
    (HQ : queues st1 !! q = Some Q)
    (HB : circular (updates st1) (Hook.baseQueue hc) B)
    (HP : circular (updates st1) (UpdateQueue.pending Q) P)
    (Hnd : NoDup (B ++ P))
    (Hps : payloads (updates st1) (B ++ P) ps)
    (Hf : currentlyRenderingFiber st1 = Some f)
    (HF : fibers st1 !! f = Some F0)
    (Hfuel : (length (B ++ P) <= fuel)%nat)
    (Hreb : rebase reducer (renderLanes st1) (Hook.baseState hc, VNull, []) ps = None) :
  exists st',
    updateReducer fuel reducer initialArg init st = (Throws UserError, st')
    /\ hooks st' !! c
       = Some (Hook.mk (Hook.memoizedState hc) (Hook.baseState hc)
                 (mergedQueue (Hook.baseQueue hc) (UpdateQueue.pending Q))
                 (Hook.queue hc) (Hook.next hc))
    /\ hooks st' !! hook = Some hh
    /\ (exists Q', queues st' !! q = Some Q' /\ UpdateQueue.pending Q' = None)
    /\ circular (updates st')
         (mergedQueue (Hook.baseQueue hc) (UpdateQueue.pending Q)) (B ++ P)
    /\ payloads (updates st') (B ++ P) ps.
Proof.
  assert (Hnonempty : B ++ P <> []).
  { intros Hnil. rewrite Hnil in Hps. apply Forall2_nil_inv_l in Hps as ->.
    discriminate Hreb. }
  rewrite (updateReducer_merge _ _ _ _ _ _ _ _ _ _ _ _ _ _
             Hhook Hhh Hcur Hhc Hq HQ HB HP Hnd).
  destruct (mergedUpdates_circular _ _ _ _ _ HB HP Hnd) as (HcM & HpayM & HfrM).
  set (stL := mergedState reducer c hc q Q st1).
  set (usM := mergedUpdates (updates st1) (Hook.baseQueue hc) (UpdateQueue.pending Q)) in *.
  assert (HusL : updates stL = usM) by reflexivity.
  assert (HpsM : payloads usM (B ++ P) ps).
  { eapply payloads_ext; [|exact Hps]. intros l _. apply HpayM. }
  assert (HcL : hooks stL !! c
                = Some (Hook.set_baseQueue
                          (mergedQueue (Hook.baseQueue hc) (UpdateQueue.pending Q)) hc)).
  { unfold stL, mergedState. proj. apply lookup_insert_eq. }
  assert (HhL : hooks stL !! hook = Some hh).
  { unfold stL, mergedState. proj. rewrite lookup_insert_ne by congruence. exact Hhh. }
  assert (HQL : queues stL !! q = Some (UpdateQueue.mk None (UpdateQueue.dispatch Q)
                                          (Some reducer) (UpdateQueue.lastRenderedState Q))).
  { unfold stL, mergedState. proj. apply lookup_insert_eq. }
  assert (HfL : currentlyRenderingFiber stL = Some f) by exact Hf.
  assert (HFL : fibers stL !! f = Some F0) by exact HF.
  assert (HrlL : renderLanes stL = renderLanes st1) by reflexivity.
  destruct (mergedQueue (Hook.baseQueue hc) (UpdateQueue.pending Q))
    as [lastU|] eqn:ElastM.
  2:{ apply circular_None in HcM. contradiction. }
  destruct (circular_Some _ _ _ HcM) as (L' & first & ulast & EL & Hhead & Hulast & Hnext & _).
  pose proof HcM as (_ & _ & HlM). rewrite Hhead in HlM.
  pose proof (updateReducer_loop_spec reducer stL f F0 (Some first) HfL (B ++ P) ps fuel stL
    (mkWalk (Hook.baseState hc) VNull None None) [] [] (Fiber.lanes F0) (Some first)
    Hnonempty (state_walkFrame _ _ _ HFL)) as Hloop.
  cbn [newState newBaseState] in Hloop. rewrite HrlL, Hreb, Hhead in Hloop.
  destruct Hloop as (st2 & cls' & lanes' & Hrun & Hframe); auto.
  { repeat split; try constructor. }
  { rewrite <- Hhead. eapply circular_tail_first, HcM. }
  pose proof Hframe as ((us2 & sk & Est2) & Hnew & Hold).
  assert (Hkeep : forall l, l ∈ B ++ P -> updates st2 !! l = usM !! l).
  { intros l Hl. rewrite <- HusL. apply Hold. intros Hin.
    destruct (circular_lookup _ _ _ _ HcM Hl) as [x Hx].
    rewrite <- HusL, (Hnew l Hin) in Hx. discriminate Hx. }
  exists st2. split.
  { cbv zeta. maccess.
    rewrite bind_bind. erewrite bind_deref by exact Hulast. cbn beta.
    rewrite bind_bind. erewrite bind_deref by exact HcL. cbn beta. rewrite Hnext. proj.
    rewrite bind_bind. apply bind_Throws. exact Hrun. }
  assert (Hh2 : hooks st2 = hooks stL) by (rewrite Est2; reflexivity).
  assert (Hq2 : queues st2 = queues stL) by (rewrite Est2; reflexivity).
  rewrite Hh2, Hq2, HcL, HhL, HQL.
  split; [reflexivity|]. split; [reflexivity|].
  split; [eexists; split; reflexivity|].
  split.
  - eapply circular_ext; [|exact HcM]. exact Hkeep.
  - eapply payloads_same; [|exact HpsM]. exact Hkeep.
Qed.

Lemma isSubsetOfLanes_lor_l a b : isSubsetOfLanes (N.lor a b) a = true.
Proof.
  unfold isSubsetOfLanes. apply N.eqb_eq. apply N.bits_inj. intros n.
  rewrite N.land_spec, N.lor_spec. destruct (N.testbit a n), (N.testbit b n); reflexivity.
Qed.

Lemma isSubsetOfLanes_lor_r a b : isSubsetOfLanes (N.lor a b) b = true.
Proof. rewrite N.lor_comm. apply isSubsetOfLanes_lor_l. Qed.

Lemma isSubsetOfLanes_trans a b c :
  isSubsetOfLanes a b = true -> isSubsetOfLanes b c = true -> isSubsetOfLanes a c = true.
Proof.
  unfold isSubsetOfLanes. rewrite !N.eqb_eq. intros Hab Hbc.
  apply N.bits_inj. intros n.
  apply (f_equal (fun x => N.testbit x n)) in Hab, Hbc.
  rewrite N.land_spec in *.
  destruct (N.testbit a n), (N.testbit b n), (N.testbit c n);
    cbn in *; congruence.
Qed.

Lemma skipLanes_keeps renderLanes ps :
  forall lanes, isSubsetOfLanes (skipLanes renderLanes lanes ps) lanes = true.
Proof.
  induction ps as [|u ps IH]; intros lanes; cbn [skipLanes].
  - unfold isSubsetOfLanes. rewrite N.land_diag. apply N.eqb_refl.
  - destruct (included renderLanes u); [apply IH|].
    eapply isSubsetOfLanes_trans; [apply IH|]. apply isSubsetOfLanes_lor_l.
Qed.

Lemma skipLanes_skipped renderLanes ps :
  forall lanes u,
    u ∈ ps -> included renderLanes u = false ->
    isSubsetOfLanes (skipLanes renderLanes lanes ps) (Update.lane u) = true.
Proof.
  induction ps as [|p ps IH]; intros lanes u Hin Hskip; [inversion Hin|].
  cbn [skipLanes]. apply elem_of_cons in Hin as [->|Hin].
  - rewrite Hskip. eapply isSubsetOfLanes_trans; [apply skipLanes_keeps|].
    apply isSubsetOfLanes_lor_r.
  - apply IH; assumption.
Qed.

Lemma skipLanes_all_included renderLanes ps :
  Forall (fun u => included renderLanes u = true) ps ->
  forall lanes, skipLanes renderLanes lanes ps = lanes.
Proof.
  induction 1 as [|u ps Hu _ IH]; intros lanes; cbn [skipLanes]; [reflexivity|].
  rewrite Hu. apply IH.
Qed.

(** X7. A render by [updateReducer] makes no request to the scheduler and
    writes to no other fiber than the one being rendered, on which it
    leaves the lanes that were pending and the lane of every update that it
    skipped, so that a render at that lane picks the update up; with no
    update skipped the lanes of the fiber are as they were. *)
Theorem updateReducer_skipped_lanes fuel reducer initialArg init st hook st1 hh c hc
    q Q B P ps f F0 s' b' cl'
    (Hhook : updateWorkInProgressHook st = (Returns hook, st1))
    (Hhh : hooks st1 !! hook = Some hh)
    (Hcur : currentHook st1 = Some c)
    (Hhc : hooks st1 !! c = Some hc)
    (Hne : hook <> c)
    (Hq : Hook.queue hh = Some q)
    (HQ : queues st1 !! q = Some Q)
    (HB : circular (updates st1) (Hook.baseQueue hc) B)
    (HP : circular (updates st1) (UpdateQueue.pending Q) P)
    (Hnd : NoDup (B ++ P))
    (Hnonempty : B ++ P <> [])
    (Hps : payloads (updates st1) (B ++ P) ps)
    (Hf : currentlyRenderingFiber st1 = Some f)
    (HF : fibers st1 !! f = Some F0)
    (Hfuel : (length (B ++ P) <= fuel)%nat)
    (Hreb : rebase reducer (renderLanes st1) (Hook.baseState hc, VNull, []) ps
            = Some (s', b', cl')) :
  exists st' F',
    updateReducer fuel reducer initialArg init st
    = (Returns (s', UpdateQueue.dispatch Q), st')
    /\ scheduledUpdates st' = scheduledUpdates st1
    /\ (forall f', f' <> f -> fibers st' !! f' = fibers st1 !! f')
    /\ fibers st' !! f = Some F'
    /\ F' = Fiber.set_lanes (Fiber.lanes F') F0
    /\ isSubsetOfLanes (Fiber.lanes F') (Fiber.lanes F0) = true
    /\ (forall u, u ∈ ps -> included (renderLanes st1) u = false ->
          isSubsetOfLanes (Fiber.lanes F') (Update.lane u) = true)
    /\ (Forall (fun u => included (renderLanes st1) u = true) ps ->
          Fiber.lanes F' = Fiber.lanes F0).
Proof.
  destruct (updateReducer_spec fuel reducer initialArg init st hook st1 hh c hc q Q B P ps
              f F0 s' b' cl' Hhook Hhh Hcur Hhc Hne Hq HQ HB HP Hnd Hnonempty Hps Hf HF
              Hfuel Hreb)
    as (st' & cls' & us' & sk & dr & Hrun & Est' & _).
  exists st', (Fiber.set_lanes (skipLanes (renderLanes st1) (Fiber.lanes F0) ps) F0).
  split; [exact Hrun|]. rewrite Est'. proj.
  split; [reflexivity|].
  split; [intros f' Hf'; rewrite lookup_insert_ne by congruence; reflexivity|].
  split; [apply lookup_insert_eq|].
  split; [reflexivity|].
  split; [apply skipLanes_keeps|].
  split; [intros u Hu Hskip; apply skipLanes_skipped; assumption|].
  intros Hall. apply skipLanes_all_included, Hall.
Qed.

(** ** More on [dispatchAction] *)

(** X8. Whatever its path, in the render phase or outside of it, with an eager
    state or without one, bailing out or scheduling, and also when the last
    rendered reducer throws, [dispatchAction] returns and has appended the
    update, a new object with the lane and the action, at the end of the
    pending list of the queue, whose former updates are all kept, in order;
    no other update and no hook is written. *)
Theorem dispatchAction_appends eventTime lane fiber queue action st Q P F
    (HQ : queues st !! queue = Some Q)
    (HP : circular (updates st) (UpdateQueue.pending Q) P)
    (HF : fibers st !! fiber = Some F)
    (Halt : alternateLive st F) :
  exists st' u,
    dispatchAction eventTime lane fiber queue action st = (Returns tt, st')
    /\ updates st !! freshLoc (updates st) = None
    /\ queues st'
       = <[queue := UpdateQueue.set_pending (Some (freshLoc (updates st))) Q]> (queues st)
    /\ circular (updates st') (Some (freshLoc (updates st))) (P ++ [freshLoc (updates st)])
    /\ (forall l, l ∈ P -> payloadAt (updates st') l = payloadAt (updates st) l)
    /\ payloadAt (updates st') (freshLoc (updates st)) = Some u
    /\ Update.lane u = lane
    /\ Update.action u = action
    /\ (forall l, l ∉ P -> l <> freshLoc (updates st) ->
          updates st' !! l = updates st !! l)
    /\ hooks st' = hooks st.
Proof.
  set (new := Update.mk lane action None VNull None).
  set (c := freshLoc (updates st)).
  destruct (enqueued_circular (updates st) (UpdateQueue.pending Q) P new HP eq_refl)
    as (Hc & Hsame & Hnew & Hframe & HfP).
  fold c in Hc, Hnew, Hframe, HfP.
  assert (Hgen : forall g : Update.t -> Update.t,
    (forall u, Update.next (g u) = Update.next u) ->
    (forall u, Update.set_next None (g u) = g (Update.set_next None u)) ->
    (forall u, Update.lane (g u) = Update.lane u) ->
    (forall u, Update.action (g u) = Update.action u) ->
    forall st',
      updates st' = alter g c (enqueued (updates st) (UpdateQueue.pending Q) new) ->
      queues st' = <[queue := UpdateQueue.set_pending (Some c) Q]> (queues st) ->
      hooks st' = hooks st ->
      exists u,
        updates st !! c = None
        /\ queues st' = <[queue := UpdateQueue.set_pending (Some c) Q]> (queues st)
        /\ circular (updates st') (Some c) (P ++ [c])
        /\ (forall l, l ∈ P -> payloadAt (updates st') l = payloadAt (updates st) l)
        /\ payloadAt (updates st') c = Some u
        /\ Update.lane u = lane
        /\ Update.action u = action
        /\ (forall l, l ∉ P -> l <> c -> updates st' !! l = updates st !! l)
        /\ hooks st' = hooks st).
  { intros g Hg1 Hg2 Hg3 Hg4 st' -> Hq' Hh'. exists (g new).
    split; [apply freshLoc_None|]. split; [exact Hq'|].
    split; [apply circular_alter; assumption|].
    split.
    { intros l Hl. rewrite payloadAt_alter by exact Hg2.
      destruct (decide (c = l)) as [<-|_]; [contradiction|]. apply Hsame, Hl. }
    split.
    { rewrite payloadAt_alter by exact Hg2.
      destruct (decide (c = c)); [|congruence]. rewrite Hnew. reflexivity. }
    split; [rewrite Hg3; reflexivity|]. split; [rewrite Hg4; reflexivity|].
    split; [|exact Hh'].
    intros l Hl Hlc. rewrite lookup_alter_ne by congruence. apply Hframe; assumption. }
  assert (Hid : enqueued (updates st) (UpdateQueue.pending Q) new
                = alter id c (enqueued (updates st) (UpdateQueue.pending Q) new)).
  { rewrite alter_id by reflexivity. reflexivity. }
  destruct (isRenderPhaseUpdate st fiber F) eqn:Ephase.
  - rewrite (dispatchAction_render_phase _ _ _ _ _ _ _ _ _ HQ HP HF Ephase).
    eexists _. destruct (Hgen id) with (st' :=
      set_didScheduleRenderPhaseUpdateDuringThisPass true
        (set_didScheduleRenderPhaseUpdate true (enqueuedState queue Q lane action st)))
      as (u & H); try (intros; reflexivity); [exact Hid|].
    exists u. split; [reflexivity|exact H].
  - rewrite (dispatchAction_outside _ _ _ _ _ _ _ _ _ HQ HP HF Halt Ephase).
    unfold dispatchedState. cbv zeta.
    destruct (if drained st F then UpdateQueue.lastRenderedReducer Q else None) as [r|].
    + destruct (call r [UpdateQueue.lastRenderedState Q; action]) as [e|].
      * destruct (objectIs e (UpdateQueue.lastRenderedState Q)).
        -- eexists _. destruct (Hgen (Update.set_eager (Some r) e)) with (st' :=
             set_updates
               (alter (Update.set_eager (Some r) e) c
                  (updates (enqueuedState queue Q lane action st)))
               (enqueuedState queue Q lane action st))
             as (u & H); try (intros; reflexivity).
           exists u. split; [reflexivity|exact H].
        -- eexists _. destruct (Hgen (Update.set_eager (Some r) e)) with (st' :=
             scheduledState fiber F lane eventTime
               (set_updates
                  (alter (Update.set_eager (Some r) e) c
                     (updates (enqueuedState queue Q lane action st)))
                  (enqueuedState queue Q lane action st)))
             as (u & H); try (intros; reflexivity).
           exists u. split; [reflexivity|exact H].
      * eexists _. destruct (Hgen id) with (st' :=
          scheduledState fiber F lane eventTime (enqueuedState queue Q lane action st))
          as (u & H); try (intros; reflexivity); [exact Hid|].
        exists u. split; [reflexivity|exact H].
    + eexists _. destruct (Hgen id) with (st' :=
        scheduledState fiber F lane eventTime (enqueuedState queue Q lane action st))
        as (u & H); try (intros; reflexivity); [exact Hid|].
      exists u. split; [reflexivity|exact H].
Qed.

(** ** The list of hooks *)

Lemma hookChain_lookup hs head ls l :
  hookChain hs head ls -> l ∈ ls -> is_Some (hs !! l).
Proof.
  revert head. induction ls as [|a ls IH]; intros head Hc Hin; [inversion Hin|].
  destruct Hc as (_ & h & Hh & Hrest).
  apply elem_of_cons in Hin as [->|Hin]; [eauto|]. eapply IH; eassumption.
Qed.

Lemma hookChain_last hs ls :
  forall head w,
    hookChain hs head ls -> last ls = Some w ->
    exists hw, hs !! w = Some hw /\ Hook.next hw = None.
Proof.
  induction ls as [|l ls IH]; intros head w Hc Hlast; [discriminate|].
  destruct Hc as (_ & h & Hh & Hrest). destruct ls as [|l' ls].
  - injection Hlast as <-. cbn in Hrest. eauto.
  - eapply IH; [exact Hrest|exact Hlast].
Qed.

Lemma hookChain_ext hs hs' ls :
  (forall l, l ∈ ls -> hs' !! l = hs !! l) ->
  forall head, hookChain hs head ls -> hookChain hs' head ls.
Proof.
  induction ls as [|l ls IH]; intros Hsame head Hc; [exact Hc|].
  destruct Hc as (Hhead & h & Hh & Hrest). split; [exact Hhead|].
  exists h. rewrite Hsame by left. split; [exact Hh|].
  apply IH; [|exact Hrest]. intros l' Hl'. apply Hsame. right. exact Hl'.
Qed.

Lemma hookChain_head hs head ls : hookChain hs head ls -> head = List.head ls.
Proof. destruct ls; cbn; intros H; [exact H|exact (proj1 H)]. Qed.

(** Linking a new hook behind the last one of a list. *)
Lemma hookChain_snoc hs h x :
  hs !! h = None ->
  Hook.next x = None ->
  forall ls head w hw,
    hookChain hs head ls ->
    last ls = Some w ->
    hs !! w = Some hw ->
    hookChain (<[w := Hook.set_next (Some h) hw]> (<[h := x]> hs)) head (ls ++ [h]).
Proof.
  intros Hh Hx. induction ls as [|l ls IH]; intros head w hw Hc Hlast Hw; [discriminate|].
  assert (Hhw : h <> w) by congruence.
  destruct Hc as (Hhead & hl & Hl & Hrest). destruct ls as [|l' ls].
  - injection Hlast as <-. cbn in Hrest. rewrite Hl in Hw. injection Hw as <-.
    cbn. split; [exact Hhead|]. eexists. rewrite lookup_insert_eq.
    split; [reflexivity|]. proj. split; [reflexivity|].
    exists x. rewrite lookup_insert_ne by congruence. rewrite lookup_insert_eq. auto.
  - change (last (l :: l' :: ls)) with (last (l' :: ls)) in Hlast.
    assert (Hlw : l <> w).
    { intros ->. rewrite Hl in Hw. injection Hw as ->.
      destruct (hookChain_last _ _ _ _ Hrest Hlast) as (hw' & Hw' & Hn).
      rewrite Hl in Hw'. injection Hw' as <-.
      destruct Hrest as [Hnext _]. congruence. }
    assert (Hlh : l <> h) by congruence.
    split; [exact Hhead|]. exists hl.
    rewrite !lookup_insert_ne by congruence. split; [exact Hl|].
    apply (IH _ w hw Hrest Hlast Hw).
Qed.

Lemma mountWorkInProgressHook_list st f F ls
    (Hf : currentlyRenderingFiber st = Some f)
    (HF : fibers st !! f = Some F)
    (Hchain : hookChain (hooks st) (Fiber.memoizedState F) ls)
    (Hcursor : workInProgressHook st = last ls) :
  exists st' F',
    mountWorkInProgressHook st = (Returns (freshLoc (hooks st)), st')
    /\ hooks st !! freshLoc (hooks st) = None
    /\ hooks st' !! freshLoc (hooks st) = Some (Hook.mk VNull VNull None None None)
    /\ fibers st' !! f = Some F'
    /\ hookChain (hooks st') (Fiber.memoizedState F') (ls ++ [freshLoc (hooks st)])
    /\ workInProgressHook st' = last (ls ++ [freshLoc (hooks st)])
    /\ (forall l, l ∈ ls ->
          Hook.set_next None <$> hooks st' !! l = Hook.set_next None <$> hooks st !! l)
    /\ F' = Fiber.set_memoizedState (Fiber.memoizedState F') F
    /\ (forall f', f' <> f -> fibers st' !! f' = fibers st !! f')
    /\ queues st' = queues st /\ updates st' = updates st /\ effects st' = effects st
    /\ componentUpdateQueues st' = componentUpdateQueues st
    /\ currentlyRenderingFiber st' = currentlyRenderingFiber st.
Proof.
  set (h := freshLoc (hooks st)).
  assert (Hh : hooks st !! h = None) by apply freshLoc_None.
  unfold mountWorkInProgressHook. maccess. rewrite bind_alloc. fold h.
  rewrite bind_gets. proj. rewrite Hcursor, last_snoc.
  destruct (last ls) as [w|] eqn:Elast.
  - destruct (hookChain_last _ _ _ _ Hchain Elast) as (hw & Hw & Hn).
    assert (Hwh : w <> h) by congruence.
    rewrite bind_bind.
    erewrite bind_assign by (proj; rewrite lookup_insert_ne by congruence; exact Hw).
    cbn beta. rewrite bind_modify, bind_gets. proj.
    exists (set_workInProgressHook (Some h)
              (set_hooks (<[w := Hook.set_next (Some h) hw]>
                            (<[h := Hook.mk VNull VNull None None None]> (hooks st))) st)),
      F.
    split; [reflexivity|]. proj.
    split; [exact Hh|].
    split; [rewrite lookup_insert_ne by congruence; apply lookup_insert_eq|].
    split; [exact HF|].
    split; [apply hookChain_snoc; auto|].
    split; [reflexivity|].
    split.
    { intros l Hl. destruct (decide (l = w)) as [->|Hlw].
      - rewrite lookup_insert_eq, Hw. reflexivity.
      - assert (l <> h).
        { intros ->. destruct (hookChain_lookup _ _ _ _ Hchain Hl) as [y Hy]. congruence. }
        rewrite !lookup_insert_ne by congruence. reflexivity. }
    split; [destruct F; reflexivity|].
    repeat split.
  - assert (Els : ls = []).
    { destruct ls as [|x ls _] using rev_ind; [reflexivity|].
      rewrite last_snoc in Elast. discriminate. }
    subst ls. cbn in Hchain.
    rewrite bind_bind, bind_modify, bind_bind, bind_gets. proj. rewrite Hf.
    erewrite bind_assign by (proj; exact HF). cbn beta. rewrite bind_gets. proj.
    eexists _, _. split; [reflexivity|]. proj.
    split; [exact Hh|]. split; [apply lookup_insert_eq|].
    split; [apply lookup_insert_eq|]. proj.
    split.
    { cbn. split; [reflexivity|]. eexists. rewrite lookup_insert_eq. auto. }
    split; [reflexivity|].
    split; [intros l Hl; inversion Hl|].
    split; [reflexivity|].
    split; [intros f' Hf'; apply lookup_insert_ne; congruence|].
    repeat split; auto.
Qed.

(** X9. [mountWorkInProgressHook] appends a new, empty hook to the list of the
    fiber being rendered: the hooks are in the list in the order of their
    calls, the cursor is on the new one, and the hooks that were in the list
    keep what they hold. *)
Theorem mountWorkInProgressHook_appends st f F ls
    (Hf : currentlyRenderingFiber st = Some f)
    (HF : fibers st !! f = Some F)
    (Hchain : hookChain (hooks st) (Fiber.memoizedState F) ls)
    (Hcursor : workInProgressHook st = last ls) :
  exists st' F',
    mountWorkInProgressHook st = (Returns (freshLoc (hooks st)), st')
    /\ hooks st !! freshLoc (hooks st) = None
    /\ hooks st' !! freshLoc (hooks st) = Some (Hook.mk VNull VNull None None None)
    /\ fibers st' !! f = Some F'
    /\ hookChain (hooks st') (Fiber.memoizedState F') (ls ++ [freshLoc (hooks st)])
    /\ workInProgressHook st' = last (ls ++ [freshLoc (hooks st)])
    /\ (forall l, l ∈ ls ->
          Hook.set_next None <$> hooks st' !! l = Hook.set_next None <$> hooks st !! l)
    /\ F' = Fiber.set_memoizedState (Fiber.memoizedState F') F
    /\ (forall f', f' <> f -> fibers st' !! f' = fibers st !! f')
    /\ queues st' = queues st /\ updates st' = updates st /\ effects st' = effects st
    /\ componentUpdateQueues st' = componentUpdateQueues st
    /\ currentlyRenderingFiber st' = currentlyRenderingFiber st.
Proof.
  destruct (mountWorkInProgressHook_list st f F ls Hf HF Hchain Hcursor)
    as (st' & F' & Hrun & Hrest).
  exists st', F'. split; [exact Hrun|exact Hrest].
Qed.

(** ** The list of effects *)

Lemma effectLinked_links es ls tgt :
  effectLinked es ls tgt <-> linked (effectLinks es) ls tgt.
Proof.
  revert tgt. induction ls as [|l ls IH]; intros tgt; cbn; [tauto|].
  rewrite IH. unfold effectLinks. rewrite lookup_fmap. split.
  - intros [(e & He & Hn) Hrest]. split; [|exact Hrest].
    rewrite He. cbn. eexists. split; [reflexivity|]. exact Hn.
  - intros [(u & Hu & Hn) Hrest]. split; [|exact Hrest].
    destruct (es !! l) as [e|]; [|discriminate]. cbn in Hu. injection Hu as <-.
    exists e. auto.
Qed.

Lemma effectCircular_links es lastEffect ls :
  effectCircular es lastEffect ls <-> circular (effectLinks es) lastEffect ls.
Proof. unfold effectCircular, circular. rewrite effectLinked_links. tauto. Qed.

Lemma effectLinks_insert es l e :
  effectLinks (<[l := e]> es)
  = <[l := Update.mk NoLane VNull None VNull (Effect.next e)]> (effectLinks es).
Proof. unfold effectLinks. rewrite fmap_insert. reflexivity. Qed.

Lemma freshLoc_effectLinks es : freshLoc (effectLinks es) = freshLoc es.
Proof. unfold freshLoc, effectLinks. rewrite dom_fmap_L. reflexivity. Qed.

(** The store of effects after [pushEffect] has linked the new effect. *)
Lemma effectLinks_enqueued es lastEffect ls eff :
  effectCircular es lastEffect ls ->
  Effect.next eff = None ->
  let e := freshLoc es in
  let es' :=
    match lastEffect with
    | None => <[e := Effect.set_next (Some e) eff]> (<[e := eff]> es)
    | Some l =>
        match es !! l with
        | Some le =>
            <[e := Effect.set_next (Effect.next le) eff]>
              (<[l := Effect.set_next (Some e) le]> (<[e := eff]> es))
        | None => es
        end
    end in
  effectCircular es' (Some e) (ls ++ [e])
  /\ (forall l, l ∈ ls -> effectAt es' l = effectAt es l)
  /\ effectAt es' e = Some eff
  /\ e ∉ ls.
Proof.
  intros Hc Hn e es'.
  apply effectCircular_links in Hc.
  destruct (enqueued_circular (effectLinks es) lastEffect ls
              (Update.mk NoLane VNull None VNull None) Hc eq_refl)
    as (Hc' & _ & _ & _ & Hfresh).
  rewrite freshLoc_effectLinks in Hc', Hfresh. fold e in Hc', Hfresh.
  assert (He : es !! e = None) by apply freshLoc_None.
  assert (Heff : Effect.set_next None eff = eff).
  { destruct eff; cbn in *; subst; reflexivity. }
  assert (Elinks : effectLinks es'
                   = enqueued (effectLinks es) lastEffect
                       (Update.mk NoLane VNull None VNull None)).
  { unfold es', enqueued. rewrite freshLoc_effectLinks. fold e.
    destruct lastEffect as [l|].
    - unfold effectLinks at 2. rewrite lookup_fmap.
      destruct (es !! l) as [le|] eqn:El; cbn; [|reflexivity].
      assert (l <> e) by congruence.
      rewrite !effectLinks_insert. proj. rewrite Hn.
      apply map_eq. intros k.
      destruct (decide (k = e)) as [->|Hke].
      + rewrite lookup_insert_eq, lookup_insert_ne by congruence.
        rewrite lookup_insert_eq. reflexivity.
      + rewrite (lookup_insert_ne _ e k) by congruence.
        destruct (decide (k = l)) as [->|Hkl].
        * rewrite !lookup_insert_eq. reflexivity.
        * rewrite !lookup_insert_ne by congruence. reflexivity.
    - rewrite !effectLinks_insert. proj. rewrite Hn. reflexivity. }
  split; [apply effectCircular_links; rewrite Elinks; exact Hc'|].
  split; [|split; [|exact Hfresh]].
  - intros l Hl. assert (l <> e) by (intros ->; contradiction).
    unfold effectAt, es'. destruct lastEffect as [w|]; [destruct (es !! w) as [le|] eqn:Ew|].
    + rewrite lookup_insert_ne by congruence.
      destruct (decide (l = w)) as [->|Hlw].
      * rewrite lookup_insert_eq, Ew. reflexivity.
      * rewrite !lookup_insert_ne by congruence. reflexivity.
    + reflexivity.
    + rewrite !lookup_insert_ne by congruence. reflexivity.
  - unfold effectAt, es'. destruct lastEffect as [w|]; [destruct (es !! w) as [le|] eqn:Ew|].
    + rewrite lookup_insert_eq. cbn. f_equal.
      destruct eff; cbn in *; subst; reflexivity.
    + destruct Hc as (_ & Hlast & Hl).
      assert (Hin : w ∈ ls).
      { apply last_Some in Hlast as (l' & ->). apply elem_of_app. right. left. }
      destruct (linked_lookup _ _ _ _ Hl Hin) as [x Hx].
      unfold effectLinks in Hx. rewrite lookup_fmap, Ew in Hx. discriminate Hx.
    + rewrite lookup_insert_eq. cbn. f_equal.
      destruct eff; cbn in *; subst; reflexivity.
Qed.

Lemma pushEffect_list tag create destroy deps st f ls
    (Hf : currentlyRenderingFiber st = Some f)
    (Hls : effectList st f ls) :
  exists st',
    pushEffect tag create destroy deps st = (Returns (freshLoc (effects st)), st')
    /\ effects st !! freshLoc (effects st) = None
    /\ effectList st' f (ls ++ [freshLoc (effects st)])
    /\ effectAt (effects st') (freshLoc (effects st))
       = Some (Effect.mk tag create destroy deps None)
    /\ (forall l, l ∈ ls -> effectAt (effects st') l = effectAt (effects st) l)
    /\ hooks st' = hooks st
    /\ (forall F, fibers st !! f = Some F ->
          exists F', fibers st' !! f = Some F'
            /\ F' = Fiber.set_updateQueue (Fiber.updateQueue F') F
            /\ (Fiber.updateQueue F <> None -> F' = F))
    /\ (forall f', f' <> f -> fibers st' !! f' = fibers st !! f').
Proof.
  destruct Hls as (F & HF & Hq).
  set (eff := Effect.mk tag create destroy deps None).
  set (e := freshLoc (effects st)).
  assert (He : effects st !! e = None) by apply freshLoc_None.
  unfold pushEffect. maccess. rewrite bind_alloc. fold e eff.
  rewrite bind_gets. proj. rewrite Hf.
  erewrite bind_deref by (proj; exact HF). cbn beta.
  destruct (Fiber.updateQueue F) as [cq|] eqn:Ecq.
  - destruct Hq as (Q & HQ & Hc).
    destruct (effectLinks_enqueued _ _ _ eff Hc eq_refl) as (Hc' & Hsame & Hnew & Hfresh).
    fold e in Hc', Hsame, Hnew, Hfresh.
    rewrite bind_bind. erewrite bind_deref by (proj; exact HQ). cbn beta.
    destruct (FunctionComponentUpdateQueue.lastEffect Q) as [w|] eqn:Ew.
    + assert (Hin : w ∈ ls).
      { destruct Hc as (_ & Hlast & _).
        apply last_Some in Hlast as (l' & ->). apply elem_of_app. right. left. }
      assert (Hwl : is_Some (effects st !! w)).
      { destruct Hc as (_ & _ & Hl). apply effectLinked_links in Hl.
        destruct (linked_lookup _ _ _ _ Hl Hin) as [x Hx].
        unfold effectLinks in Hx. rewrite lookup_fmap in Hx.
        destruct (effects st !! w); [eauto|discriminate]. }
      destruct Hwl as [le Hle]. rewrite Hle in Hc', Hsame, Hnew.
      assert (Hwe : w <> e) by congruence.
      mrun.
      eexists. split; [reflexivity|]. proj.
      split; [exact He|].
      split.
      { exists F. split; [exact HF|]. rewrite Ecq. eexists.
        split; [apply lookup_insert_eq|]. exact Hc'. }
      split; [exact Hnew|]. split; [exact Hsame|]. split; [reflexivity|].
      split.
      { intros F1 HF1. rewrite HF in HF1. injection HF1 as <-. exists F.
        split; [exact HF|]. split; [destruct F; reflexivity|]. reflexivity. }
      reflexivity.
    + mrun.
      eexists. split; [reflexivity|]. proj.
      split; [exact He|].
      split.
      { exists F. split; [exact HF|]. rewrite Ecq. eexists.
        split; [apply lookup_insert_eq|]. exact Hc'. }
      split; [exact Hnew|]. split; [exact Hsame|]. split; [reflexivity|].
      split.
      { intros F1 HF1. rewrite HF in HF1. injection HF1 as <-. exists F.
        split; [exact HF|]. split; [destruct F; reflexivity|]. reflexivity. }
      reflexivity.
  - subst ls.
    assert (Hc : effectCircular (effects st) None []).
    { repeat split. constructor. }
    destruct (effectLinks_enqueued _ _ _ eff Hc eq_refl) as (Hc' & Hsame & Hnew & Hfresh).
    fold e in Hc', Hsame, Hnew, Hfresh.
    mrun.
    eexists. split; [reflexivity|]. proj.
    split; [exact He|].
    split.
    { eexists. split; [apply lookup_insert_eq|]. proj. eexists.
      split; [apply lookup_insert_eq|]. exact Hc'. }
    split; [exact Hnew|]. split; [exact Hsame|]. split; [reflexivity|].
    split.
    { intros F1 HF1. rewrite HF in HF1. injection HF1 as <-. eexists.
      split; [apply lookup_insert_eq|]. split; [reflexivity|].
      intros Habs. congruence. }
    intros f' Hf'. apply lookup_insert_ne. congruence.
Qed.

(** X10. [pushEffect] appends the new effect to the effect list of the fiber
    being rendered, creating the list when the fiber has none: the effects
    are in the list in the order in which they were pushed, and those that
    were in the list keep what they hold.  Nothing else of the fiber and no
    hook is written. *)
Theorem pushEffect_appends tag create destroy deps st f ls
    (Hf : currentlyRenderingFiber st = Some f)
    (Hls : effectList st f ls) :
  exists st',
    pushEffect tag create destroy deps st = (Returns (freshLoc (effects st)), st')
    /\ effects st !! freshLoc (effects st) = None
    /\ effectList st' f (ls ++ [freshLoc (effects st)])
    /\ effectAt (effects st') (freshLoc (effects st))
       = Some (Effect.mk tag create destroy deps None)
    /\ (forall l, l ∈ ls -> effectAt (effects st') l = effectAt (effects st) l)
    /\ hooks st' = hooks st
    /\ (forall F, fibers st !! f = Some F ->
          exists F', fibers st' !! f = Some F'
            /\ F' = Fiber.set_updateQueue (Fiber.updateQueue F') F
            /\ (Fiber.updateQueue F <> None -> F' = F))
    /\ (forall f', f' <> f -> fibers st' !! f' = fibers st !! f').
Proof.
  destruct (pushEffect_list tag create destroy deps st f ls Hf Hls)
    as (st' & Hrun & Hrest).
  exists st'. split; [exact Hrun|exact Hrest].
Qed.

Lemma hookChain_next hs hs' ls :
  (forall l, l ∈ ls -> Hook.next <$> hs' !! l = Hook.next <$> hs !! l) ->
  forall head, hookChain hs head ls -> hookChain hs' head ls.
Proof.
  induction ls as [|l ls IH]; intros Hsame head Hc; [exact Hc|].
  destruct Hc as (Hhead & h & Hh & Hrest). split; [exact Hhead|].
  pose proof (Hsame l ltac:(left)) as Hl. rewrite Hh in Hl.
  destruct (hs' !! l) as [h'|]; [|discriminate]. cbn in Hl. injection Hl as Hl.
  exists h'. split; [reflexivity|]. rewrite Hl.
  apply IH; [|exact Hrest]. intros l' Hl'. apply Hsame. right. exact Hl'.
Qed.

(** X11. On mount an effect hook gets a new hook at the end of the hook list and
    a new effect at the end of the effect list of the fiber, in the order of
    the calls; the effect carries [HookHasEffect], so that it runs, no
    cleanup, and the dependencies as given; the hook holds the effect; and
    the fiber gets the flags of the kind of effect, which are [Update] and
    [Passive] for [mountEffect] and [Update] for [mountLayoutEffect]. *)
Theorem mountEffectImpl_appends fiberFlags hookFlags create deps st f F hs es
    (Hf : currentlyRenderingFiber st = Some f)
    (HF : fibers st !! f = Some F)
    (Hchain : hookChain (hooks st) (Fiber.memoizedState F) hs)
    (Hcursor : workInProgressHook st = last hs)
    (Hes : effectList st f es) :
  exists st' F',
    mountEffectImpl fiberFlags hookFlags create deps st = (Returns tt, st')
    /\ fibers st' !! f = Some F'
    /\ Fiber.flags F' = N.lor (Fiber.flags F) fiberFlags
    /\ Fiber.lanes F' = Fiber.lanes F
    /\ hookChain (hooks st') (Fiber.memoizedState F') (hs ++ [freshLoc (hooks st)])
    /\ hooks st' !! freshLoc (hooks st)
       = Some (Hook.mk (VObj (freshLoc (effects st))) VNull None None None)
    /\ (forall l, l ∈ hs ->
          Hook.set_next None <$> hooks st' !! l = Hook.set_next None <$> hooks st !! l)
    /\ effectList st' f (es ++ [freshLoc (effects st)])
    /\ effectAt (effects st') (freshLoc (effects st))
       = Some (Effect.mk (N.lor HookHasEffect hookFlags) create VUndefined deps None)
    /\ (forall l, l ∈ es -> effectAt (effects st') l = effectAt (effects st) l)
    /\ mountEffect create deps st
       = mountEffectImpl (N.lor UpdateEffect PassiveEffect) HookPassive create deps st
    /\ mountLayoutEffect create deps st
       = mountEffectImpl UpdateEffect HookLayout create deps st.
Proof.
  destruct (mountWorkInProgressHook_list st f F hs Hf HF Hchain Hcursor)
    as (s1 & F1 & Hrun1 & Hh0 & Hh1 & HF1 & Hchain1 & Hcur1 & Hkeep1 & EF1 & Hfib1
        & Hq1 & Hu1 & He1 & Hcq1 & Hcrf1).
  set (h := freshLoc (hooks st)) in *.
  assert (Hf1 : currentlyRenderingFiber s1 = Some f) by congruence.
  set (F2 := Fiber.set_flags (N.lor (Fiber.flags F1) fiberFlags) F1).
  set (s2 := set_fibers (<[f := F2]> (fibers s1)) s1).
  assert (HF2 : fibers s2 !! f = Some F2) by apply lookup_insert_eq.
  assert (Hes2 : effectList s2 f es).
  { destruct Hes as (F0 & HF0 & Hq). rewrite HF in HF0. injection HF0 as <-.
    exists F2. split; [exact HF2|]. unfold F2. rewrite EF1. proj.
    unfold s2. proj. rewrite He1, Hcq1. exact Hq. }
  destruct (pushEffect_list (N.lor HookHasEffect hookFlags) create VUndefined deps
              s2 f es Hf1 Hes2)
    as (s3 & Hrun3 & He0 & Hes3 & Hnew3 & Hkeep3 & Hh3 & HF3 & Hfib3).
  assert (Ee : freshLoc (effects s2) = freshLoc (effects st)).
  { unfold s2. proj. rewrite He1. reflexivity. }
  assert (Ees : effects s2 = effects st) by exact He1.
  rewrite Ee, ?Ees in *.
  destruct (HF3 _ HF2) as (F3 & HF3' & EF3 & _).
  assert (Hh3h : hooks s3 !! h = Some (Hook.mk VNull VNull None None None)).
  { rewrite Hh3. exact Hh1. }
  exists (set_hooks (<[h := Hook.set_memoizedState (VObj (freshLoc (effects st)))
                            (Hook.mk VNull VNull None None None)]> (hooks s3)) s3), F3.
  split.
  { unfold mountEffectImpl. rewrite (bind_Returns _ _ _ _ _ Hrun1). fold h.
    rewrite bind_gets, Hf1. maccess.
    erewrite bind_assign by exact HF1. cbn beta. fold F2 s2.
    rewrite (bind_Returns _ _ _ _ _ Hrun3).
    erewrite assign_Some by exact Hh3h. reflexivity. }
  proj. split; [exact HF3'|].
  split; [rewrite EF3; unfold F2; rewrite EF1; reflexivity|].
  split; [rewrite EF3; unfold F2; rewrite EF1; reflexivity|].
  split.
  { replace (Fiber.memoizedState F3) with (Fiber.memoizedState F1)
      by (rewrite EF3; reflexivity).
    eapply hookChain_next; [|exact Hchain1]. intros l Hl.
    rewrite Hh3. change (hooks s2) with (hooks s1).
    destruct (decide (l = h)) as [->|Hlh].
    - rewrite lookup_insert_eq, Hh1. reflexivity.
    - rewrite lookup_insert_ne by congruence. reflexivity. }
  split; [apply lookup_insert_eq|].
  split.
  { intros l Hl. assert (l <> h).
    { intros ->. destruct (hookChain_lookup _ _ _ _ Hchain Hl) as [y Hy]. congruence. }
    rewrite lookup_insert_ne by congruence. rewrite Hh3. apply Hkeep1, Hl. }
  split.
  { destruct Hes3 as (Fx & HFx & Hq). exists Fx. split; [exact HFx|exact Hq]. }
  split; [exact Hnew3|]. split; [exact Hkeep3|].
  split; reflexivity.
Qed.

Lemma last_None_nil {A : Type} (l : list A) : last l = None -> l = [].
Proof.
  destruct l as [|x l _] using rev_ind; [reflexivity|].
  rewrite last_snoc. discriminate.
Qed.

Lemma hookChain_app hs l1 :
  forall head l2,
    hookChain hs head (l1 ++ l2) ->
    match last l1 with
    | None => hookChain hs head l2
    | Some d => exists hd, hs !! d = Some hd /\ hookChain hs (Hook.next hd) l2
    end.
Proof.
  induction l1 as [|l l1 IH]; intros head l2 Hc; [exact Hc|].
  destruct Hc as (_ & hl & Hl & Hrest). apply IH in Hrest.
  destruct l1 as [|l' l1]; [cbn; eauto|].
  change (last (l :: l' :: l1)) with (last (l' :: l1)).
  destruct (last (l' :: l1)) eqn:Elast; [exact Hrest|].
  apply last_None_nil in Elast. discriminate Elast.
Qed.

Lemma updateWorkInProgressHook_clone st f current done rest ws
    (Hinv : updateCursor st f current done rest ws) :
  match rest with
  | c :: rest' =>
      exists st' hc,
        updateWorkInProgressHook st = (Returns (freshLoc (hooks st)), st')
        /\ hooks st !! c = Some hc
        /\ hooks st !! freshLoc (hooks st) = None
        /\ hooks st' !! freshLoc (hooks st) = Some (Hook.set_next None hc)
        /\ (forall l, l ∈ done ++ rest -> hooks st' !! l = hooks st !! l)
        /\ (forall l, l ∈ ws ->
              Hook.set_next None <$> hooks st' !! l = Hook.set_next None <$> hooks st !! l)
        /\ updateCursor st' f current (done ++ [c]) rest' (ws ++ [freshLoc (hooks st)])
  | [] =>
      updateWorkInProgressHook st = (Throws (Invariant msgRenderedMoreHooks), st)
  end.
Proof.
  destruct Hinv as (F & C & Hne & Hf & HF & Halt & HC & Hcs & Hws & Hcur & Hwip & Hlen
                    & Hdisj).
  (* the hook after the cursor of the committed list *)
  assert (Hnc : nextCurrentHook st = (Returns (head rest), st)).
  { unfold nextCurrentHook. rewrite bind_gets, Hcur.
    pose proof (hookChain_app _ _ _ _ Hcs) as Happ.
    destruct (last done) as [d|].
    - destruct Happ as (hd & Hd & Hrest). maccess.
      erewrite bind_deref by exact Hd. cbn beta.
      rewrite (hookChain_head _ _ _ Hrest). reflexivity.
    - rewrite bind_gets, Hf. maccess. erewrite bind_deref by exact HF. cbn beta.
      rewrite Halt. erewrite bind_deref by exact HC. cbn beta.
      rewrite (hookChain_head _ _ _ Happ). reflexivity. }
  (* no work-in-progress hook after the cursor *)
  assert (Hnw : nextWorkInProgressHook st = (Returns None, st)).
  { unfold nextWorkInProgressHook. rewrite bind_gets, Hwip.
    destruct (last ws) as [w|] eqn:Elast.
    - destruct (hookChain_last _ _ _ _ Hws Elast) as (hw & Hw & Hn). maccess.
      erewrite bind_deref by exact Hw. cbn beta. rewrite Hn. reflexivity.
    - apply last_None_nil in Elast. subst ws. cbn in Hws.
      rewrite bind_gets, Hf. maccess. erewrite bind_deref by exact HF. cbn beta.
      rewrite Hws. reflexivity. }
  unfold updateWorkInProgressHook.
  rewrite (bind_Returns _ _ _ _ _ Hnc), (bind_Returns _ _ _ _ _ Hnw).
  destruct rest as [|c rest']; [reflexivity|].
  cbn [head]. maccess. bdec. rewrite bind_ret, bind_modify.
  pose proof (hookChain_app _ _ _ _ Hcs) as Happ.
  assert (Hc : exists hc, hooks st !! c = Some hc).
  { destruct (last done) as [d|].
    - destruct Happ as (hd & _ & _ & hc & Hc & _). eauto.
    - destruct Happ as (_ & hc & Hc & _). eauto. }
  destruct Hc as [hc Hc].
  erewrite bind_deref by (proj; exact Hc). cbn beta. rewrite bind_alloc. proj.
  set (h := freshLoc (hooks st)).
  assert (Hh : hooks st !! h = None) by apply freshLoc_None.
  set (x := Hook.mk (Hook.memoizedState hc) (Hook.baseState hc) (Hook.baseQueue hc)
              (Hook.queue hc) None).
  assert (Hx : x = Hook.set_next None hc) by reflexivity.
  assert (Hhcs : h ∉ done ++ c :: rest').
  { intros Hin. destruct (hookChain_lookup _ _ _ _ Hcs Hin) as [y Hy]. congruence. }
  assert (Hhws : h ∉ ws).
  { intros Hin. destruct (hookChain_lookup _ _ _ _ Hws Hin) as [y Hy]. congruence. }
  assert (Hlast' : last (done ++ [c]) = Some c) by apply last_snoc.
  assert (Hcs' : (done ++ [c]) ++ rest' = done ++ c :: rest').
  { rewrite <- app_assoc. reflexivity. }
  rewrite bind_gets. proj. rewrite Hwip.
  destruct (last ws) as [w|] eqn:Elast.
  - destruct (hookChain_last _ _ _ _ Hws Elast) as (hw & Hw & Hn).
    assert (Hwh : w <> h) by congruence.
    assert (Hwin : w ∈ ws).
    { apply last_Some in Elast as (l' & ->). apply elem_of_app. right. left. }
    rewrite bind_bind.
    erewrite bind_assign by (proj; rewrite lookup_insert_ne by congruence; exact Hw).
    cbn beta. rewrite bind_modify. proj.
    eexists _, hc. split; [reflexivity|]. proj.
    split; [exact Hc|]. split; [exact Hh|].
    split; [rewrite lookup_insert_ne by congruence; apply lookup_insert_eq|].
    assert (Hkeep : forall l, l ∈ done ++ c :: rest' ->
              <[w := Hook.set_next (Some h) hw]> (<[h := x]> (hooks st)) !! l
              = hooks st !! l).
    { intros l Hl. rewrite !lookup_insert_ne; [reflexivity| |].
      - intros ->. contradiction.
      - intros ->. exact (Hdisj _ Hl Hwin). }
    split; [exact Hkeep|].
    split.
    { intros l Hl. destruct (decide (l = w)) as [->|Hlw].
      - rewrite lookup_insert_eq, Hw. reflexivity.
      - rewrite !lookup_insert_ne; [reflexivity| |congruence].
        intros <-. contradiction. }
    exists F, C. proj. rewrite Hcs', !last_snoc, !length_app, Hlen.
    repeat split; try assumption.
    + eapply hookChain_ext; [|exact Hcs]. exact Hkeep.
    + apply hookChain_snoc; auto.
    + intros l Hl Hin. apply elem_of_app in Hin as [Hin|Hin].
      * exact (Hdisj _ Hl Hin).
      * apply list_elem_of_singleton in Hin as ->. contradiction.
  - apply last_None_nil in Elast. subst ws. cbn in Hws.
    rewrite bind_bind, bind_modify, bind_bind, bind_gets. proj. rewrite Hf.
    erewrite bind_assign by (proj; exact HF). cbn beta. proj.
    eexists _, hc. split; [reflexivity|]. proj.
    split; [exact Hc|]. split; [exact Hh|].
    split; [apply lookup_insert_eq|].
    assert (Hkeep : forall l, l ∈ done ++ c :: rest' ->
              <[h := x]> (hooks st) !! l = hooks st !! l).
    { intros l Hl. apply lookup_insert_ne. intros <-. contradiction. }
    split; [exact Hkeep|].
    split; [intros l Hl; inversion Hl|].
    exists (Fiber.set_memoizedState (Some h) F), C. proj.
    rewrite Hcs', !last_snoc, !length_app, Hlen.
    repeat split; try assumption.
    + apply lookup_insert_eq.
    + rewrite lookup_insert_ne by exact Hne. exact HC.
    + eapply hookChain_ext; [|exact Hcs]. exact Hkeep.
    + exists x. rewrite lookup_insert_eq. split; reflexivity.
    + intros l Hl Hin. apply list_elem_of_singleton in Hin as ->. contradiction.
Qed.

(** X12. In an update render, [updateWorkInProgressHook] pairs the hooks with
    the committed ones by position: the call for the next position returns a
    new hook that is a copy of the committed hook [c] of that position as it
    is then, linked behind the clones made so far, and moves both cursors
    by one; the committed hooks are not written.  When the committed list
    has no hook left, the call fails with the invariant. *)
Theorem updateWorkInProgressHook_position st f current done rest ws
    (Hinv : updateCursor st f current done rest ws) :
  match rest with
  | c :: rest' =>
      exists st' hc,
        updateWorkInProgressHook st = (Returns (freshLoc (hooks st)), st')
        /\ hooks st !! c = Some hc
        /\ hooks st !! freshLoc (hooks st) = None
        /\ hooks st' !! freshLoc (hooks st) = Some (Hook.set_next None hc)
        /\ (forall l, l ∈ done ++ rest -> hooks st' !! l = hooks st !! l)
        /\ (forall l, l ∈ ws ->
              Hook.set_next None <$> hooks st' !! l = Hook.set_next None <$> hooks st !! l)
        /\ updateCursor st' f current (done ++ [c]) rest' (ws ++ [freshLoc (hooks st)])
  | [] =>
      updateWorkInProgressHook st = (Throws (Invariant msgRenderedMoreHooks), st)
  end.
Proof.
  pose proof (updateWorkInProgressHook_clone st f current done rest ws Hinv) as H.
  destruct rest as [|c rest']; [exact H|].
  destruct H as (st' & hc & H). exists st', hc. exact H.
Qed.


(** ** Memoized values, callbacks and refs *)

(** X13. [updateMemo] on a hook that holds the array of a value [v] and of the
    dependencies [prevDeps].  With new dependencies that are equal to the
    previous ones it returns [v] and does not call [nextCreate], which may
    be a function that throws, and writes neither to the hook nor to the
    arrays.  With no dependencies, or with dependencies that differ, it
    calls [nextCreate]: the result is returned and kept with the new
    dependencies in a new array, the previous one being left as it is; an
    error of [nextCreate] leaves the hook as it is. *)
Theorem updateMemo_cached nextCreate deps cells st hook st1 hh m v prevDeps
    (Hhook : updateWorkInProgressHook st = (Returns hook, st1))
    (Hhh : hooks st1 !! hook = Some hh)
    (Hm : Hook.memoizedState hh = VObj m)
    (Hcell : cells !! m = Some (MemoCell v prevDeps)) :
  if match deps with
     | Some nextDeps => areHookInputsEqual nextDeps prevDeps
     | None => false
     end
  then updateMemo nextCreate deps cells st = (Returns (v, cells), st1)
  else
    match call nextCreate [] with
    | Some v' =>
        updateMemo nextCreate deps cells st
        = (Returns (v', <[freshLoc cells := MemoCell v' deps]> cells),
           set_hooks
             (<[hook := Hook.set_memoizedState (VObj (freshLoc cells)) hh]> (hooks st1))
             st1)
        /\ freshLoc cells <> m
        /\ <[freshLoc cells := MemoCell v' deps]> cells !! m = Some (MemoCell v prevDeps)
    | None => updateMemo nextCreate deps cells st = (Throws UserError, st1)
    end.
Proof.
  assert (Hfresh : freshLoc cells <> m) by (eapply freshLoc_ne; exact Hcell).
  unfold updateMemo. rewrite (bind_Returns _ _ _ _ _ Hhook). maccess.
  erewrite bind_deref by exact Hhh. cbn beta. rewrite Hm.
  unfold memoizedFor, memoized. rewrite Hcell.
  destruct deps as [nextDeps|].
  - rewrite bind_ret. destruct (areHookInputsEqual nextDeps prevDeps); [reflexivity|].
    unfold callUser. destruct (call nextCreate []) as [v'|].
    + rewrite bind_ret. erewrite bind_assign by exact Hhh. cbn beta.
      split; [reflexivity|]. split; [exact Hfresh|].
      rewrite lookup_insert_ne by exact Hfresh. exact Hcell.
    + reflexivity.
  - rewrite bind_ret. unfold callUser. destruct (call nextCreate []) as [v'|].
    + rewrite bind_ret. erewrite bind_assign by exact Hhh. cbn beta.
      split; [reflexivity|]. split; [exact Hfresh|].
      rewrite lookup_insert_ne by exact Hfresh. exact Hcell.
    + reflexivity.
Qed.

(** X14. [updateCallback] on a hook that holds the array of a callback [v] and
    of the dependencies [prevDeps]: with new dependencies that are equal to
    the previous ones the callback that is returned is [v], the one of the
    earlier render, and nothing is written; otherwise the new callback is
    returned and kept with the new dependencies in a new array.  The mount
    keeps the callback and the dependencies as they are given, so that a
    callback mounted with dependencies is returned again for the same
    dependencies, whatever the new callback. *)
Theorem updateCallback_cached callback deps cells st hook st1 hh m v prevDeps
    (Hhook : updateWorkInProgressHook st = (Returns hook, st1))
    (Hhh : hooks st1 !! hook = Some hh)
    (Hm : Hook.memoizedState hh = VObj m)
    (Hcell : cells !! m = Some (MemoCell v prevDeps)) :
  (if match deps with
      | Some nextDeps => areHookInputsEqual nextDeps prevDeps
      | None => false
      end
   then updateCallback callback deps cells st = (Returns (v, cells), st1)
   else
     updateCallback callback deps cells st
     = (Returns (callback, <[freshLoc cells := MemoCell callback deps]> cells),
        set_hooks
          (<[hook := Hook.set_memoizedState (VObj (freshLoc cells)) hh]> (hooks st1))
          st1))
  /\ (prevDeps = deps -> deps <> None ->
      updateCallback callback deps cells st = (Returns (v, cells), st1))
  /\ (forall s0 h0 s0' cells0 d,
        mountWorkInProgressHook s0 = (Returns h0, s0') ->
        is_Some (hooks s0' !! h0) ->
        exists s0'',
          mountCallback v d cells0 s0
          = (Returns (v, <[freshLoc cells0 := MemoCell v d]> cells0), s0'')
          /\ Hook.memoizedState <$> hooks s0'' !! h0 = Some (VObj (freshLoc cells0))).
Proof.
  assert (Hrun :
    if match deps with
       | Some nextDeps => areHookInputsEqual nextDeps prevDeps
       | None => false
       end
    then updateCallback callback deps cells st = (Returns (v, cells), st1)
    else
      updateCallback callback deps cells st
      = (Returns (callback, <[freshLoc cells := MemoCell callback deps]> cells),
         set_hooks
           (<[hook := Hook.set_memoizedState (VObj (freshLoc cells)) hh]> (hooks st1))
           st1)).
  { unfold updateCallback. rewrite (bind_Returns _ _ _ _ _ Hhook). maccess.
    erewrite bind_deref by exact Hhh. cbn beta. rewrite Hm.
    unfold memoizedFor, memoized. rewrite Hcell.
    destruct deps as [nextDeps|].
    - rewrite bind_ret. destruct (areHookInputsEqual nextDeps prevDeps); [reflexivity|].
      erewrite bind_assign by exact Hhh. reflexivity.
    - rewrite bind_ret. erewrite bind_assign by exact Hhh. reflexivity. }
  split; [exact Hrun|]. split.
  - intros -> Hsome. destruct deps as [d|]; [|congruence].
    assert (Hrefl : areHookInputsEqual d (Some d) = true).
    { unfold areHookInputsEqual.
      pose proof (areHookInputsEqual_loop_app d [] []) as H.
      rewrite app_nil_r in H. exact H. }
    rewrite Hrefl in Hrun. exact Hrun.
  - intros s0 h0 s0' cells0 d Hmount [x Hx].
    unfold mountCallback. rewrite (bind_Returns _ _ _ _ _ Hmount). maccess.
    erewrite bind_assign by exact Hx. cbn beta.
    eexists. split; [reflexivity|]. proj. rewrite lookup_insert_eq. reflexivity.
Qed.

(** ** A component that updates itself while it renders *)

Lemma renderWithHooks_settles fuel current wip Component props arg lanes st F mounting
    k v st'
    (HF : fibers st !! wip = Some F)
    (Hcur : current <> Some wip)
    (Hmount : isMount st current mounting)
    (Hfuel : (RE_RENDER_LIMIT < fuel)%nat)
    (Hp : passes wip Component props arg k (renderStart wip F mounting lanes st) v st')
    (Hflag : didScheduleRenderPhaseUpdateDuringThisPass st' = false)
    (Hk : (k <= RE_RENDER_LIMIT)%nat)
    (Hlive : currentHookLive st') :
  renderWithHooks fuel current wip Component props arg lanes st
  = (Returns v, renderEnd st').
Proof.
  rewrite (renderWithHooks_start _ _ _ _ _ _ _ _ _ _ HF Hcur Hmount).
  inversion Hp as [? ? ? HC|k' ? v1 st1 F1 ? ? HC Hflag1 HF1 Hrest]; subst.
  - rewrite (bind_Returns _ _ _ _ _ HC). mrun.
    apply renderWithHooks_end, Hlive.
  - rewrite (bind_Returns _ _ _ _ _ HC). mrun.
    erewrite bind_Returns; [apply renderWithHooks_end, Hlive|].
    rewrite (renderWithHooks_loop_passes _ _ _ _ _ fuel 0%nat _ _ _ _ Hrest HF1)
      by (unfold RE_RENDER_LIMIT in *; lia).
    rewrite Hflag. reflexivity.
Qed.

Lemma renderWithHooks_exceeds fuel current wip Component props arg lanes st F mounting
    v st'
    (HF : fibers st !! wip = Some F)
    (Hcur : current <> Some wip)
    (Hmount : isMount st current mounting)
    (Hfuel : (RE_RENDER_LIMIT < fuel)%nat)
    (Hp : passes wip Component props arg RE_RENDER_LIMIT
            (renderStart wip F mounting lanes st) v st')
    (Hflag : didScheduleRenderPhaseUpdateDuringThisPass st' = true) :
  renderWithHooks fuel current wip Component props arg lanes st
  = (Throws (Invariant msgTooManyReRenders),
     set_didScheduleRenderPhaseUpdateDuringThisPass false st').
Proof.
  rewrite (renderWithHooks_start _ _ _ _ _ _ _ _ _ _ HF Hcur Hmount).
  change RE_RENDER_LIMIT with (S 24) in Hp.
  inversion Hp as [|k ? v1 st1 F1 ? ? HC Hflag1 HF1 Hrest]; subst.
  rewrite (bind_Returns _ _ _ _ _ HC). mrun.
  erewrite bind_Throws; [reflexivity|].
  rewrite (renderWithHooks_loop_passes _ _ _ _ _ fuel 0%nat _ _ _ _ Hrest HF1)
    by (unfold RE_RENDER_LIMIT in *; lia).
  rewrite Hflag.
  destruct (fuel - 25)%nat as [|fuel'] eqn:Ef; [unfold RE_RENDER_LIMIT in *; lia|].
  change (0 + 25)%nat with RE_RENDER_LIMIT.
  apply renderWithHooks_loop_limit.
Qed.

Lemma selfUpdating_dispatch eventTime lane wip q reducer target j st F lrs
    (Hf : currentlyRenderingFiber st = Some wip)
    (HF : fibers st !! wip = Some F)
    (Hm : exists h, Fiber.memoizedState F = Some h
            /\ hooks st !! h = Some (Hook.mk (VNum j) (VNum j) None (Some q) None))
    (Halt : Fiber.alternate F = None)
    (Hch : currentHook st = None)
    (HQ : queues st !! q
          = Some (UpdateQueue.mk None (Some (Some wip, q)) (Some reducer) lrs))
    (Hflag : didScheduleRenderPhaseUpdateDuringThisPass st = false) :
  exists st',
    (if (j <? target)%Z
     then let* _ := dispatchAction eventTime lane wip q (VNum 1) in ret (VNum j)
     else ret (VNum j)) st
    = (Returns (VNum j), st')
    /\ forall h, Fiber.memoizedState F = Some h ->
         selfUpdated wip h q reducer lane target j st'.
Proof.
  destruct Hm as (h & Hm & Hh).
  destruct (j <? target)%Z eqn:Elt.
  - assert (HP : circular (updates st)
                   (UpdateQueue.pending
                      (UpdateQueue.mk None (Some (Some wip, q)) (Some reducer) lrs)) []).
    { apply circular_nil. }
    assert (Hphase : isRenderPhaseUpdate st wip F = true).
    { unfold isRenderPhaseUpdate. rewrite Hf. bdec. reflexivity. }
    rewrite (bind_Returns _ _ _ _ _
               (dispatchAction_render_phase eventTime lane wip q (VNum 1) st _ [] F
                  HQ HP HF Hphase)).
    eexists. split; [reflexivity|]. intros h' Hh'. rewrite Hm in Hh'. injection Hh' as <-.
    exists F, lrs. unfold enqueuedState, enqueued. proj. rewrite Elt.
    repeat split; try assumption.
    exists (freshLoc (updates st)). rewrite !lookup_insert_eq. repeat split.
  - eexists. split; [reflexivity|]. intros h' Hh'. rewrite Hm in Hh'. injection Hh' as <-.
    exists F, lrs. rewrite Elt. repeat split; assumption.
Qed.

Lemma selfUpdating_mount fuel reducer target eventTime lane props arg st wip F
    (Hf : currentlyRenderingFiber st = Some wip)
    (HF : fibers st !! wip = Some F)
    (Halt : Fiber.alternate F = None)
    (Hwh : workInProgressHook st = None)
    (Hch : currentHook st = None)
    (Hd : currentDispatcher st = HooksDispatcherOnMount)
    (Hflag : didScheduleRenderPhaseUpdateDuringThisPass st = false) :
  exists st',
    selfUpdating fuel reducer target eventTime lane props arg st
    = (Returns (VNum 0), st')
    /\ selfUpdated wip (freshLoc (hooks st)) (freshLoc (queues st)) reducer lane
         target 0 st'.
Proof.
  unfold selfUpdating, useReducer. rewrite bind_bind, bind_gets, Hd.
  unfold mountReducer, mountWorkInProgressHook.
  mrun. rewrite !insert_insert_eq.
  match goal with
  | |- exists st', _ ?s = _ /\ _ => set (s1 := s)
  end.
  destruct (selfUpdating_dispatch eventTime lane wip (freshLoc (queues st)) reducer
              target 0 s1 (Fiber.set_memoizedState (Some (freshLoc (hooks st))) F)
              (VNum 0))
    as (st' & Hrun & Hinv).
  - exact Hf.
  - unfold s1. proj. apply lookup_insert_eq.
  - exists (freshLoc (hooks st)). split; [reflexivity|].
    unfold s1. proj. apply lookup_insert_eq.
  - exact Halt.
  - exact Hch.
  - unfold s1. proj. apply lookup_insert_eq.
  - exact Hflag.
  - exists st'. split; [exact Hrun|]. apply Hinv. reflexivity.
Qed.

Lemma selfUpdating_rerender fuel reducer target eventTime lane props arg wip h q j st Fs
    (Hadd : forall s a, call reducer [VNum s; VNum a] = Some (VNum (s + a)))
    (Hinv : selfUpdated wip h q reducer lane target j st)
    (Hlt : (j <? target)%Z = true)
    (HFs : fibers st !! wip = Some Fs)
    (Hfuel : (0 < fuel)%nat) :
  exists st',
    selfUpdating fuel reducer target eventTime lane props arg (rerenderStart wip Fs st)
    = (Returns (VNum (j + 1)), st')
    /\ selfUpdated wip h q reducer lane target (j + 1) st'.
Proof.
  destruct Hinv as (F & lrs & Hf & HF & Hm & Halt & Hh & Hch & Hq).
  rewrite Hlt in Hq. destruct Hq as (u & HQ & Hu & Hflag).
  rewrite HF in HFs. injection HFs as <-.
  destruct fuel as [|fuel]; [lia|].
  unfold selfUpdating, useReducer, rerenderStart. rewrite bind_bind, bind_gets. proj.
  unfold rerenderReducer, updateWorkInProgressHook, nextCurrentHook,
    nextWorkInProgressHook.
  mrun. cbn [rerenderReducer_loop]. mrun. unfold callUser. rewrite Hadd. mrun.
  assert (Hne : objectIs (VNum (j + 1)) (VNum j) = false).
  { unfold objectIs. apply bool_decide_eq_false_2. intros [= H]. lia. }
  rewrite Hne. unfold markWorkInProgressReceivedUpdate. mrun.
  rewrite !insert_insert_eq.
  match goal with
  | |- exists st', _ ?s = _ /\ _ => set (s1 := s)
  end.
  destruct (selfUpdating_dispatch eventTime lane wip q reducer target (j + 1) s1
              (Fiber.set_updateQueue None F) (VNum (j + 1)))
    as (st' & Hrun & Hinv).
  - exact Hf.
  - unfold s1. proj. apply lookup_insert_eq.
  - exists h. split; [exact Hm|]. unfold s1. proj. apply lookup_insert_eq.
  - exact Halt.
  - reflexivity.
  - unfold s1. proj. apply lookup_insert_eq.
  - reflexivity.
  - exists st'. split; [exact Hrun|]. apply Hinv. exact Hm.
Qed.

Lemma selfUpdated_flag wip h q reducer lane target j st :
  selfUpdated wip h q reducer lane target j st ->
  didScheduleRenderPhaseUpdateDuringThisPass st = (j <? target)%Z
  /\ is_Some (fibers st !! wip)
  /\ currentHookLive st.
Proof.
  intros (F & lrs & Hf & HF & Hm & Halt & Hh & Hch & Hq).
  split; [|split; [eauto|unfold currentHookLive; rewrite Hch; exact I]].
  destruct (j <? target)%Z.
  - destruct Hq as (u & _ & _ & Hflag). exact Hflag.
  - exact (proj2 Hq).
Qed.

Lemma selfUpdating_passes fuel reducer target eventTime lane props arg wip h q
    (Hadd : forall s a, call reducer [VNum s; VNum a] = Some (VNum (s + a)))
    (Hfuel : (0 < fuel)%nat) :
  forall k j st Fs,
    selfUpdated wip h q reducer lane target j st ->
    fibers st !! wip = Some Fs ->
    (j + 1 + Z.of_nat k <= target)%Z ->
    exists st',
      passes wip (selfUpdating fuel reducer target eventTime lane) props arg k
        (rerenderStart wip Fs st) (VNum (j + 1 + Z.of_nat k)) st'
      /\ selfUpdated wip h q reducer lane target (j + 1 + Z.of_nat k) st'.
Proof.
  induction k as [|k IH]; intros j st Fs Hinv HFs Hle.
  - destruct (selfUpdating_rerender fuel reducer target eventTime lane props arg
                wip h q j st Fs Hadd Hinv) as (st' & Hrun & Hinv'); auto.
    { apply Z.ltb_lt. lia. }
    replace (j + 1 + Z.of_nat 0)%Z with (j + 1)%Z by lia.
    exists st'. split; [constructor; exact Hrun|exact Hinv'].
  - destruct (selfUpdating_rerender fuel reducer target eventTime lane props arg
                wip h q j st Fs Hadd Hinv) as (st1 & Hrun & Hinv1); auto.
    { apply Z.ltb_lt. lia. }
    destruct (selfUpdated_flag _ _ _ _ _ _ _ _ Hinv1) as (Hflag1 & [F1 HF1] & _).
    destruct (IH (j + 1)%Z st1 F1 Hinv1 HF1) as (st' & Hp & Hinv'); [lia|].
    replace (j + 1 + 1 + Z.of_nat k)%Z with (j + 1 + Z.of_nat (S k))%Z in * by lia.
    exists st'. split; [|exact Hinv'].
    econstructor; [exact Hrun| |exact HF1|exact Hp].
    rewrite Hflag1. apply Z.ltb_lt. lia.
Qed.

(** X15. A component that dispatches to its own reducer cell while it renders, as
    long as its state is below [target], is rendered again after each such
    pass, with the render-phase update applied: mounted by [renderWithHooks]
    it renders [target] when [target] is at most 25, after that many
    re-renders, and it fails with the invariant "Too many re-renders" when
    [target] is above 25. *)
Theorem selfUpdating_renders fuel reducer target eventTime lane props arg lanes st wip F
    (Hadd : forall s a, call reducer [VNum s; VNum a] = Some (VNum (s + a)))
    (HF : fibers st !! wip = Some F)
    (Halt : Fiber.alternate F = None)
    (Hwh : workInProgressHook st = None)
    (Hch : currentHook st = None)
    (Hflag : didScheduleRenderPhaseUpdateDuringThisPass st = false)
    (Hfuel : (RE_RENDER_LIMIT < fuel)%nat) :
  ((0 <= target <= 25)%Z ->
     exists st',
       renderWithHooks fuel None wip (selfUpdating fuel reducer target eventTime lane)
         props arg lanes st
       = (Returns (VNum target), st')
       /\ atRest st')
  /\ ((25 < target)%Z ->
        exists st',
          renderWithHooks fuel None wip (selfUpdating fuel reducer target eventTime lane)
            props arg lanes st
          = (Throws (Invariant msgTooManyReRenders), st')).
Proof.
  assert (Hcur : (None : option loc) <> Some wip) by discriminate.
  assert (Hmount : isMount st None true) by reflexivity.
  assert (Hfuel' : (0 < fuel)%nat) by lia.
  set (st0 := renderStart wip F true lanes st).
  destruct (selfUpdating_mount fuel reducer target eventTime lane props arg st0 wip
              (Fiber.set_lanes NoLanes
                 (Fiber.set_updateQueue None (Fiber.set_memoizedState None F))))
    as (s1 & Hrun1 & Hinv1); try reflexivity; try assumption.
  { unfold st0, renderStart. proj. apply lookup_insert_eq. }
  set (h := freshLoc (hooks st0)) in *. set (q := freshLoc (queues st0)) in *.
  destruct (selfUpdated_flag _ _ _ _ _ _ _ _ Hinv1) as (Hflag1 & [F1 HF1] & Hlive1).
  split.
  - intros [H0 H25]. destruct (Z.eq_dec target 0%Z) as [->|Hpos].
    + exists (renderEnd s1). split; [|repeat split; exact Hflag1].
      eapply (renderWithHooks_settles fuel None wip _ props arg lanes st F true 0);
        try eassumption; [constructor; exact Hrun1|lia].
    + destruct (selfUpdating_passes fuel reducer target eventTime lane props arg wip h q
                  Hadd Hfuel' (Z.to_nat (target - 1)) 0%Z s1 F1 Hinv1 HF1)
        as (st' & Hp & Hinv'); [lia|].
      replace (0 + 1 + Z.of_nat (Z.to_nat (target - 1)))%Z with target in * by lia.
      destruct (selfUpdated_flag _ _ _ _ _ _ _ _ Hinv') as (Hflag' & _ & Hlive').
      rewrite Z.ltb_irrefl in Hflag'.
      exists (renderEnd st'). split; [|repeat split; exact Hflag'].
      eapply (renderWithHooks_settles fuel None wip _ props arg lanes st F true
                (S (Z.to_nat (target - 1)))); try eassumption.
      * econstructor; [exact Hrun1| |exact HF1|exact Hp].
        rewrite Hflag1. apply Z.ltb_lt. lia.
      * unfold RE_RENDER_LIMIT. lia.
  - intros Hgt.
    destruct (selfUpdating_passes fuel reducer target eventTime lane props arg wip h q
                Hadd Hfuel' 24%nat 0%Z s1 F1 Hinv1 HF1)
      as (st' & Hp & Hinv'); [lia|].
    destruct (selfUpdated_flag _ _ _ _ _ _ _ _ Hinv') as (Hflag' & _ & _).
    eexists.
    eapply (renderWithHooks_exceeds fuel None wip _ props arg lanes st F true);
      try eassumption.
    + change RE_RENDER_LIMIT with (S 24).
      econstructor; [exact Hrun1| |exact HF1|exact Hp].
      rewrite Hflag1. apply Z.ltb_lt. lia.
    + rewrite Hflag'. apply Z.ltb_lt. lia.
Qed.

(** ** Round trips of memoized values and refs *)

Lemma areHookInputsEqual_refl d : areHookInputsEqual d (Some d) = true.
Proof.
  unfold areHookInputsEqual.
  pose proof (areHookInputsEqual_loop_app d [] []) as H.
  rewrite app_nil_r in H. exact H.
Qed.

(** X16. What [mountMemo] keeps is what [updateMemo] finds: when [nextCreate]
    returns [v] on mount, with the dependencies [d], the hook holds an array
    for which a later [updateMemo] with the same dependencies returns [v]
    again, on the hook of a later render that carries this state and with
    any arrays allocated since; the function given to that [updateMemo],
    which may be another one and may throw, is not called, and nothing is
    written. *)
Theorem mountMemo_updateMemo_round_trip nextCreate nextCreate' d cells s0 h0 s0' hh0 v
    st hook st1 hh
    (Hmount : mountWorkInProgressHook s0 = (Returns h0, s0'))
    (Hh0 : hooks s0' !! h0 = Some hh0)
    (Hcall : call nextCreate [] = Some v)
    (Hhook : updateWorkInProgressHook st = (Returns hook, st1))
    (Hhh : hooks st1 !! hook = Some hh) :
  exists s0'',
    mountMemo nextCreate (Some d) cells s0
    = (Returns (v, <[freshLoc cells := MemoCell v (Some d)]> cells), s0'')
    /\ Hook.memoizedState <$> hooks s0'' !! h0 = Some (VObj (freshLoc cells))
    /\ cells !! freshLoc cells = None
    /\ (forall cells2,
          Hook.memoizedState hh = VObj (freshLoc cells) ->
          <[freshLoc cells := MemoCell v (Some d)]> cells ⊆ cells2 ->
          updateMemo nextCreate' (Some d) cells2 st = (Returns (v, cells2), st1)).
Proof.
  exists (set_hooks (<[h0 := Hook.set_memoizedState (VObj (freshLoc cells)) hh0]>
                       (hooks s0')) s0').
  split.
  { unfold mountMemo. rewrite (bind_Returns _ _ _ _ _ Hmount).
    unfold callUser. rewrite Hcall, bind_ret. maccess.
    erewrite bind_assign by exact Hh0. reflexivity. }
  split; [proj; rewrite lookup_insert_eq; reflexivity|].
  split; [apply freshLoc_None|].
  intros cells2 Hm Hsub.
  assert (Hcell : cells2 !! freshLoc cells = Some (MemoCell v (Some d))).
  { eapply lookup_weaken; [apply lookup_insert_eq|exact Hsub]. }
  unfold updateMemo. rewrite (bind_Returns _ _ _ _ _ Hhook). maccess.
  erewrite bind_deref by exact Hhh. cbn beta. rewrite Hm.
  unfold memoizedFor, memoized. rewrite Hcell, bind_ret, areHookInputsEqual_refl.
  reflexivity.
Qed.

(** X17. A ref keeps its identity: [mountRef] makes a new object that holds the
    initial value and keeps it in the new hook, and in an update render
    [updateRef] returns what the committed hook of the same position holds,
    whatever initial value it is given, and writes to no ref, so that the
    value last stored in [current] is still there. *)
Theorem updateRef_same_object initialValue cells st f current done c rest ws
    (Hinv : updateCursor st f current done (c :: rest) ws) :
  (exists st' hc,
     hooks st !! c = Some hc
     /\ updateRef initialValue cells st = (Returns (Hook.memoizedState hc, cells), st')
     /\ Hook.memoizedState <$> hooks st' !! freshLoc (hooks st)
        = Some (Hook.memoizedState hc)
     /\ hooks st' !! c = Some hc
     /\ updateCursor st' f current (done ++ [c]) rest (ws ++ [freshLoc (hooks st)]))
  /\ (forall s0 h0 s0',
        mountWorkInProgressHook s0 = (Returns h0, s0') ->
        is_Some (hooks s0' !! h0) ->
        exists s0'',
          mountRef initialValue cells s0
          = (Returns (VObj (freshLoc cells),
                      <[freshLoc cells := RefCell initialValue]> cells), s0'')
          /\ cells !! freshLoc cells = None
          /\ Hook.memoizedState <$> hooks s0'' !! h0 = Some (VObj (freshLoc cells))).
Proof.
  split.
  - destruct (updateWorkInProgressHook_clone st f current done (c :: rest) ws Hinv)
      as (st' & hc & Hrun & Hc & Hnone & Hnew & Hkeep & _ & Hinv').
    exists st', hc. split; [exact Hc|].
    split.
    { unfold updateRef. rewrite (bind_Returns _ _ _ _ _ Hrun). maccess.
      erewrite bind_deref by exact Hnew. reflexivity. }
    split; [rewrite Hnew; reflexivity|].
    split; [|exact Hinv'].
    rewrite Hkeep; [exact Hc|]. apply elem_of_app. right. left.
  - intros s0 h0 s0' Hmount [x Hx].
    unfold mountRef. rewrite (bind_Returns _ _ _ _ _ Hmount). maccess.
    erewrite bind_assign by exact Hx. cbn beta.
    eexists. split; [reflexivity|]. split; [apply freshLoc_None|].
    proj. rewrite lookup_insert_eq. reflexivity.
Qed.

(** ** State hooks *)

Lemma callUser_basicStateReducer state action st :
  basicStateReducerBound ->
  callUser basicStateReducerRef [state; action] st = basicStateReducer state action st.
Proof.
  intros Hb. unfold callUser, basicStateReducer. rewrite Hb.
  destruct action; reflexivity.
Qed.

(** X18. [mountState] appends a hook to the hooks of the fiber.  An initial state
    that is a function is called, without arguments, and its result is the
    state; any other value is the state itself.  The hook gets the state as
    state and base state and a new queue with no update, whose last rendered
    reducer is [basicStateReducer] and whose [dispatch] is bound to the
    fiber and to the queue.  When the initializer throws, the hook is
    already in the list, with nothing in it, and no queue has been made. *)
Theorem mountState_cell initialState st f F ls
    (Hf : currentlyRenderingFiber st = Some f)
    (HF : fibers st !! f = Some F)
    (Hchain : hookChain (hooks st) (Fiber.memoizedState F) ls)
    (Hcursor : workInProgressHook st = last ls) :
  match (match initialState with VFun i => call i [] | _ => Some initialState end) with
  | Some s =>
      exists st' F',
        mountState initialState st
        = (Returns (s, Some (Some f, freshLoc (queues st))), st')
        /\ hooks st' !! freshLoc (hooks st)
           = Some (Hook.mk s s None (Some (freshLoc (queues st))) None)
        /\ queues st !! freshLoc (queues st) = None
        /\ queues st' !! freshLoc (queues st)
           = Some (UpdateQueue.mk None (Some (Some f, freshLoc (queues st)))
                     (Some basicStateReducerRef) s)
        /\ (forall q', q' <> freshLoc (queues st) -> queues st' !! q' = queues st !! q')
        /\ fibers st' !! f = Some F'
        /\ hookChain (hooks st') (Fiber.memoizedState F') (ls ++ [freshLoc (hooks st)])
        /\ (forall l, l ∈ ls ->
              Hook.set_next None <$> hooks st' !! l = Hook.set_next None <$> hooks st !! l)
  | None =>
      exists st' F',
        mountState initialState st = (Throws UserError, st')
        /\ hooks st' !! freshLoc (hooks st) = Some (Hook.mk VNull VNull None None None)
        /\ queues st' = queues st
        /\ fibers st' !! f = Some F'
        /\ hookChain (hooks st') (Fiber.memoizedState F') (ls ++ [freshLoc (hooks st)])
  end.
Proof.
  destruct (mountWorkInProgressHook_list st f F ls Hf HF Hchain Hcursor)
    as (s1 & F1 & Hrun1 & Hh0 & Hh1 & HF1 & Hchain1 & Hcur1 & Hkeep1 & EF1 & Hfib1
        & Hq1 & Hu1 & He1 & Hcq1 & Hcrf1).
  set (h := freshLoc (hooks st)) in *.
  assert (Hmounted : forall s,
    (let* initialState := ret s in
     let* _ := setHook (Some h) (fun h =>
       Hook.set_memoizedState initialState (Hook.set_baseState initialState h)) in
     let* queue :=
       newQueue (UpdateQueue.mk None None (Some basicStateReducerRef) initialState) in
     let* _ := setHook (Some h) (Hook.set_queue (Some queue)) in
     let* fiber := gets currentlyRenderingFiber in
     let dispatch := Some (fiber, queue) in
     let* _ := setQueue (Some queue) (UpdateQueue.set_dispatch dispatch) in
     let* h := getHook (Some h) in
     ret (Hook.memoizedState h, dispatch)) s1
    = (Returns (s, Some (Some f, freshLoc (queues st))),
       set_queues
         (<[freshLoc (queues st) :=
              UpdateQueue.mk None (Some (Some f, freshLoc (queues st)))
                (Some basicStateReducerRef) s]> (queues s1))
         (set_hooks
            (<[h := Hook.mk s s None (Some (freshLoc (queues st))) None]> (hooks s1))
            s1))).
  { intros s. rewrite bind_ret. maccess.
    erewrite bind_assign by exact Hh1. cbn beta.
    mrun. rewrite Hcrf1, Hf, Hq1. rewrite !insert_insert_eq. reflexivity. }
  assert (Hok : forall s,
    exists st' F',
      (Returns (s, Some (Some f, freshLoc (queues st))),
       set_queues
         (<[freshLoc (queues st) :=
              UpdateQueue.mk None (Some (Some f, freshLoc (queues st)))
                (Some basicStateReducerRef) s]> (queues s1))
         (set_hooks
            (<[h := Hook.mk s s None (Some (freshLoc (queues st))) None]> (hooks s1))
            s1))
      = (Returns (s, Some (Some f, freshLoc (queues st))), st')
      /\ hooks st' !! h = Some (Hook.mk s s None (Some (freshLoc (queues st))) None)
      /\ queues st !! freshLoc (queues st) = None
      /\ queues st' !! freshLoc (queues st)
         = Some (UpdateQueue.mk None (Some (Some f, freshLoc (queues st)))
                   (Some basicStateReducerRef) s)
      /\ (forall q', q' <> freshLoc (queues st) -> queues st' !! q' = queues st !! q')
      /\ fibers st' !! f = Some F'
      /\ hookChain (hooks st') (Fiber.memoizedState F') (ls ++ [h])
      /\ (forall l, l ∈ ls ->
            Hook.set_next None <$> hooks st' !! l = Hook.set_next None <$> hooks st !! l)).
  { intros s. eexists. exists F1. split; [reflexivity|]. proj.
    split; [apply lookup_insert_eq|].
    split; [apply freshLoc_None|].
    split; [apply lookup_insert_eq|].
    split; [intros q' Hq'; rewrite lookup_insert_ne by congruence; rewrite Hq1; reflexivity|].
    split; [exact HF1|].
    split.
    - eapply hookChain_next; [|exact Hchain1]. intros l Hl.
      destruct (decide (l = h)) as [->|Hlh].
      + rewrite lookup_insert_eq, Hh1. reflexivity.
      + rewrite lookup_insert_ne by congruence. reflexivity.
    - intros l Hl. assert (l <> h).
      { intros ->. destruct (hookChain_lookup _ _ _ _ Hchain Hl) as [y Hy]. congruence. }
      rewrite lookup_insert_ne by congruence. apply Hkeep1, Hl. }
  unfold mountState. rewrite (bind_Returns _ _ _ _ _ Hrun1). fold h.
  destruct initialState as [| |b| | |z|s|l|i];
    try (rewrite Hmounted; apply Hok).
  unfold callUser. destruct (call i []) as [s|].
  - rewrite Hmounted. apply Hok.
  - exists s1, F1. split; [reflexivity|]. auto.
Qed.

(** X19. In an update render at lanes that include every update of the queue,
    [updateState] gives the state after the last update [u]: an action that
    is not a function is the new state, whatever the updates before it; an
    action that is a function is called on [x], the state that the updates
    before it give, and its result is the new state, or its error leaves
    [updateState].  The new state is kept in the hook, as state and as base
    state with no base queue, and in the queue as last rendered state; the
    initial state that the caller gives again is not used. *)
Theorem updateState_last_action fuel initialState st hook st1 hh c hc q Q B P pre u
    f F0 x
    (Hbound : basicStateReducerBound)
    (Hhook : updateWorkInProgressHook st = (Returns hook, st1))
    (Hhh : hooks st1 !! hook = Some hh)
    (Hcur : currentHook st1 = Some c)
    (Hhc : hooks st1 !! c = Some hc)
    (Hne : hook <> c)
    (Hq : Hook.queue hh = Some q)
    (HQ : queues st1 !! q = Some Q)
    (HB : circular (updates st1) (Hook.baseQueue hc) B)
    (HP : circular (updates st1) (UpdateQueue.pending Q) P)
    (Hnd : NoDup (B ++ P))
    (Hps : payloads (updates st1) (B ++ P) (pre ++ [u]))
    (Hf : currentlyRenderingFiber st1 = Some f)
    (HF : fibers st1 !! f = Some F0)
    (Hfuel : (length (B ++ P) <= fuel)%nat)
    (Hincl : Forall (fun u => included (renderLanes st1) u = true) (pre ++ [u]))
    (Heager : eagerConsistent (Hook.baseState hc) (pre ++ [u]))
    (Hpre : foldReducer basicStateReducerRef (Hook.baseState hc) (map Update.action pre)
            = Some x) :
  match (match Update.action u with VFun g => call g [x] | a => Some a end) with
  | Some s' =>
      exists st',
        updateState fuel initialState st = (Returns (s', UpdateQueue.dispatch Q), st')
        /\ hooks st' !! hook = Some (Hook.mk s' s' None (Hook.queue hh) (Hook.next hh))
        /\ queues st' !! q
           = Some (UpdateQueue.mk None (UpdateQueue.dispatch Q)
                     (Some basicStateReducerRef) s')
  | None =>
      exists st', updateState fuel initialState st = (Throws UserError, st')
  end.
Proof.
  assert (Hnonempty : B ++ P <> []).
  { intros E. rewrite E in Hps. apply Forall2_length in Hps.
    rewrite length_app in Hps. cbn in Hps. lia. }
  assert (Hreb : rebase basicStateReducerRef (renderLanes st1)
                   (Hook.baseState hc, VNull, []) (pre ++ [u])
                 = s' ← (match Update.action u with
                         | VFun g => call g [x]
                         | a => Some a
                         end); Some (s', VNull, [])).
  { rewrite (rebase_all_included _ _ _ Hincl), (process_foldReducer _ _ _ Heager).
    rewrite map_app, foldReducer_app, Hpre. cbn [mbind option_bind map foldReducer].
    rewrite Hbound.
    destruct (Update.action u) as [| |b| | |z|s|l|g]; try reflexivity.
    destruct (call g [x]); reflexivity. }
  unfold updateState.
  destruct (match Update.action u with VFun g => call g [x] | a => Some a end)
    as [s'|]; cbn [mbind option_bind] in Hreb.
  - destruct (updateReducer_spec fuel basicStateReducerRef initialState None st hook st1
                hh c hc q Q B P (pre ++ [u]) f F0 s' VNull [] Hhook Hhh Hcur Hhc Hne Hq HQ
                HB HP Hnd Hnonempty Hps Hf HF Hfuel Hreb)
      as (st' & cls' & us' & sk & dr & Hrun & Est' & _ & _ & _ & Hcl & _).
    apply Forall2_nil_inv_r in Hcl. subst cls'.
    exists st'. split; [exact Hrun|]. rewrite Est'. proj.
    split; apply lookup_insert_eq.
  - exact (updateReducer_throws fuel basicStateReducerRef initialState None st hook st1
             hh c hc q Q B P (pre ++ [u]) f F0 Hhook Hhh Hcur Hhc Hne Hq HQ
             HB HP Hnd Hnonempty Hps Hf HF Hfuel Hreb).
Qed.

(** ** Reading a mutable source again *)

Lemma readFromUnsubcribedMutableSource_run root source getSnapshot st s r version
    (Hs : sources st !! source = Some s)
    (Hr : roots st !! root = Some r)
    (Hv : call (MutableSource._getVersion s) [MutableSource._source s] = Some version) :
  readFromUnsubcribedMutableSource root source getSnapshot st
  = if safeToRead st s r version
    then (match call getSnapshot [MutableSource._source s] with
          | Some snapshot => Returns snapshot
          | None => Throws UserError
          end,
          if strictEquals (recordedVersion s) VNull
          then set_sources (<[source := recordVersion version s]> (sources st)) st
          else st)
    else (Throws (Invariant msgTearing),
          set_dirtySources (dirtySources st ++ [source]) st).
Proof.
  unfold readFromUnsubcribedMutableSource, safeToRead, getWorkInProgressVersion,
    setWorkInProgressVersion, markSourceAsDirty, callUser.
  mrun. fold (recordedVersion s).
  destruct (strictEquals (recordedVersion s) VNull) eqn:Enull; cbn [negb andb orb].
  - mrun.
    destruct (isSubsetOfLanes (renderLanes st) (FiberRoot.mutableReadLanes r)); mrun.
    + fold (recordVersion version s).
      replace (MutableSource._source (recordVersion version s))
        with (MutableSource._source s)
        by (unfold recordVersion; destruct isPrimaryRenderer; reflexivity).
      destruct (call getSnapshot [MutableSource._source s]); reflexivity.
    + reflexivity.
  - mrun. rewrite orb_false_r.
    destruct (strictEquals (recordedVersion s) version); mrun.
    + destruct (call getSnapshot [MutableSource._source s]); reflexivity.
    + reflexivity.
Qed.

(** X20. After a read of a source whose version is neither null nor NaN, the
    version of the store is recorded for the render, and as long as the
    store has that version every later read of the source finds it and is
    safe, whatever the lanes that are rendered and the lanes of the root
    with mutations: it returns what its [getSnapshot] returns, records
    nothing and marks nothing as dirty. *)
Theorem readFromUnsubcribedMutableSource_again root source getSnapshot getSnapshot' st s
    r version snapshot st1
    (Hs : sources st !! source = Some s)
    (Hr : roots st !! root = Some r)
    (Hv : call (MutableSource._getVersion s) [MutableSource._source s] = Some version)
    (Hnull : strictEquals version VNull = false)
    (Hnan : strictEquals version version = true)
    (Hrun : readFromUnsubcribedMutableSource root source getSnapshot st
            = (Returns snapshot, st1)) :
  exists s1,
    sources st1 !! source = Some s1
    /\ strictEquals (recordedVersion s1) VNull = false
    /\ strictEquals (recordedVersion s1) version = true
    /\ forall lanes r',
         readFromUnsubcribedMutableSource root source getSnapshot'
           (set_roots (<[root := r']> (roots st1)) (set_renderLanes lanes st1))
         = (match call getSnapshot' [MutableSource._source s] with
            | Some snapshot' => Returns snapshot'
            | None => Throws UserError
            end,
            set_roots (<[root := r']> (roots st1)) (set_renderLanes lanes st1)).
Proof.
  rewrite (readFromUnsubcribedMutableSource_run _ _ _ _ _ _ _ Hs Hr Hv) in Hrun.
  unfold safeToRead in Hrun.
  assert (Hagain : forall s1 st1,
    sources st1 !! source = Some s1 ->
    MutableSource._getVersion s1 = MutableSource._getVersion s ->
    MutableSource._source s1 = MutableSource._source s ->
    strictEquals (recordedVersion s1) VNull = false ->
    strictEquals (recordedVersion s1) version = true ->
    forall lanes r',
      readFromUnsubcribedMutableSource root source getSnapshot'
        (set_roots (<[root := r']> (roots st1)) (set_renderLanes lanes st1))
      = (match call getSnapshot' [MutableSource._source s] with
         | Some snapshot' => Returns snapshot'
         | None => Throws UserError
         end,
         set_roots (<[root := r']> (roots st1)) (set_renderLanes lanes st1))).
  { intros s1 st1' Hs1 Eg Es Hn Hsame lanes r'.
    rewrite (readFromUnsubcribedMutableSource_run root source getSnapshot' _ s1 r' version);
      [|exact Hs1|proj; apply lookup_insert_eq|rewrite Eg, Es; exact Hv].
    unfold safeToRead. rewrite Hn, Hsame, Es. reflexivity. }
  destruct (strictEquals (recordedVersion s) VNull) eqn:Enull; cbn [negb andb orb] in Hrun.
  - destruct (isSubsetOfLanes (renderLanes st) (FiberRoot.mutableReadLanes r));
      [|discriminate Hrun].
    assert (Est : st1 = set_sources (<[source := recordVersion version s]> (sources st)) st).
    { destruct (call getSnapshot [MutableSource._source s]); congruence. }
    assert (Erec : recordedVersion (recordVersion version s) = version).
    { unfold recordedVersion, recordVersion. destruct isPrimaryRenderer; reflexivity. }
    exists (recordVersion version s).
    assert (Hs1 : sources st1 !! source = Some (recordVersion version s)).
    { rewrite Est. proj. apply lookup_insert_eq. }
    split; [exact Hs1|]. rewrite Erec. split; [exact Hnull|]. split; [exact Hnan|].
    apply (Hagain _ _ Hs1).
    + unfold recordVersion. destruct isPrimaryRenderer; reflexivity.
    + unfold recordVersion. destruct isPrimaryRenderer; reflexivity.
    + rewrite Erec. exact Hnull.
    + rewrite Erec. exact Hnan.
  - rewrite orb_false_r in Hrun.
    destruct (strictEquals (recordedVersion s) version) eqn:Esame; [|discriminate Hrun].
    assert (Est : st1 = st).
    { destruct (call getSnapshot [MutableSource._source s]); congruence. }
    subst st1. exists s. split; [exact Hs|]. split; [exact Enull|]. split; [exact Esame|].
    apply (Hagain _ _ Hs); auto.
Qed.

End ReactFiberHooks.

(** * The sample component *)

(** The claim C1 on the sample history: the render at lane 1 returns
    0 + 1 + 2 + 3. *)
Lemma sample_history_fold :
  exists FW d stU stR,
    fibers (snd (runEvents sampleCall 10 1 2 1 sampleHistory (sampleIdle 1))) !! 2%positive
    = Some FW
    /\ updateReducer sampleCall 10 1 VUndefined None
         (renderStart 2 FW false 1
            (snd (runEvents sampleCall 10 1 2 1 sampleHistory (sampleIdle 1))))
       = (Returns (VNum 6, d), stU)
    /\ renderWithHooks 10 (Some 1%positive) 2 (reducerComponent sampleCall 10 1)
         VUndefined VUndefined 1
         (snd (runEvents sampleCall 10 1 2 1 sampleHistory (sampleIdle 1)))
       = (Returns (VNum 6), stR).
Proof.
  apply (updateReducer_left_fold sampleCall 10 1 1 1 2 1 1 (VNum 0) sampleHistory
           (sampleIdle 1)).
  - exists sampleCurrent, sampleAlternate, sampleHook, (sampleQueue None 1).
    repeat split; try reflexivity. discriminate.
  - unfold sampleHistory.
    repeat (constructor; [cbn; first [exact I | split; [discriminate|split; [reflexivity|auto]]]|]).
    constructor.
  - cbn. lia.
  - vm_compute. reflexivity.
  - reflexivity.
Defined.

(** The claim C3 as the code has it, on the component at rest: the action 0
    gives the state 0 again, which is cached, and nothing is scheduled. *)
Lemma sample_eager_bailout :
  exists st' u,
    dispatchAction sampleCall 0 1 1 1 (VNum 0) (sampleIdle 1) = (Returns tt, st')
    /\ updates st' !! 1%positive = Some u
    /\ Update.lane u = 1%N
    /\ Update.action u = VNum 0
    /\ Update.eagerReducer u = Some 1%positive
    /\ Update.eagerState u = VNum 0
    /\ scheduledUpdates st' = [].
Proof.
  apply (dispatchAction_eager sampleCall 0 1 1 1 (VNum 0) (sampleIdle 1)
           (sampleQueue None 1) [] sampleCurrent 1).
  - reflexivity.
  - repeat split. constructor.
  - reflexivity.
  - reflexivity.
  - split; [reflexivity|]. exists sampleAlternate. split; reflexivity.
  - reflexivity.
Defined.

(** The claim C3 as it is stated fails when the last rendered reducer
    throws: the fiber is not rendering, neither it nor its alternate has
    pending lanes, and after the dispatch nothing is cached on the update,
    which is scheduled. *)
Lemma sample_eager_reducer_throws :
  isRenderPhaseUpdate (sampleIdle 2) 1 sampleCurrent = false
  /\ noPendingLanes (sampleIdle 2) sampleCurrent
  /\ queues (sampleIdle 2) !! 1%positive = Some (sampleQueue None 2)
  /\ sampleCall 2 [VNum 0; VNum 1] = None
  /\ exists st' u,
       dispatchAction sampleCall 0 1 1 1 (VNum 1) (sampleIdle 2) = (Returns tt, st')
       /\ updates st' !! 1%positive = Some u
       /\ Update.eagerReducer u = None
       /\ Update.eagerReducer u
          <> UpdateQueue.lastRenderedReducer (sampleQueue None 2)
       /\ Update.eagerState u = VNull
       /\ scheduledUpdates st' = [(1%positive, 1%N, 0%N)].
Proof.
  split; [reflexivity|].
  split; [split; [reflexivity|exists sampleAlternate; split; reflexivity]|].
  split; [reflexivity|]. split; [reflexivity|].
  exists (snd (dispatchAction sampleCall 0 1 1 1 (VNum 1) (sampleIdle 2))),
    (Update.mk 1 (VNum 1) None VNull (Some 1%positive)).
  split; [vm_compute; reflexivity|]. split; [vm_compute; reflexivity|].
  split; [reflexivity|]. split; [discriminate|]. split; [reflexivity|].
  vm_compute. reflexivity.
Qed.



(** The claim C2 on the sample walk at lane 1: the update of lane 2 is
    skipped, the new state is 0 + 1 + 3, the new base state is 0 + 1, and
    the new base queue holds the clones of the second and of the third
    update. *)
Lemma sample_walk_rebase :
  exists w' st' cls',
    updateReducer_loop sampleCall 5 1 (Some 1%positive) (Some 1%positive)
      (mkWalk (VNum 0) VNull None None) sampleWalk = (Returns w', st')
    /\ newState w' = VNum 4
    /\ newBaseState w' = VNum 1
    /\ payloads (updates st') cls'
         [Update.mk 2 (VNum 2) None VNull None; Update.mk NoLane (VNum 3) None VNull None].
Proof.
  destruct (updateReducer_loop_rebase sampleCall 5 1 sampleWalk 2 sampleAlternate
              (Some 3%positive) [1%positive; 2%positive; 3%positive]
              [Update.mk 1 (VNum 1) None VNull None; Update.mk 2 (VNum 2) None VNull None;
               Update.mk 1 (VNum 3) None VNull None] (VNum 0) (VNum 4))
    as (w' & st' & cls' & Hrun & Hs & _ & _ & _ & _ & _ & Hp & Hb).
  - reflexivity.
  - reflexivity.
  - split; [|split; [reflexivity|]].
    + apply (bool_decide_unpack _). vm_compute. exact I.
    + cbn. repeat split; eexists; (split; [vm_compute; reflexivity|reflexivity]).
  - discriminate.
  - repeat constructor.
  - cbn. lia.
  - reflexivity.
  - exists w', st', cls'. split; [exact Hrun|]. split; [exact Hs|]. split; [|exact Hp].
    assert (H : Some (VNum 1) = Some (newBaseState w')) by (apply Hb; discriminate).
    congruence.
Defined.

(** The claim C4 on the sample source: no version is recorded and the root
    has no pending mutation, so that the snapshot is read and the version 7
    is recorded. *)
Lemma sample_source_read :
  readFromUnsubcribedMutableSource sampleCall true 1 1 4 sampleSource
  = (Returns (VStr "snapshot"),
     set_sources
       (<[1%positive := MutableSource.mk 3 (VObj 9) (VNum 7) VNull]> (sources sampleSource))
       sampleSource).
Proof.
  destruct (readFromUnsubcribedMutableSource_safe sampleCall true 1 1 4 sampleSource
              (createMutableSource (VObj 9) 3) (FiberRoot.mk NoLanes) (VNum 7))
    as (Hsafe & _).
  - reflexivity.
  - reflexivity.
  - reflexivity.
  - exact (Hsafe eq_refl).
Defined.

(** The claim C5 on the component that always schedules an update: its
    render fails with the invariant. *)
Lemma sample_looping_component :
  fst (renderWithHooks 30 None 2 loopingComponent VUndefined VUndefined 1 (sampleIdle 1))
  = Throws (Invariant msgTooManyReRenders).
Proof.
  destruct (renderWithHooks_re_render_limit 30 None 2 loopingComponent VUndefined
              VUndefined 1 (sampleIdle 1) sampleAlternate true)
    as (_ & _ & Hloop & _).
  - reflexivity.
  - discriminate.
  - reflexivity.
  - unfold RE_RENDER_LIMIT. lia.
  - apply Hloop. intros st Hlive. exists VNull. eexists.
    split; [reflexivity|]. split; [reflexivity|exact Hlive].
Defined.


(** The claim C7 on the sample component.  A dispatch to the fiber that is
    being rendered is enqueued without a call to the scheduler, and marks
    the pass; and the re-render of the hook [2], with the update of action 5
    pending on its queue, gives the state 0 + 5 and empties the queue. *)
Lemma sample_render_phase_dispatch :
  (exists st' Q',
     dispatchAction sampleCall 0 1 2 1 (VNum 5) sampleRendering = (Returns tt, st')
     /\ queues st' !! 1%positive = Some Q'
     /\ circular (updates st') (UpdateQueue.pending Q') [1%positive]
     /\ didScheduleRenderPhaseUpdateDuringThisPass st' = true
     /\ scheduledUpdates st' = [])
  /\ (exists st',
        rerenderReducer sampleCall 5 1 VUndefined None sampleThrown
        = (Returns (VNum 5, Some (Some 1%positive, 1%positive)), st')
        /\ exists Q', queues st' !! 1%positive = Some Q' /\ UpdateQueue.pending Q' = None).
Proof.
  split.
  - destruct (proj1 (render_phase_updates sampleCall) 0%N 1%N 2%positive 1%positive (VNum 5)
                sampleRendering
                (sampleQueue None 1) [] sampleAlternate)
      as (st' & Q' & Hrun & HQ' & Hc & _ & _ & _ & Hpass & Hsched & _).
    + reflexivity.
    + apply circular_nil.
    + reflexivity.
    + reflexivity.
    + exists st', Q'. auto.
  - destruct (proj2 (render_phase_updates sampleCall) 5%nat 1%positive VUndefined None
                sampleThrown 2%positive (snd (updateWorkInProgressHook sampleThrown))
                sampleHook 1%positive
                (sampleQueue (Some 1%positive) 1) [1%positive]
                [Update.mk 1 (VNum 5) None VNull None] (VNum 5))
      as (st' & Hrun & (Q' & HQ' & Hp & _) & _).
    + vm_compute. reflexivity.
    + vm_compute. reflexivity.
    + reflexivity.
    + vm_compute. reflexivity.
    + split; [apply NoDup_singleton|]. split; [reflexivity|].
      split; [|exact I]. eexists. split; [vm_compute; reflexivity|reflexivity].
    + repeat constructor.
    + cbn. lia.
    + reflexivity.
    + exists st'. split; [exact Hrun|]. exists Q'. auto.
Defined.


(** The claim C10 on the sample render that threw after a render-phase
    update: the pending list of the queue of the hook [2] is cleared and the
    dispatcher is the one that throws. *)
Lemma sample_reset_after_throw :
  exists st',
    resetHooksAfterThrow 5 sampleThrown = (Returns tt, st')
    /\ currentDispatcher st' = ContextOnlyDispatcher
    /\ exists Q, queues st' !! 1%positive = Some Q /\ UpdateQueue.pending Q = None.
Proof.
  destruct (resetHooksAfterThrow_clears_pending 5 sampleThrown 2
              (Fiber.set_memoizedState (Some 2%positive) sampleAlternate) [2%positive])
    as (st' & Hrun & Hd & Hq & Hh & _).
  - reflexivity.
  - reflexivity.
  - reflexivity.
  - split; [reflexivity|]. exists sampleHook. split; reflexivity.
  - intros l h q Hl Hh Hq. apply list_elem_of_singleton in Hl as ->.
    assert (Hs : hooks sampleThrown !! 2%positive = Some sampleHook) by reflexivity.
    rewrite Hs in Hh. injection Hh as <-. injection Hq as <-.
    exists (sampleQueue (Some 1%positive) 1). reflexivity.
  - cbn. lia.
  - exists st'. split; [exact Hrun|]. split; [exact Hd|].
    apply (Hq 2%positive sampleHook 1%positive).
    + apply list_elem_of_singleton. reflexivity.
    + rewrite Hh. reflexivity.
    + reflexivity.
Defined.

(** * More of the sample component *)

(** Two arrays that differ at their second position, where one holds -0
    and the other 0. *)
Lemma sample_deps_zeroes :
  areHookInputsEqual ([VNum 1] ++ VNegZero :: [VNaN]) (Some ([VNum 1] ++ VNum 0 :: []))
  = false.
Proof.
  apply (proj1 (proj2 (proj2 (proj2 (proj2
           (areHookInputsEqual_positions [VNum 1] [VNaN] [] VNegZero (VNum 0))))))).
  reflexivity.
Defined.

(** After the reset of the sample render that threw, the module is at
    rest, and no update, hook or fiber was written. *)
Lemma sample_reset_at_rest :
  atRest (snd (resetHooksAfterThrow 5 sampleThrown))
  /\ updates (snd (resetHooksAfterThrow 5 sampleThrown)) = updates sampleThrown
  /\ hooks (snd (resetHooksAfterThrow 5 sampleThrown)) = hooks sampleThrown
  /\ fibers (snd (resetHooksAfterThrow 5 sampleThrown)) = fibers sampleThrown.
Proof.
  destruct (proj2 (resetHooksAfterThrow_at_rest 5 sampleThrown)
              (snd (resetHooksAfterThrow 5 sampleThrown)))
    as (Hrest & Hu & Hh & Hf & _).
  - vm_compute. reflexivity.
  - split; [exact Hrest|]. split; [exact Hu|]. split; [exact Hh|exact Hf].
Defined.



(** The hook of the sample component with no update: the render returns
    the state 0 of the committed hook. *)
Lemma sample_no_update :
  fst (updateReducer sampleCall 5 1 VUndefined None
         (set_currentDispatcher HooksDispatcherOnUpdate sampleRendering))
  = Returns (VNum 0, Some (Some 1%positive, 1%positive)).
Proof.
  rewrite (updateReducer_no_update sampleCall 5 1 VUndefined None
             (set_currentDispatcher HooksDispatcherOnUpdate sampleRendering) 2
             (snd (updateWorkInProgressHook
                     (set_currentDispatcher HooksDispatcherOnUpdate sampleRendering)))
             sampleHook 1 sampleHook 1 (sampleQueue None 1)).
  - reflexivity.
  - vm_compute. reflexivity.
  - vm_compute. reflexivity.
  - reflexivity.
  - vm_compute. reflexivity.
  - reflexivity.
  - vm_compute. reflexivity.
  - reflexivity.
  - reflexivity.
Defined.

(** The sample render with one pending update and the reducer [2], which
    throws: the error leaves the render, and the committed hook holds the
    update in its base queue. *)
Lemma sample_reducer_throws :
  exists st',
    updateReducer sampleCall 5 2 VUndefined None samplePending = (Throws UserError, st')
    /\ hooks st' !! 1%positive
       = Some (Hook.mk (VNum 0) (VNum 0) (Some 1%positive) (Some 1%positive) None)
    /\ payloads (updates st') [1%positive] [Update.mk 1 (VNum 5) None VNull None].
Proof.
  destruct (updateReducer_throw_keeps_updates sampleCall 5 2 VUndefined None samplePending
              2 (snd (updateWorkInProgressHook samplePending)) sampleHook 1 sampleHook
              1 (sampleQueue (Some 1%positive) 1) [] [1%positive]
              [Update.mk 1 (VNum 5) None VNull None] 2
              (Fiber.set_memoizedState (Some 2%positive) sampleAlternate))
    as (st' & Hrun & Hc & _ & _ & _ & Hps).
  - vm_compute. reflexivity.
  - vm_compute. reflexivity.
  - reflexivity.
  - vm_compute. reflexivity.
  - discriminate.
  - reflexivity.
  - vm_compute. reflexivity.
  - apply circular_nil.
  - split; [apply NoDup_singleton|]. split; [reflexivity|].
    split; [|exact I]. eexists. split; [vm_compute; reflexivity|reflexivity].
  - apply NoDup_singleton.
  - repeat constructor.
  - reflexivity.
  - vm_compute. reflexivity.
  - cbn. lia.
  - reflexivity.
  - exists st'. split; [exact Hrun|]. split; [exact Hc|exact Hps].
Defined.

(** The sample render at lane 2, with its pending update of lane 1: the
    update is skipped, the state stays 0, and the fiber gets the lane 1. *)
Lemma sample_skipped_lane :
  exists st' F',
    updateReducer sampleCall 5 1 VUndefined None sampleOtherLane
    = (Returns (VNum 0, Some (Some 1%positive, 1%positive)), st')
    /\ scheduledUpdates st' = []
    /\ fibers st' !! 2%positive = Some F'
    /\ isSubsetOfLanes (Fiber.lanes F') 1 = true.
Proof.
  destruct (updateReducer_skipped_lanes sampleCall 5 1 VUndefined None sampleOtherLane
              2 (snd (updateWorkInProgressHook sampleOtherLane)) sampleHook 1 sampleHook
              1 (sampleQueue (Some 1%positive) 1) [] [1%positive]
              [Update.mk 1 (VNum 5) None VNull None] 2
              (Fiber.set_memoizedState (Some 2%positive) sampleAlternate)
              (VNum 0) (VNum 0) [Update.mk 1 (VNum 5) None VNull None])
    as (st' & F' & Hrun & Hs & _ & HF & _ & _ & Hskip & _).
  - vm_compute. reflexivity.
  - vm_compute. reflexivity.
  - reflexivity.
  - vm_compute. reflexivity.
  - discriminate.
  - reflexivity.
  - vm_compute. reflexivity.
  - apply circular_nil.
  - split; [apply NoDup_singleton|]. split; [reflexivity|].
    split; [|exact I]. eexists. split; [vm_compute; reflexivity|reflexivity].
  - apply NoDup_singleton.
  - discriminate.
  - repeat constructor.
  - reflexivity.
  - vm_compute. reflexivity.
  - cbn. lia.
  - reflexivity.
  - exists st', F'. split; [exact Hrun|]. split; [exact Hs|]. split; [exact HF|].
    apply (Hskip (Update.mk 1 (VNum 5) None VNull None)).
    + apply list_elem_of_singleton. reflexivity.
    + reflexivity.
Defined.

(** A dispatch to the sample component at rest: the update is appended to
    the empty pending list, with its lane and its action. *)
Lemma sample_dispatch_appends :
  exists st' u,
    dispatchAction sampleCall 0 1 1 1 (VNum 3) (sampleIdle 1) = (Returns tt, st')
    /\ circular (updates st') (Some (freshLoc (updates (sampleIdle 1))))
         [freshLoc (updates (sampleIdle 1))]
    /\ payloadAt (updates st') (freshLoc (updates (sampleIdle 1))) = Some u
    /\ Update.lane u = 1%N
    /\ Update.action u = VNum 3
    /\ hooks st' = hooks (sampleIdle 1).
Proof.
  destruct (dispatchAction_appends sampleCall 0 1 1 1 (VNum 3) (sampleIdle 1)
              (sampleQueue None 1) [] sampleCurrent)
    as (st' & u & Hrun & _ & _ & Hc & _ & Hu & Hl & Ha & _ & Hh).
  - reflexivity.
  - apply circular_nil.
  - reflexivity.
  - exists sampleAlternate. reflexivity.
  - exists st', u. auto 10.
Defined.

(** The first hook of a mount of the alternate. *)
Lemma sample_first_hook :
  exists st' F',
    mountWorkInProgressHook sampleRendering = (Returns 2%positive, st')
    /\ fibers st' !! 2%positive = Some F'
    /\ hookChain (hooks st') (Fiber.memoizedState F') [2%positive]
    /\ workInProgressHook st' = Some 2%positive.
Proof.
  destruct (mountWorkInProgressHook_appends sampleRendering 2 sampleAlternate [])
    as (st' & F' & Hrun & _ & _ & HF & Hchain & Hcursor & _).
  - reflexivity.
  - reflexivity.
  - reflexivity.
  - reflexivity.
  - exists st', F'. split; [exact Hrun|]. split; [exact HF|].
    split; [exact Hchain|exact Hcursor].
Defined.

(** The first effect of the alternate. *)
Lemma sample_first_effect :
  exists st',
    pushEffect 5 (VFun 6) VUndefined (Some [VNum 1]) sampleRendering
    = (Returns 1%positive, st')
    /\ effectList st' 2 [1%positive]
    /\ effectAt (effects st') 1%positive
       = Some (Effect.mk 5 (VFun 6) VUndefined (Some [VNum 1]) None).
Proof.
  destruct (pushEffect_appends sampleCall 5 (VFun 6) VUndefined (Some [VNum 1])
              sampleRendering 2 [])
    as (st' & Hrun & _ & Hes & He & _).
  - reflexivity.
  - exists sampleAlternate. split; reflexivity.
  - exists st'. split; [exact Hrun|]. split; [exact Hes|exact He].
Defined.

(** A passive effect mounted as the first hook of the alternate, with the
    flags 1 for [HasEffect], 4 for [Update], 512 for [Passive] and the tags
    2 for [Layout] and 4 for [Passive]. *)
Lemma sample_mount_effect :
  exists st' F',
    mountEffect 1 4 512 4 (VFun 6) (Some [VNum 1]) sampleRendering = (Returns tt, st')
    /\ fibers st' !! 2%positive = Some F'
    /\ Fiber.flags F' = 516%N
    /\ hookChain (hooks st') (Fiber.memoizedState F') [2%positive]
    /\ effectList st' 2 [1%positive]
    /\ effectAt (effects st') 1%positive
       = Some (Effect.mk 5 (VFun 6) VUndefined (Some [VNum 1]) None).
Proof.
  destruct (mountEffectImpl_appends sampleCall 1 4 512 2 4 (N.lor 4 512) 4 (VFun 6)
              (Some [VNum 1]) sampleRendering 2 sampleAlternate [] [])
    as (st' & F' & Hrun & HF & Hflags & _ & Hchain & _ & _ & Hes & He & _ & Hm & _).
  - reflexivity.
  - reflexivity.
  - reflexivity.
  - reflexivity.
  - exists sampleAlternate. split; reflexivity.
  - exists st', F'. split; [rewrite Hm; exact Hrun|]. split; [exact HF|].
    split; [exact Hflags|]. split; [exact Hchain|]. split; [exact Hes|exact He].
Defined.

(** The first hook of an update render of the alternate is a copy of the
    hook [1] of the committed fiber. *)
Lemma sample_first_clone :
  exists st',
    updateWorkInProgressHook sampleRendering = (Returns 2%positive, st')
    /\ hooks st' !! 2%positive = Some sampleHook
    /\ hooks st' !! 1%positive = Some sampleHook
    /\ updateCursor st' 2 1 [1%positive] [] [2%positive].
Proof.
  destruct (updateWorkInProgressHook_position sampleRendering 2 1 [] [1%positive] [])
    as (st' & hc & Hrun & Hc & _ & Hnew & Hkeep & _ & Hinv).
  - exists sampleAlternate, sampleCurrent.
    split; [discriminate|]. repeat (split; [reflexivity|]).
    split; [split; [reflexivity|]; exists sampleHook; split; reflexivity|].
    repeat (split; [reflexivity|]).
    intros l _ Hl. inversion Hl.
  - assert (Ehc : Some hc = Some sampleHook) by (rewrite <- Hc; reflexivity).
    injection Ehc as ->.
    exists st'. split; [exact Hrun|]. split; [exact Hnew|].
    split; [|exact Hinv].
    rewrite Hkeep; [reflexivity|]. apply list_elem_of_singleton. reflexivity.
Defined.

(** The hook of the sample holds the array [1]: with the same dependencies
    [updateMemo] returns its value 42, without a call of the function [2],
    which throws. *)
Lemma sample_memo_cached :
  updateMemo sampleCall 2 (Some [VNum 1; VNaN]) sampleMemo sampleEffect
  = (Returns (VNum 42, sampleMemo), snd (updateWorkInProgressHook sampleEffect)).
Proof.
  exact (updateMemo_cached sampleCall 2 (Some [VNum 1; VNaN]) sampleMemo sampleEffect
           2 (snd (updateWorkInProgressHook sampleEffect))
           (Hook.mk (VObj 1) VNull None None None) 1 (VNum 42) (Some [VNum 1; VNaN])
           eq_refl eq_refl eq_refl eq_refl).
Defined.

(** And [updateCallback] returns the callback of the array for the same
    dependencies, not the new one. *)
Lemma sample_callback_cached :
  updateCallback (VFun 7) (Some [VNum 1; VNaN]) sampleMemo sampleEffect
  = (Returns (VNum 42, sampleMemo), snd (updateWorkInProgressHook sampleEffect)).
Proof.
  apply (proj1 (proj2
           (updateCallback_cached (VFun 7) (Some [VNum 1; VNaN]) sampleMemo sampleEffect
              2 (snd (updateWorkInProgressHook sampleEffect))
              (Hook.mk (VObj 1) VNull None None None) 1 (VNum 42) (Some [VNum 1; VNaN])
              eq_refl eq_refl eq_refl eq_refl))).
  - reflexivity.
  - discriminate.
Defined.

(** The function [3], which returns 7, memoized on mount with the
    dependency 1: the array that the mount makes is the array [1], which is
    what the hook of [sampleEffect] holds, and for the same dependency
    [updateMemo] returns 7 without a call of the function [2]. *)
Lemma sample_memo_round_trip :
  exists s0'',
    mountMemo sampleCall 3 (Some [VNum 1]) ∅ sampleRendering
    = (Returns (VNum 7, <[1%positive := MemoCell (VNum 7) (Some [VNum 1])]> ∅), s0'')
    /\ updateMemo sampleCall 2 (Some [VNum 1])
         (<[1%positive := MemoCell (VNum 7) (Some [VNum 1])]> ∅) sampleEffect
       = (Returns (VNum 7, <[1%positive := MemoCell (VNum 7) (Some [VNum 1])]> ∅),
          snd (updateWorkInProgressHook sampleEffect)).
Proof.
  destruct (mountMemo_updateMemo_round_trip sampleCall 3 2 [VNum 1] ∅ sampleRendering 2
              (snd (mountWorkInProgressHook sampleRendering))
              (Hook.mk VNull VNull None None None) (VNum 7) sampleEffect 2
              (snd (updateWorkInProgressHook sampleEffect))
              (Hook.mk (VObj 1) VNull None None None))
    as (s0'' & Hmount & _ & _ & Hupdate).
  - vm_compute. reflexivity.
  - vm_compute. reflexivity.
  - reflexivity.
  - vm_compute. reflexivity.
  - vm_compute. reflexivity.
  - exists s0''. split; [exact Hmount|].
    apply (Hupdate (<[1%positive := MemoCell (VNum 7) (Some [VNum 1])]> ∅));
      reflexivity.
Defined.

(** In an update render of the alternate, [updateRef] returns what the
    committed hook [1] holds, whatever the initial value. *)
Lemma sample_ref_identity :
  exists st',
    updateRef (VNum 9) ∅ sampleRendering = (Returns (VNum 0, ∅), st')
    /\ hooks st' !! 1%positive = Some sampleHook.
Proof.
  destruct (updateRef_same_object (VNum 9) ∅ sampleRendering 2 1 [] 1 [] [])
    as ((st' & hc & Hc & Hrun & _ & Hkeep & _) & _).
  - exists sampleAlternate, sampleCurrent.
    split; [discriminate|]. repeat (split; [reflexivity|]).
    split; [split; [reflexivity|]; exists sampleHook; split; reflexivity|].
    repeat (split; [reflexivity|]).
    intros l _ Hl. inversion Hl.
  - assert (Ehc : Some hc = Some sampleHook) by (rewrite <- Hc; reflexivity).
    injection Ehc as ->.
    exists st'. split; [exact Hrun|exact Hkeep].
Defined.

(** The component that updates itself up to 3, mounted on the fiber [3]
    with the reducer [1], renders 3; up to 26, it is stopped. *)
Lemma sample_self_updating :
  (exists st',
     renderWithHooks 30 None 3 (selfUpdating sampleCall 30 1 3 0 1) VUndefined VUndefined
       1 sampleFresh
     = (Returns (VNum 3), st')
     /\ atRest st')
  /\ (exists st',
        renderWithHooks 30 None 3 (selfUpdating sampleCall 30 1 26 0 1) VUndefined
          VUndefined 1 sampleFresh
        = (Throws (Invariant msgTooManyReRenders), st')).
Proof.
  split.
  - apply (proj1 (selfUpdating_renders sampleCall 30 1 3 0 1 VUndefined VUndefined 1
                    sampleFresh 3 (Fiber.mk None None 0 0 None)
                    (fun s a => eq_refl) eq_refl eq_refl eq_refl eq_refl eq_refl
                    ltac:(unfold RE_RENDER_LIMIT; lia))).
    lia.
  - apply (proj2 (selfUpdating_renders sampleCall 30 1 26 0 1 VUndefined VUndefined 1
                    sampleFresh 3 (Fiber.mk None None 0 0 None)
                    (fun s a => eq_refl) eq_refl eq_refl eq_refl eq_refl eq_refl
                    ltac:(unfold RE_RENDER_LIMIT; lia))).
    lia.
Defined.

(** A state hook mounted as the first hook of the alternate, with the
    function [3] as initializer: the state is its result 7. *)
Lemma sample_mount_state :
  exists st',
    mountState sampleCall (VFun 3) sampleRendering
    = (Returns (VNum 7, Some (Some 2%positive, 2%positive)), st')
    /\ hooks st' !! 2%positive
       = Some (Hook.mk (VNum 7) (VNum 7) None (Some 2%positive) None)
    /\ queues st' !! 2%positive
       = Some (UpdateQueue.mk None (Some (Some 2%positive, 2%positive))
                 (Some basicStateReducerRef) (VNum 7)).
Proof.
  destruct (mountState_cell sampleCall (VFun 3) sampleRendering 2 sampleAlternate [])
    as (st' & F' & Hrun & Hh & _ & Hq & _).
  - reflexivity.
  - reflexivity.
  - reflexivity.
  - reflexivity.
  - exists st'. split; [exact Hrun|]. split; [exact Hh|exact Hq].
Defined.

(** The state hook of the sample with the state 5 and then the updater [6]
    pending: the render gives 6. *)
Lemma sample_state_updates :
  exists st',
    updateState stateCall 5 (VNum 0) sampleStatePending
    = (Returns (VNum 6, Some (Some 1%positive, 1%positive)), st')
    /\ queues st' !! 1%positive
       = Some (UpdateQueue.mk None (Some (Some 1%positive, 1%positive))
                 (Some basicStateReducerRef) (VNum 6)).
Proof.
  destruct (updateState_last_action stateCall 5 (VNum 0) sampleStatePending
              2 (snd (updateWorkInProgressHook sampleStatePending)) sampleHook 1
              sampleHook 1 (sampleQueue (Some 2%positive) basicStateReducerRef) []
              [1%positive; 2%positive]
              [Update.mk 1 (VNum 5) None VNull None] (Update.mk 1 (VFun 6) None VNull None)
              2 (Fiber.set_memoizedState (Some 2%positive) sampleAlternate) (VNum 5))
    as (st' & Hrun & _ & Hq).
  - intros state action. destruct action; reflexivity.
  - vm_compute. reflexivity.
  - vm_compute. reflexivity.
  - reflexivity.
  - vm_compute. reflexivity.
  - discriminate.
  - reflexivity.
  - vm_compute. reflexivity.
  - apply circular_nil.
  - split; [|split; [reflexivity|]].
    + apply (bool_decide_unpack _). vm_compute. exact I.
    + cbn. repeat split; eexists; (split; [vm_compute; reflexivity|reflexivity]).
  - apply (bool_decide_unpack _). vm_compute. exact I.
  - repeat constructor.
  - reflexivity.
  - vm_compute. reflexivity.
  - cbn. lia.
  - repeat constructor.
  - intros pre u post f x E Hf Hfold.
    destruct pre as [|p1 [|p2 pre]]; cbn in E.
    + injection E as <- _. discriminate Hf.
    + injection E as _ <- _. discriminate Hf.
    + injection E as _ _ E. destruct pre; discriminate E.
  - reflexivity.
  - exists st'. split; [exact Hrun|exact Hq].
Defined.

(** The sample source read twice in the render at lane 1: the second read,
    when the lanes have become other ones and the root has mutations to
    flush, returns the snapshot again. *)
Lemma sample_source_read_again :
  fst (readFromUnsubcribedMutableSource sampleCall true 1 1 4
         (set_roots (<[1%positive := FiberRoot.mk 6]>
                       (roots (snd (readFromUnsubcribedMutableSource sampleCall true 1 1
                                      4 sampleSource))))
            (set_renderLanes 8
               (snd (readFromUnsubcribedMutableSource sampleCall true 1 1 4
                       sampleSource)))))
  = Returns (VStr "snapshot").
Proof.
  destruct (readFromUnsubcribedMutableSource_again sampleCall true 1 1 4 4 sampleSource
              (createMutableSource (VObj 9) 3) (FiberRoot.mk NoLanes) (VNum 7)
              (VStr "snapshot")
              (snd (readFromUnsubcribedMutableSource sampleCall true 1 1 4 sampleSource)))
    as (s1 & _ & _ & _ & Hagain).
  - reflexivity.
  - reflexivity.
  - reflexivity.
  - reflexivity.
  - reflexivity.
  - vm_compute. reflexivity.
  - rewrite (Hagain 8%N (FiberRoot.mk 6)). reflexivity.
Defined.
